(** * Meeting summarizer: the summary contract of the Express backend

    A shallow embedding of the request handlers of the backend
    ([server.js] and its sibling revisions) and of the edit cycle of the
    front end ([frontend/pages/index.js]), together with the properties of
    the summary shape normalizer, the mock summarizer and the two POST
    handlers.

    JavaScript values are embedded as the JSON fragment a request body or a
    completion can carry; strings are sequences of UTF-16 code units, objects
    are finite maps from property names to values. *)

From Stdlib Require Import ZArith NArith QArith String Ascii DecimalString.
From stdpp Require Import base option list gmap.

Set Warnings "-register-all".

(** ** Strings *)

(** A JavaScript string is a sequence of 16-bit code units. *)
Definition jschar := N.
Bind Scope N_scope with jschar.
Abbreviation jsstring := (list N).

(** String literals of the source, one code unit per ASCII character. *)
Definition lit (s : string) : jsstring :=
  List.map N_of_ascii (list_ascii_of_string s).

(** [WhiteSpace] and [LineTerminator] of ECMAScript: what [\s] matches and
    what [String.prototype.trim] removes. *)
Definition is_space (c : jschar) : bool :=
  ((9 <=? c) && (c <=? 13)
   || (c =? 32) || (c =? 160) || (c =? 5760)
   || (8192 <=? c) && (c <=? 8202)
   || (c =? 8232) || (c =? 8233) || (c =? 8239) || (c =? 8287)
   || (c =? 12288) || (c =? 65279))%N.

Fixpoint trimStart (s : jsstring) : jsstring :=
  match s with
  | c :: t => if is_space c then trimStart t else s
  | [] => []
  end.

Definition trimEnd (s : jsstring) : jsstring := rev (trimStart (rev s)).

(** [s.trim()] *)
Definition trim (s : jsstring) : jsstring := trimEnd (trimStart s).

(** A string of white space only. *)
Definition blank (s : jsstring) : Prop := forallb is_space s = true.

(** ** Values *)

(** Numbers are carried at their integer values: the handlers only test a
    number for being zero and print it; no arithmetic is done on them. *)
Inductive JsVal : Type :=
| JUndefined
| JNull
| JBool (b : bool)
| JNum (n : Z)
| JStr (s : jsstring)
| JArr (elems : list JsVal)
| JObj (fields : gmap jsstring JsVal).

#[global] Instance JsVal_inhabited : Inhabited JsVal := populate JUndefined.

(** [Boolean(v)], the test behind [!v], [a || b] and [c ? x : y]. *)
Definition truthy (v : JsVal) : bool :=
  match v with
  | JUndefined | JNull => false
  | JBool b => b
  | JNum n => negb (n =? 0)%Z
  | JStr s => match s with [] => false | _ => true end
  | JArr _ | JObj _ => true
  end.

(** [a || b] *)
Definition js_or (a b : JsVal) : JsVal := if truthy a then a else b.

(** [Array.isArray(v)] *)
Definition isArray (v : JsVal) : bool :=
  match v with JArr _ => true | _ => false end.

Definition nullish (v : JsVal) : bool :=
  match v with JUndefined | JNull => true | _ => false end.

(** [v?.k]: the property [k] of [v], or [undefined] when [v] is [null] or
    [undefined].  The fields of an object and the [length] of an array or a
    string; this is exact for the names the handlers read, none of which is
    an index or is defined on a built-in prototype. *)
Definition opt_get (v : JsVal) (k : jsstring) : JsVal :=
  match v with
  | JObj m => default JUndefined (m !! k)
  | JArr l => if decide (k = lit "length") then JNum (Z.of_nat (length l)) else JUndefined
  | JStr s => if decide (k = lit "length") then JNum (Z.of_nat (length s)) else JUndefined
  | _ => JUndefined
  end.

Notation "v ?. k" := (opt_get v (lit k)) (at level 9, k at level 0, format "v ?. k").

(** [v.k]: as [v?.k], but reading a property of [null] or [undefined]
    throws a [TypeError] ([None]). *)
Definition dot (v : JsVal) (k : jsstring) : option JsVal :=
  if nullish v then None else Some (opt_get v k).

(** [v?.[0]] *)
Definition opt_first (v : JsVal) : JsVal :=
  match v with
  | JArr l => hd JUndefined l
  | JStr s => match s with c :: _ => JStr [c] | [] => JUndefined end
  | JObj m => default JUndefined (m !! lit "0")
  | _ => JUndefined
  end.

(** Decimal rendering of an integer-valued number. *)
Definition num_to_string (n : Z) : jsstring :=
  lit (NilZero.string_of_int (Z.to_int n)).

(** [Array.prototype.join] over an element printer: [sep] goes between the
    elements; a failing printer makes the whole join fail. *)
Definition join_by {A} (f : A → option jsstring) (sep : jsstring) : list A → option jsstring :=
  fix go (l : list A) : option jsstring :=
    match l with
    | [] => Some []
    | [x] => f x
    | x :: rest =>
        match f x, go rest with
        | Some s, Some r => Some (s ++ sep ++ r)
        | _, _ => None
        end
    end.

(** [ToString(v)], as applied by [String(v)], template literals and [join].
    A JSON object has no callable property: one that carries its own
    [toString] shadows [Object.prototype.toString] and cannot be converted
    to a primitive, which throws a [TypeError] ([None]).  An array prints
    its elements separated by commas, [null] and [undefined] as nothing. *)
Fixpoint to_string (v : JsVal) : option jsstring :=
  match v with
  | JUndefined => Some (lit "undefined")
  | JNull => Some (lit "null")
  | JBool b => Some (lit (if b then "true" else "false"))
  | JNum n => Some (num_to_string n)
  | JStr s => Some s
  | JArr l =>
      join_by (fun x => if nullish x then Some [] else to_string x) (lit ",") l
  | JObj m =>
      match m !! lit "toString" with
      | Some _ => None
      | None => Some (lit "[object Object]")
      end
  end.

(** [arr.join(sep)] on an array of arbitrary values. *)
Definition join (sep : jsstring) (l : list JsVal) : option jsstring :=
  join_by (fun x => if nullish x then Some [] else to_string x) sep l.

(** [s.split(sep)] for a separator [sep] of one code unit, as in
    [split("\n")] and [split(",")]. *)
Fixpoint split_unit_go (sep : jschar) (cur : jsstring) (s : jsstring) : list jsstring :=
  match s with
  | [] => [rev cur]
  | c :: t =>
      if (c =? sep)%N then rev cur :: split_unit_go sep [] t
      else split_unit_go sep (c :: cur) t
  end.

Definition split_unit (sep : jschar) (s : jsstring) : list jsstring :=
  split_unit_go sep [] s.

(** [.filter(Boolean)] on an array of strings: the empty string is the only
    falsy string. *)
Definition nonempty (s : jsstring) : bool :=
  match s with [] => false | _ => true end.

(** [.map((s) => s.trim()).filter(Boolean)] *)
Definition trim_and_drop_blank (l : list jsstring) : list jsstring :=
  List.filter nonempty (List.map trim l).

(** ** Regular expressions *)

(** The regular expression literals of the sources, as syntax trees, and a
    backtracking matcher: [rmatch r (pos, rest)] lists the cursors at which a
    match of [r] started at [pos] can end, in the order in which a
    backtracking engine tries them; the head is the match that [exec]
    reports.  Quantifiers are greedy and, as in ECMAScript, an iteration
    that consumes nothing is discarded. *)
Inductive regex : Type :=
| REps
| RChar (c : jschar)
| RSet (p : jschar → bool)
| RSeq (a b : regex)
| RAlt (a b : regex)
| ROpt (a : regex)
| RStar (a : regex)
| RPlus (a : regex)
| RBol
| REol.

Definition cursor : Type := nat * jsstring.

Definition step_if (p : jschar → bool) (st : cursor) : list cursor :=
  match st.2 with
  | c :: t => if p c then [(S st.1, t)] else []
  | [] => []
  end.

Definition advanced (st : cursor) (st' : cursor) : bool := negb (st'.1 =? st.1)%nat.

Fixpoint iterate (m : cursor → list cursor) (fuel : nat) (st : cursor) : list cursor :=
  match fuel with
  | O => [st]
  | S f =>
      flat_map (fun st' => if advanced st st' then iterate m f st' else []) (m st) ++ [st]
  end.

Fixpoint rmatch (r : regex) (st : cursor) : list cursor :=
  match r with
  | REps => [st]
  | RChar c => step_if (N.eqb c) st
  | RSet p => step_if p st
  | RSeq a b => flat_map (rmatch b) (rmatch a st)
  | RAlt a b => rmatch a st ++ rmatch b st
  | ROpt a => List.filter (advanced st) (rmatch a st) ++ [st]
  | RStar a => iterate (rmatch a) (S (length st.2)) st
  | RPlus a => flat_map (iterate (rmatch a) (S (length st.2))) (rmatch a st)
  | RBol => if (st.1 =? 0)%nat then [st] else []
  | REol => match st.2 with [] => [st] | _ => [] end
  end.

(** One sticky [exec] at a cursor. *)
Definition regex_exec (r : regex) (st : cursor) : option cursor := head (rmatch r st).

(** [r.test(s)]: is there a match starting anywhere in [s]? *)
Fixpoint regex_search (r : regex) (pos : nat) (rest : jsstring) : bool :=
  match regex_exec r (pos, rest) with
  | Some _ => true
  | None => match rest with [] => false | _ :: t => regex_search r (S pos) t end
  end.

Definition regex_test (r : regex) (s : jsstring) : bool := regex_search r 0 s.

(** A literal, and a literal under the [i] flag.  Without the [u] flag a
    pattern letter is matched by its two ASCII cases only. *)
Definition ascii_upper (c : jschar) : jschar :=
  if ((97 <=? c) && (c <=? 122))%N then (c - 32)%N else c.

Definition ascii_lower (c : jschar) : jschar :=
  if ((65 <=? c) && (c <=? 90))%N then (c + 32)%N else c.

Definition rstr (s : string) : regex :=
  foldr (fun c r => RSeq (RChar c) r) REps (lit s).

Definition rstr_i (s : string) : regex :=
  foldr (fun c r => RSeq (RSet (fun x => (ascii_upper x =? ascii_upper c)%N)) r) REps (lit s).

(** [s.split(r)] for a regular expression without capture groups
    (RegExp.prototype[Symbol.split]): [p] is where the current piece starts,
    [q] the position tried next, [cur] the code units between them (latest
    first) and [rest] the input from [q] on.  A match that ends where the
    piece starts is skipped. *)
Fixpoint split_regex_go (r : regex) (fuel : nat) (p q : nat)
    (cur rest : jsstring) : list jsstring :=
  match fuel with
  | O => []
  | S fuel' =>
      match rest with
      | [] => [rev cur]
      | c :: t =>
          match regex_exec r (q, rest) with
          | Some (e, rest') =>
              if (e =? p)%nat then split_regex_go r fuel' p (S q) (c :: cur) t
              else rev cur :: split_regex_go r fuel' e e [] rest'
          | None => split_regex_go r fuel' p (S q) (c :: cur) t
          end
      end
  end.

Definition split_regex (r : regex) (s : jsstring) : list jsstring :=
  match s with
  | [] => match regex_exec r (0%nat, []) with Some _ => [] | None => [[]] end
  | _ => split_regex_go r (2 * length s + 1) 0 0 [] s
  end.

(** [s.replace(r, empty)] for a regular expression with the [g] flag and
    the empty string as replacement. *)
Fixpoint remove_all_go (r : regex) (fuel : nat) (q : nat) (rest : jsstring) : jsstring :=
  match fuel with
  | O => rest
  | S fuel' =>
      match regex_exec r (q, rest) with
      | Some (e, rest') =>
          if (e =? q)%nat then
            match rest with
            | c :: t => c :: remove_all_go r fuel' (S q) t
            | [] => []
            end
          else remove_all_go r fuel' e rest'
      | None =>
          match rest with
          | c :: t => c :: remove_all_go r fuel' (S q) t
          | [] => []
          end
      end
  end.

Definition remove_all (r : regex) (s : jsstring) : jsstring :=
  remove_all_go r (S (length s)) 0 s.

(** ** Effects of a request handler *)

(** The request sent to the text-completion service:
    [{ model, messages, temperature }], each message a role and a content. *)
Record GroqRequest : Type := {
  model : jsstring;
  messages : list (jsstring * jsstring);
  temperature : Q;
}.

(** What a handler does besides answering. *)
Inductive Event : Type :=
| GroqCreate (req : GroqRequest)
| SendEmail (recipients : JsVal) (subject html : jsstring)
| ConsoleLog (label : jsstring)
| ConsoleError (label : jsstring).

(** The outside world of one request: the completion service
    ([groq.chat.completions.create]), the mail collaborator ([sendEmailHTML])
    and [JSON.parse]; [None] is a rejected promise or a thrown exception. *)
Record Collaborators : Type := {
  groq_create : GroqRequest → option JsVal;
  sendEmailHTML : JsVal → jsstring → jsstring → option JsVal;
  JSON_parse : jsstring → option JsVal;
}.

(** A computation logs its events and either returns or throws ([None]). *)
Definition Eff (A : Type) : Type := (list Event * option A)%type.

#[global] Instance Eff_ret : MRet Eff := fun A a => ([], Some a).

#[global] Instance Eff_bind : MBind Eff := fun A B f m =>
  match m.2 with
  | Some a => (m.1 ++ (f a).1, (f a).2)
  | None => (m.1, None)
  end.

Definition throw {A} : Eff A := ([], None).

(** Lift a pure step that may throw. *)
Definition try_pure {A} (o : option A) : Eff A := ([], o).

Definition emit (e : Event) : Eff unit := ([e], Some tt).

(** [try { body } catch (err) { handler }] *)
Definition try_catch {A} (body handler : Eff A) : Eff A :=
  match body.2 with
  | Some a => body
  | None => (body.1 ++ handler.1, handler.2)
  end.

(** [arr.map(f)] where [f] may throw; calling [map] on anything but an array
    is a [TypeError]. *)
Fixpoint map_eff {A B} (f : A → Eff B) (l : list A) : Eff (list B) :=
  match l with
  | [] => mret []
  | x :: t => y ← f x; ys ← map_eff f t; mret (y :: ys)
  end.

Definition array_elems (v : JsVal) : Eff (list JsVal) :=
  match v with JArr l => mret l | _ => throw end.

(** An HTTP answer: [res.status(code).json(body)]; [res.json] answers 200. *)
Record Response : Type := { status : Z; body : JsVal }.

Definition json (code : Z) (b : JsVal) : Eff Response :=
  mret {| status := code; body := b |}.

Definition error_body (msg : string) : JsVal :=
  JObj {[ lit "error" := JStr (lit msg) ]}.

(** Process-wide configuration, read once at startup from the environment. *)
Record Env : Type := {
  env_USE_MOCK : option jsstring;
  env_GROQ_API_KEY : option jsstring;
  env_GROQ_MODEL : option jsstring;
}.

Record Config : Type := {
  USE_MOCK : bool;
  (** [groq] is a client when a credential is configured, [null] otherwise *)
  groq : bool;
  GROQ_MODEL : option jsstring;
}.

(** [String(val).toLowerCase()], on the ASCII letters: no other code unit
    lowercases to a letter of ["true"], ["1"] or ["yes"]. *)
Definition toLowerCase (s : jsstring) : jsstring := List.map ascii_lower s.

Definition includes (l : list jsstring) (s : jsstring) : bool :=
  existsb (fun x => bool_decide (x = s)) l.

(** [Boolean(process.env.GROQ_API_KEY)] *)
Definition HAS_GROQ (e : Env) : bool :=
  match env_GROQ_API_KEY e with Some (_ :: _) => true | _ => false end.

(** ** The current revision of the backend *)

Module Server.

(** The object literals [{ owner, task, due }] and
    [{ points, decisions, action_items }]. *)
Definition action_item (owner task due : JsVal) : JsVal :=
  JObj (<[lit "owner" := owner]> (<[lit "task" := task]> (<[lit "due" := due]> ∅))).

Definition summary_record (points decisions action_items : JsVal) : JsVal :=
  JObj (<[lit "points" := points]>
       (<[lit "decisions" := decisions]>
       (<[lit "action_items" := action_items]> ∅))).

(** [ensureSummaryShape], lines 57-67 of the current [server.js]: [points]
    and [decisions] are kept when they are arrays and replaced by [[]]
    otherwise; an [action_items] array is mapped, element by element, to
    [{ owner: a?.owner || 'Unassigned', task: a?.task || '', due: a?.due || '' }],
    anything else is replaced by [[]]. *)
Definition ensure_item (a : JsVal) : JsVal :=
  action_item (js_or a?."owner" (JStr (lit "Unassigned")))
              (js_or a?."task" (JStr []))
              (js_or a?."due" (JStr [])).

Definition ensureSummaryShape (obj : JsVal) : JsVal :=
  summary_record
    (if isArray obj?."points" then obj?."points" else JArr [])
    (if isArray obj?."decisions" then obj?."decisions" else JArr [])
    (match obj?."action_items" with
     | JArr items => JArr (List.map ensure_item items)
     | _ => JArr []
     end).

(** [parseBool], lines 48-51, and the configuration of lines 53-55. *)
Definition parseBool (val : option jsstring) (def : bool) : bool :=
  match val with
  | None | Some [] => def
  | Some s => includes [lit "true"; lit "1"; lit "yes"] (toLowerCase s)
  end.

Definition config (e : Env) : Config :=
  {| USE_MOCK := parseBool (env_USE_MOCK e) true;
     groq := HAS_GROQ e;
     GROQ_MODEL := None |}.

(** The regular expression [/\r?\n|[.?!]\s+/] of the mock path. *)
Definition is_sentence_end (c : jschar) : bool :=
  ((c =? 46) || (c =? 63) || (c =? 33))%N.

Definition fragment_separator : regex :=
  RAlt (RSeq (ROpt (RChar 13)) (RChar 10))
       (RSeq (RSet is_sentence_end) (RPlus (RSet is_space))).

(** Lines 79-82:
<<
  const lines = String(transcript)
    .split(/\r?\n|[.?!]\s+/)
    .map((s) => s.trim())
    .filter(Boolean);
>> *)
Definition mock_lines (transcript : jsstring) : list jsstring :=
  trim_and_drop_blank (split_regex fragment_separator transcript).

(** [lines.slice(0, 6)] *)
Definition mock_points (transcript : jsstring) : list jsstring :=
  take 6 (mock_lines transcript).

Definition str_array (l : list jsstring) : JsVal := JArr (JStr <$> l).

(** The candidate of lines 84-91, before normalization. *)
Definition mock_candidate (transcript : jsstring) : JsVal :=
  summary_record
    (str_array (mock_points transcript))
    (JArr [JStr (lit "Proceed with current timeline.")])
    (JArr [action_item (JStr (lit "John")) (JStr (lit "Finish API integration"))
                       (JStr (lit "Friday"));
           action_item (JStr (lit "Sarah")) (JStr (lit "Design frontend UI"))
                       (JStr (lit "Wednesday"))]).

Definition mock_summary (transcript : jsstring) : JsVal :=
  ensureSummaryShape (mock_candidate transcript).

(** The prompt of lines 97-107. *)
Definition system_prompt : jsstring :=
  lit "You are a meeting notes summarizer. Output STRICT JSON only with keys: points (string[]), decisions (string[]), action_items (array of {owner, task, due}). No prose or markdown.".

Definition user_prompt (instruction transcript : jsstring) : jsstring :=
  lit "Instruction: " ++ instruction ++ [10; 10]%N ++ lit "Transcript:" ++ [10]%N
    ++ transcript ++ [10; 10]%N ++ lit "Return STRICT JSON only.".

(** [/^```json\s*|\s*```$/g] *)
Definition code_fence : regex :=
  RAlt (RSeq RBol (RSeq (rstr "```json") (RStar (RSet is_space))))
       (RSeq (RStar (RSet is_space)) (RSeq (rstr "```") REol)).

(** [completion.choices?.[0]?.message?.content?.trim() || "{}"]: reading
    [choices] of [null] throws, and so does calling [trim] on a content that
    is neither absent nor a string. *)
Definition completion_text (completion : JsVal) : Eff jsstring :=
  choices ← try_pure (dot completion (lit "choices"));
  match (opt_first choices)?."message"?."content" with
  | JUndefined | JNull => mret (lit "{}")
  | JStr s => mret (match trim s with [] => lit "{}" | t => t end)
  | _ => throw
  end.

Definition summary_body (summary : JsVal) : JsVal :=
  JObj {[ lit "summary" := summary ]}.

(** [POST /generate-summary], lines 70-131. *)
Definition generate_summary (cfg : Config) (w : Collaborators) (req_body : JsVal)
    : Eff Response :=
  try_catch
    (let b := js_or req_body (JObj ∅) in
     let transcript := b?."transcript" in
     let instruction := b?."instruction" in
     if negb (truthy transcript) || negb (truthy instruction) then
       json 400 (error_body "Transcript and instruction are required")
     else if USE_MOCK cfg || negb (groq cfg) then
       t ← try_pure (to_string transcript);
       json 200 (summary_body (mock_summary t))
     else
       i ← try_pure (to_string instruction);
       t ← try_pure (to_string transcript);
       let req := {| model := lit "llama-3.1-8b-instant";
                     messages := [(lit "system", system_prompt);
                                  (lit "user", user_prompt i t)];
                     temperature := 0.2%Q |} in
       _ ← emit (GroqCreate req);
       completion ← try_pure (groq_create w req);
       text ← completion_text completion;
       match JSON_parse w (remove_all code_fence text) with
       | Some parsed => json 200 (summary_body (ensureSummaryShape parsed))
       | None =>
           _ ← emit (ConsoleError (lit "Invalid JSON from Groq:"));
           json 500 (error_body "Groq returned invalid JSON")
       end)
    (_ ← emit (ConsoleError (lit "generate-summary error:"));
     json 500 (error_body "Failed to generate summary (server error)")).

(** The HTML fragments of lines 143-153.  The dash of the action-item line
    is stored in the file as the three code units U+00E2 U+20AC U+201D. *)
Definition li (s : jsstring) : jsstring := lit "<li>" ++ s ++ lit "</li>".

Definition render_point (p : JsVal) : Eff jsstring :=
  s ← try_pure (to_string p); mret (li s).

Definition render_action (a : JsVal) : Eff jsstring :=
  owner ← try_pure (dot a (lit "owner") ≫= to_string);
  task ← try_pure (dot a (lit "task") ≫= to_string);
  due ← try_pure (dot a (lit "due") ≫= to_string);
  mret (lit "<li><strong>" ++ owner ++ lit "</strong>: " ++ task
          ++ lit " " ++ [226; 8364; 8221]%N ++ lit " <em>" ++ due ++ lit "</em></li>").

(** [arr.map(f).join(empty)]: the pieces are concatenated. *)
Definition render_list (f : JsVal → Eff jsstring) (arr : JsVal) : Eff jsstring :=
  items ← array_elems arr; parts ← map_eff f items; mret (concat parts).

(** A titled section, [<h4>title</h4><ul>...</ul>], or the empty string
    when [arr.length] is falsy. *)
Definition render_section (title : string) (f : JsVal → Eff jsstring) (arr : JsVal)
    : Eff jsstring :=
  len ← try_pure (dot arr (lit "length"));
  if truthy len then
    inner ← render_list f arr;
    mret (lit "<h4>" ++ lit title ++ lit "</h4><ul>" ++ inner ++ lit "</ul>")
  else mret [].

Definition render_html (summary : JsVal) : Eff jsstring :=
  points ← try_pure (dot summary (lit "points"));
  bullets ← render_list render_point points;
  decisions ← try_pure (dot summary (lit "decisions"));
  decisionsHTML ← render_section "Decisions" render_point decisions;
  action_items ← try_pure (dot summary (lit "action_items"));
  actionsHTML ← render_section "Action Items" render_action action_items;
  mret (lit "<h2>Meeting Summary</h2><h4>Key Points</h4><ul>" ++ bullets ++ lit "</ul>"
          ++ decisionsHTML ++ actionsHTML).

Definition sent_body (previewUrl : JsVal) : JsVal :=
  JObj (<[lit "message" := JStr (lit "Email sent (preview available)")]>
       (<[lit "previewUrl" := previewUrl]> ∅)).

(** [POST /send-summary], lines 133-161. *)
Definition send_summary (w : Collaborators) (req_body : JsVal) : Eff Response :=
  try_catch
    (let rawSummary := js_or req_body?."summary" (JObj ∅) in
     let recipients := js_or req_body?."recipients" (JArr []) in
     let summary := ensureSummaryShape rawSummary in
     len ← try_pure (dot recipients (lit "length"));
     if negb (truthy len) then
       json 400 (error_body "Recipients array is required")
     else
       html ← render_html summary;
       _ ← emit (SendEmail recipients (lit "Meeting Summary") html);
       previewUrl ← try_pure (sendEmailHTML w recipients (lit "Meeting Summary") html);
       json 200 (sent_body previewUrl))
    (_ ← emit (ConsoleError (lit "send-summary error:"));
     json 500 (error_body "Failed to send summary")).

End Server.

(** ** The revision with explicit mock mode *)

(** The sibling revision of [server.js] whose mock mode is "explicit only":
    same normalizer, but [USE_MOCK] defaults to false and a missing
    credential is reported instead of falling back to the mock path. *)
Module StrictServer.

Import Server.

(** Lines 35-40:
<<
  const parseBool = (val, defaultVal = false) =>
    val == null ? defaultVal : ["true", "1", "yes"].includes(String(val).toLowerCase());
>> *)
Definition parseBool (val : option jsstring) (defaultVal : bool) : bool :=
  match val with
  | None => defaultVal
  | Some s => includes [lit "true"; lit "1"; lit "yes"] (toLowerCase s)
  end.

Definition config (e : Env) : Config :=
  {| USE_MOCK := parseBool (env_USE_MOCK e) false;
     groq := HAS_GROQ e;
     GROQ_MODEL := env_GROQ_MODEL e |}.

(** [/^\s*\.\.\.\s*$/] *)
Definition ellipsis_line : regex :=
  RSeq RBol (RSeq (RStar (RSet is_space))
    (RSeq (rstr "...") (RSeq (RStar (RSet is_space)) REol))).

(** [/demo|approve|decision|agree/i] *)
Definition decision_words : regex :=
  RAlt (rstr_i "demo") (RAlt (rstr_i "approve") (RAlt (rstr_i "decision") (rstr_i "agree"))).

(** [/by (monday|tuesday|wednesday|thursday|friday)|due|deliver|send/i] *)
Definition action_words : regex :=
  RAlt (RSeq (rstr_i "by ")
          (RAlt (rstr_i "monday") (RAlt (rstr_i "tuesday") (RAlt (rstr_i "wednesday")
             (RAlt (rstr_i "thursday") (rstr_i "friday"))))))
       (RAlt (rstr_i "due") (RAlt (rstr_i "deliver") (rstr_i "send"))).

(** Lines 65-70. *)
Definition mock_points (transcript : jsstring) : list jsstring :=
  take 8 (List.filter (fun l => negb (regex_test ellipsis_line l)) (mock_lines transcript)).

(** [["John", "Sarah", "Alex"][i] || "Owner"] *)
Definition owner_of (i : nat) : JsVal :=
  js_or (nth i [JStr (lit "John"); JStr (lit "Sarah"); JStr (lit "Alex")] JUndefined)
        (JStr (lit "Owner")).

(** The candidate of lines 72-81, before normalization. *)
Definition mock_candidate (transcript : jsstring) : JsVal :=
  let points := mock_points transcript in
  summary_record
    (str_array points)
    (if existsb (regex_test decision_words) points
     then JArr [JStr (lit "Stakeholders aligned on next steps.")]
     else JArr [])
    (JArr (imap (fun i p => action_item (owner_of i) (JStr p) (JStr []))
             (take 3 (List.filter (regex_test action_words) points)))).

Definition mock_summary (transcript : jsstring) : JsVal :=
  ensureSummaryShape (mock_candidate transcript).

(** The prompt of lines 95-110; the quotation marks of the example output
    are written as apostrophes here and put back by [quoted]. *)
Definition quoted (s : string) : jsstring :=
  List.map (fun c => if (c =? 39)%N then 34%N else c) (lit s).

Definition system_prompt : jsstring :=
  lit "You are a meeting notes summarizer. Output STRICT JSON with keys: "
    ++ lit "points (string[]), decisions (string[]), action_items (array of {owner, task, due}). "
    ++ lit "Do NOT output prose or markdown. Only JSON.".

Definition user_prompt (instruction transcript : jsstring) : jsstring :=
  lit "Instruction: " ++ instruction ++ [10; 10]%N ++ lit "Transcript:" ++ [10]%N
    ++ transcript ++ [10; 10]%N
    ++ lit "Return STRICT JSON only. Example output:" ++ [10]%N
    ++ quoted "{'points':['...'],'decisions':['...'],'action_items':[{'owner':'Name','task':'Task','due':'Date'}]}".

(** [process.env.GROQ_MODEL || "llama-3.1-8b-instant"] *)
Definition model_name (cfg : Config) : jsstring :=
  match GROQ_MODEL cfg with
  | Some (c :: m) => c :: m
  | _ => lit "llama-3.1-8b-instant"
  end.

(** [POST /generate-summary], lines 55-134. *)
Definition generate_summary (cfg : Config) (w : Collaborators) (req_body : JsVal)
    : Eff Response :=
  try_catch
    (let b := js_or req_body (JObj ∅) in
     let transcript := b?."transcript" in
     let instruction := b?."instruction" in
     if negb (truthy transcript) || negb (truthy instruction) then
       json 400 (error_body "Transcript and instruction are required")
     else if USE_MOCK cfg then
       _ ← emit (ConsoleLog (lit "[generate-summary] MODE=mock"));
       t ← try_pure (to_string transcript);
       json 200 (summary_body (mock_summary t))
     else if negb (groq cfg) then
       json 500 (error_body
         "GROQ_API_KEY not configured. Set USE_MOCK=true to test without LLM.")
     else
       _ ← emit (ConsoleLog (lit "[generate-summary] MODE=groq"));
       i ← try_pure (to_string instruction);
       t ← try_pure (to_string transcript);
       let req := {| model := model_name cfg;
                     messages := [(lit "system", system_prompt);
                                  (lit "user", user_prompt i t)];
                     temperature := 0.2%Q |} in
       _ ← emit (GroqCreate req);
       completion ← try_pure (groq_create w req);
       text ← completion_text completion;
       match JSON_parse w (remove_all code_fence text) with
       | Some parsed => json 200 (summary_body (ensureSummaryShape parsed))
       | None =>
           _ ← emit (ConsoleError (lit "Groq returned invalid JSON:"));
           json 502 (error_body "Groq returned invalid JSON")
       end)
    (_ ← emit (ConsoleError (lit "generate-summary error:"));
     json 500 (error_body "Failed to generate summary (server error)")).

End StrictServer.

(** ** The copy left in the middle of a merge *)

(** [src/server.js] holds conflict markers; outside the conflicting regions
    it keeps an older normalizer, which passes [action_items] through, the
    same mock path, and a send handler that defaults the item fields while
    rendering. *)
Module ConflictedServer.

Import Server.

(** Lines 95-99:
<<
  const ensureSummaryShape = (obj) => ({
    points: Array.isArray(obj?.points) ? obj.points : [],
    decisions: Array.isArray(obj?.decisions) ? obj.decisions : [],
    action_items: Array.isArray(obj?.action_items) ? obj.action_items : []
  });
>> *)
Definition ensureSummaryShape (obj : JsVal) : JsVal :=
  summary_record
    (if isArray obj?."points" then obj?."points" else JArr [])
    (if isArray obj?."decisions" then obj?."decisions" else JArr [])
    (if isArray obj?."action_items" then obj?."action_items" else JArr []).

(** Lines 144-146: the split of the mock path and [lines.slice(0, 6)]. *)
Definition mock_lines (transcript : jsstring) : list jsstring :=
  trim_and_drop_blank (split_regex fragment_separator transcript).

Definition mock_points (transcript : jsstring) : list jsstring :=
  take 6 (mock_lines transcript).

(** Line 217: the item fields are defaulted while rendering; reading a field
    of a [null] item throws.  The dash is U+2014. *)
Definition field_or (a : JsVal) (k : string) (default : jsstring) : option jsstring :=
  match dot a (lit k) with
  | Some v => to_string (js_or v (JStr default))
  | None => None
  end.

Definition render_action (a : JsVal) : Eff jsstring :=
  owner ← try_pure (field_or a "owner" (lit "Owner"));
  task ← try_pure (field_or a "task" []);
  due ← try_pure (field_or a "due" []);
  mret (lit "<li><strong>" ++ owner ++ lit "</strong>: " ++ task
          ++ lit " " ++ [8212]%N ++ lit " <em>" ++ due ++ lit "</em></li>").

Definition render_html (summary : JsVal) : Eff jsstring :=
  points ← try_pure (dot summary (lit "points"));
  bullets ← render_list render_point points;
  decisions ← try_pure (dot summary (lit "decisions"));
  decisionsHTML ← render_section "Decisions" render_point decisions;
  action_items ← try_pure (dot summary (lit "action_items"));
  actionsHTML ← render_section "Action Items" render_action action_items;
  mret (lit "<h2>Meeting Summary</h2><h4>Key Points</h4><ul>" ++ bullets ++ lit "</ul>"
          ++ decisionsHTML ++ actionsHTML).

Definition sent_body (previewUrl : JsVal) : JsVal :=
  JObj (<[lit "message" := JStr (lit "Mock email sent")]>
       (<[lit "previewUrl" := previewUrl]> ∅)).

(** [POST /send-summary], lines 207-227. *)
Definition send_summary (w : Collaborators) (req_body : JsVal) : Eff Response :=
  try_catch
    (let rawSummary := js_or req_body?."summary" (JObj ∅) in
     let recipients := js_or req_body?."recipients" (JArr []) in
     let summary := ensureSummaryShape rawSummary in
     len ← try_pure (dot recipients (lit "length"));
     if negb (truthy len) then
       json 400 (error_body "Recipients array is required")
     else
       html ← render_html summary;
       _ ← emit (SendEmail recipients (lit "Meeting Summary") html);
       previewUrl ← try_pure (sendEmailHTML w recipients (lit "Meeting Summary") html);
       json 200 (sent_body previewUrl))
    (_ ← emit (ConsoleError (lit "send-summary error:"));
     json 500 (error_body "Failed to send summary")).

End ConflictedServer.

(** ** The edit cycle of the front end *)

Module Frontend.

(** Lines 26-27 of [frontend/pages/index.js]:
<<
  const safeArr = (v) => (Array.isArray(v) ? v : []);
  const toLines = (arr) => safeArr(arr).join("\n");
>> *)
Definition safeArr (v : JsVal) : list JsVal :=
  match v with JArr l => l | _ => [] end.

Definition toLines (arr : JsVal) : option jsstring := join [10]%N (safeArr arr).

(** The [onChange] of the points text area, line 168:
    [e.target.value.split("\n").map((x) => x.trim()).filter(Boolean)] *)
Definition edited_points (value : jsstring) : list jsstring :=
  trim_and_drop_blank (split_unit 10 value).

(** One pass through the text area without touching the text: what the
    points become when the displayed text comes back unchanged. *)
Definition edit_cycle (points : JsVal) : option (list jsstring) :=
  edited_points <$> toLines points.

End Frontend.

(** ** The mock summarizer as the specification words it *)

(** Split on newline boundaries or on sentence-ending punctuation followed by
    whitespace, trim each fragment, discard the empty ones, take the first
    [N]. *)
Module MockSpec.

Definition is_newline (c : jschar) : bool := (c =? 10)%N.

Definition is_sentence_punctuation (c : jschar) : bool :=
  bool_decide (c ∈ lit ".?!").

(** [cur] holds the code units of the fragment being read, latest first. *)
Fixpoint fragments_from (cur : jsstring) (s : jsstring) : list jsstring :=
  match s with
  | [] => [rev cur]
  | c :: t =>
      if is_newline c then rev cur :: fragments_from [] t
      else
        match t with
        | w :: t' =>
            if is_sentence_punctuation c && is_space w
            then rev cur :: fragments_from [] t'
            else fragments_from (c :: cur) t
        | [] => fragments_from (c :: cur) t
        end
  end.

Definition fragments (transcript : jsstring) : list jsstring :=
  fragments_from [] transcript.

Definition points (N : nat) (transcript : jsstring) : list jsstring :=
  take N (List.filter nonempty (List.map trim (fragments transcript))).

End MockSpec.

(** ** The shape invariant of a Summary *)

Module Shape.

Definition is_string (v : JsVal) : bool :=
  match v with JStr _ => true | _ => false end.

Definition any_value (v : JsVal) : bool := true.

(** An [{owner, task, due}] record: an object with exactly these fields. *)
Definition is_item_record (v : JsVal) : bool :=
  match v with
  | JObj m => bool_decide (dom m = {[ lit "owner"; lit "task"; lit "due" ]})
  | _ => false
  end.

Definition is_sequence_of (elt : JsVal → bool) (v : JsVal) : bool :=
  match v with JArr l => forallb elt l | _ => false end.

(** All three fields present, nothing else, each a sequence whose elements
    pass the test given for it. *)
Definition summary_shape (elt item : JsVal → bool) (v : JsVal) : bool :=
  match v with
  | JObj m =>
      bool_decide (dom m = {[ lit "points"; lit "decisions"; lit "action_items" ]})
      && is_sequence_of elt v?."points"
      && is_sequence_of elt v?."decisions"
      && is_sequence_of item v?."action_items"
  | _ => false
  end.

(** The invariant as the data model words it: strings for [points] and
    [decisions], [{owner, task, due}] records for [action_items]. *)
Definition well_formed : JsVal → bool := summary_shape is_string is_item_record.

(** The same with no constraint on the elements of [points] and
    [decisions]. *)
Definition well_shaped : JsVal → bool := summary_shape any_value is_item_record.

(** A field that is either not a sequence or a sequence of strings. *)
Definition strings_if_sequence (v : JsVal) : bool :=
  match v with JArr l => forallb is_string l | _ => true end.

End Shape.

(** ** What the fragment separator matches *)

(** The input left after a match of [/\r?\n|[.?!]\s+/] at the head of
    [rest], if there is one: a line feed, a carriage return and a line feed,
    or a sentence end with the whole run of white space after it. *)
Definition separator_at (rest : jsstring) : option jsstring :=
  match rest with
  | c :: t =>
      if (c =? 10)%N then Some t
      else
        match t with
        | w :: t' =>
            if (c =? 13)%N && (w =? 10)%N then Some t'
            else if Server.is_sentence_end c && is_space w then Some (trimStart t')
            else None
        | [] => None
        end
  | [] => None
  end.

(** ** Requests and what is observed of a handler *)

(** A generate-summary request that passes validation with strings: both
    fields are non-empty strings. *)
Definition valid_request (req_body : JsVal) (transcript instruction : jsstring) : Prop :=
  req_body?."transcript" = JStr transcript ∧ req_body?."instruction" = JStr instruction
  ∧ transcript ≠ [] ∧ instruction ≠ [].

(** A field that is missing from the body or holds the empty string. *)
Definition missing_or_empty (field : JsVal) : Prop :=
  field = JUndefined ∨ field = JStr [].

(** The body [{ transcript, instruction }]. *)
Definition generate_request (transcript instruction : string) : JsVal :=
  JObj (<[lit "transcript" := JStr (lit transcript)]>
       (<[lit "instruction" := JStr (lit instruction)]> ∅)).

(** The body [{ summary, recipients }]. *)
Definition send_request (summary recipients : JsVal) : JsVal :=
  JObj (<[lit "summary" := summary]> (<[lit "recipients" := recipients]> ∅)).

Definition is_groq_call (e : Event) : bool :=
  match e with GroqCreate _ => true | _ => false end.

Definition is_mail_call (e : Event) : bool :=
  match e with SendEmail _ _ _ => true | _ => false end.

(** Did the handler call the completion service, the mail collaborator? *)
Definition invokes_llm {A} (out : Eff A) : bool := existsb is_groq_call out.1.
Definition invokes_mail {A} (out : Eff A) : bool := existsb is_mail_call out.1.

(** The answer of a handler that returned [code] with [b]. *)
Definition answers (events : list Event) (code : Z) (b : JsVal) : Eff Response :=
  (events, Some {| status := code; body := b |}).

(** A value that [ToString] converts. *)
Definition printable (v : JsVal) : Prop := is_Some (to_string v).

(** A raw summary all of whose rendered parts convert to strings. *)
Definition renderable (raw : JsVal) : Prop :=
  Forall printable (Frontend.safeArr raw?."points")
  ∧ Forall printable (Frontend.safeArr raw?."decisions")
  ∧ Forall (fun a => printable a?."owner" ∧ printable a?."task" ∧ printable a?."due")
           (Frontend.safeArr raw?."action_items").

(** A summary field of the request that is absent, [null] or any other value
    that is not an object. *)
Definition not_an_object (v : JsVal) : Prop :=
  match v with JObj _ => False | _ => True end.

(** A raw summary none of whose three fields is a sequence. *)
Definition no_sequence_field (raw : JsVal) : Prop :=
  isArray raw?."points" = false ∧ isArray raw?."decisions" = false
  ∧ isArray raw?."action_items" = false.

(** The answer of a send handler once [html] has been rendered: the mail
    collaborator is called once, and its outcome decides between 200 with the
    preview locator, in the body built by [sent_body], and 500. *)
Definition mail_outcome (sent_body : JsVal → JsVal) (w : Collaborators)
    (recipients : JsVal) (html : jsstring) : Eff Response :=
  match sendEmailHTML w recipients (lit "Meeting Summary") html with
  | Some previewUrl =>
      answers [SendEmail recipients (lit "Meeting Summary") html]
        200 (sent_body previewUrl)
  | None =>
      answers [SendEmail recipients (lit "Meeting Summary") html;
               ConsoleError (lit "send-summary error:")]
        500 (error_body "Failed to send summary")
  end.

(** The fragment rendered from a summary without points, decisions or
    action items. *)
Definition empty_html : jsstring :=
  lit "<h2>Meeting Summary</h2><h4>Key Points</h4><ul></ul>".

(** A point that fits on one line of the text area: no line feed in it. *)
Definition one_line (p : jsstring) : Prop := 10%N ∉ p.

(** The text shown for points that are strings: the points separated by
    line feeds. *)
Fixpoint join_lines (ps : list jsstring) : jsstring :=
  match ps with
  | [] => []
  | [p] => p
  | p :: rest => p ++ [10%N] ++ join_lines rest
  end.

(** The round trip of the edit cycle on a summary whose points are the
    strings [ps]: the text area gives back [ps] trimmed, without its blank
    entries. *)
Definition roundtrip (summary : JsVal) (ps : list jsstring) : Prop :=
  summary?."points" = Server.str_array ps
  ∧ Frontend.edit_cycle summary?."points" = Some (trim_and_drop_blank ps).

(** Collaborators for the examples: a mail service that always succeeds with
    a fixed preview locator, no completion service, no parser. *)
Definition working_mail : Collaborators :=
  {| groq_create := fun _ => None;
     sendEmailHTML := fun _ _ _ => Some (JStr (lit "https://ethereal.email/message/1"));
     JSON_parse := fun _ => None |}.

(** An environment with nothing set. *)
Definition bare_env : Env :=
  {| env_USE_MOCK := None; env_GROQ_API_KEY := None; env_GROQ_MODEL := None |}.

(** ** Cross-origin requests *)

(** The allow-list of the current [server.js] and the decision of its
    [origin] callback. *)
Module Cors.

(** Lines 16-19:
<<
  const ALLOWLIST = (process.env.FRONTEND_ORIGINS || "")
    .split(",")
    .map((s) => s.trim())
    .filter(Boolean);
>> *)
Definition ALLOWLIST (env_FRONTEND_ORIGINS : option jsstring) : list jsstring :=
  trim_and_drop_blank (split_unit 44 (default [] env_FRONTEND_ORIGINS)).

(** Lines 22-27: the second argument handed to [cb].  [origin] is the
    [Origin] header of the request, absent on a server-to-server call. *)
Definition origin_allowed (allowlist : list jsstring) (origin : option jsstring) : bool :=
  match origin with
  | None | Some [] => true
  | Some o =>
      if (length allowlist =? 0)%nat then true
      else if includes allowlist o then true
      else false
  end.

End Cors.

(** ** The mail service *)

(** [emailService.js]: [sendEmailHTML] over the three calls it makes to
    nodemailer. *)
Module EmailService.

Record Account : Type := { user : jsstring; pass : jsstring }.

Record Transport : Type := {
  host : jsstring;
  port : Z;
  secure : bool;
  auth : Account;
}.

Record Message : Type := {
  from : jsstring;
  to : jsstring;
  subject : jsstring;
  text : jsstring;
  html : jsstring;
}.

(** [nodemailer]: creating the test account and sending may be rejected
    ([None]); [sendMail] resolves to an info value. *)
Record Nodemailer : Type := {
  createTestAccount : option Account;
  sendMail : Transport → Message → option JsVal;
  getTestMessageUrl : JsVal → JsVal;
}.

(** [/<[^>]+>/g] *)
Definition is_not_gt (c : jschar) : bool := negb (c =? 62)%N.

Definition tag : regex :=
  RSeq (RChar 60) (RSeq (RPlus (RSet is_not_gt)) (RChar 62)).

(** [html.replace(/<[^>]+>/g, empty)] *)
Definition strip_tags (html : jsstring) : jsstring := remove_all tag html.

(** [recipients.join(",")]: only an array has a [join] to call. *)
Definition join_recipients (recipients : JsVal) : option jsstring :=
  match recipients with
  | JArr l => join (lit ",") l
  | _ => None
  end.

Definition sender : jsstring :=
  StrictServer.quoted "'Meeting Summarizer' <no-reply@mock.dev>".

(** The message of lines 20-26; [textFallback || ...] keeps a non-empty
    fallback. *)
Definition message (to_header subject html textFallback : jsstring) : Message :=
  {| from := sender;
     to := to_header;
     subject := subject;
     text := match textFallback with [] => strip_tags html | _ => textFallback end;
     html := html |}.

(** [sendEmailHTML], lines 10-32. *)
Definition sendEmailHTML (n : Nodemailer) (recipients : JsVal)
    (subject html textFallback : jsstring) : Eff JsVal :=
  testAccount ← try_pure (createTestAccount n);
  let transporter :=
    {| host := lit "smtp.ethereal.email"; port := 587; secure := false;
       auth := {| user := user testAccount; pass := pass testAccount |} |} in
  to_header ← try_pure (join_recipients recipients);
  info ← try_pure (sendMail n transporter (message to_header subject html textFallback));
  let previewUrl := getTestMessageUrl n info in
  _ ← try_pure (dot info (lit "messageId"));
  _ ← emit (ConsoleLog ([55357; 56551]%N ++ lit " Mock email sent:"));
  _ ← emit (ConsoleLog ([55357; 56599]%N ++ lit " Preview URL:"));
  mret previewUrl.

(** The collaborators of a backend wired to this service, as the import of
    line 6 of [server.js] does; the handlers pass no [textFallback]. *)
Definition wired (n : Nodemailer) (w : Collaborators) : Collaborators :=
  Build_Collaborators
    (groq_create w)
    (fun recipients subject html => (sendEmailHTML n recipients subject html []).2)
    (JSON_parse w).

End EmailService.

(** ** The page of the front end *)

(** The handlers of [frontend/pages/index.js] around the edit cycle: what
    they post, and what they make of the answer.  [backend] is the server
    behind [API_URL]; the body of an answer travels as JSON, which changes
    none of the fields read here. *)
Module Page.

Import Frontend.

(** Lines 4-8. *)
Definition DEFAULT_SUMMARY : JsVal :=
  Server.summary_record (JArr []) (JArr []) (JArr []).

(** [axios.post]: resolves with [{ data }] on a 2xx answer and rejects on any
    other status, or when the backend does not answer. *)
Definition axios_post (answer : Eff Response) : option JsVal :=
  match answer.2 with
  | Some r =>
      if (200 <=? status r)%Z && (status r <? 300)%Z
      then Some (JObj {[ lit "data" := body r ]})
      else None
  | None => None
  end.

Inductive Outcome (A : Type) : Type :=
| Alert (msg : jsstring)
| Done (a : A).
Arguments Alert {A} msg.
Arguments Done {A} a.

Definition request_body (transcript instruction : jsstring) : JsVal :=
  JObj (<[lit "transcript" := JStr transcript]>
       (<[lit "instruction" := JStr instruction]> ∅)).

(** [generateSummary], lines 29-51: the new [summary] state, or the alert
    shown. *)
Definition generateSummary (backend : JsVal → Eff Response)
    (transcript instruction : jsstring) : Outcome JsVal :=
  if negb (nonempty (trim transcript)) || negb (nonempty (trim instruction)) then
    Alert (lit "Please enter both transcript and instruction")
  else
    match axios_post (backend (request_body transcript instruction)) with
    | Some res =>
        let s := js_or res?."data"?."summary" DEFAULT_SUMMARY in
        Done (Server.summary_record (JArr (safeArr s?."points"))
                                    (JArr (safeArr s?."decisions"))
                                    (JArr (safeArr s?."action_items")))
    | None => Alert (lit "Failed to generate summary")
    end.

(** Lines 54-57: the recipients typed in the input, comma separated. *)
Definition recipientsArr (recipients : jsstring) : list jsstring :=
  trim_and_drop_blank (split_unit 44 recipients).

(** Lines 69-73: an item of the payload, its fields defaulted to the empty
    string. *)
Definition payload_item (a : JsVal) : JsVal :=
  Server.action_item (js_or a?."owner" (JStr [])) (js_or a?."task" (JStr []))
                     (js_or a?."due" (JStr [])).

(** Lines 66-74: the summary of the payload, from the [summary] state;
    reading a field of a state that is [null] or [undefined] throws. *)
Definition payload_summary (summary : JsVal) : option JsVal :=
  points ← dot summary (lit "points");
  decisions ← dot summary (lit "decisions");
  action_items ← dot summary (lit "action_items");
  Some (Server.summary_record
          (JArr (safeArr points))
          (JArr (safeArr decisions))
          (JArr (List.map payload_item (safeArr action_items)))).

Inductive EmailStatus : Type :=
| NotSent
| Success (previewUrl : JsVal)
| Error.

(** [sendSummary], lines 53-86: without a recipient nothing is posted; a 2xx
    answer sets the preview locator and the success flag, anything else
    (an exception while the payload is built included) the error flag. *)
Definition sendSummary (backend : JsVal → Eff Response)
    (summary : JsVal) (recipients : jsstring) : EmailStatus :=
  match recipientsArr recipients with
  | [] => NotSent
  | to =>
      match payload_summary summary with
      | Some payload =>
          match axios_post (backend (send_request payload (Server.str_array to))) with
          | Some res => Success (js_or res?."data"?."previewUrl" (JStr []))
          | None => Error
          end
      | None => Error
      end
  end.

(** Lines 190-192: the text shown for the action items, one line
    [owner | task | due] per item. *)
Definition item_line (it : JsVal) : option jsstring :=
  match to_string (js_or it?."owner" (JStr [])),
        to_string (js_or it?."task" (JStr [])),
        to_string (js_or it?."due" (JStr [])) with
  | Some o, Some t, Some d => Some (o ++ lit " | " ++ t ++ lit " | " ++ d)
  | _, _, _ => None
  end.

Definition items_text (action_items : JsVal) : option jsstring :=
  join_by item_line [10%N] (safeArr action_items).

(** Lines 196-199: a line of the text area back to an item; the parts
    missing after the split on [|] default to the empty string. *)
Definition parse_line (line : jsstring) : JsVal :=
  let parts := List.map trim (split_unit 124 line) in
  Server.action_item (JStr (nth 0 parts [])) (JStr (nth 1 parts []))
                     (JStr (nth 2 parts [])).

(** The [onChange] of the action items text area. *)
Definition edited_items (value : jsstring) : list JsVal :=
  List.map parse_line (split_unit 10 value).

End Page.

(** ** Outcomes of the completion path *)

(** The request the current revision sends for an instruction and a
    transcript already converted to strings. *)
Definition llm_request (instruction transcript : jsstring) : GroqRequest :=
  {| model := lit "llama-3.1-8b-instant";
     messages := [(lit "system", Server.system_prompt);
                  (lit "user", Server.user_prompt instruction transcript)];
     temperature := 0.2%Q |}.

(** The answer of the catch-all of the generate handler, after [events]. *)
Definition generate_failed (events : list Event) : Eff Response :=
  answers (events ++ [ConsoleError (lit "generate-summary error:")]) 500
    (error_body "Failed to generate summary (server error)").

(** What the current revision answers once it has a completion request
    [req]: the service is called once; its failure, and a completion whose
    text cannot be read, end in the catch-all; a text that does not parse is
    reported as invalid JSON; a parsed value is normalized. *)
Definition llm_outcome (w : Collaborators) (req : GroqRequest) : Eff Response :=
  match groq_create w req with
  | None => generate_failed [GroqCreate req]
  | Some completion =>
      match (Server.completion_text completion).2 with
      | None => generate_failed [GroqCreate req]
      | Some text =>
          match JSON_parse w (remove_all Server.code_fence text) with
          | Some parsed =>
              answers [GroqCreate req] 200
                (Server.summary_body (Server.ensureSummaryShape parsed))
          | None =>
              answers [GroqCreate req; ConsoleError (lit "Invalid JSON from Groq:")] 500
                (error_body "Groq returned invalid JSON")
          end
      end
  end.

(** How often a handler called the completion service, the mail
    collaborator. *)
Definition groq_calls {A} (out : Eff A) : nat := length (List.filter is_groq_call out.1).
Definition mail_calls {A} (out : Eff A) : nat := length (List.filter is_mail_call out.1).

(** Strings glued with a separator between them. *)
Fixpoint glue (sep : jsstring) (ps : list jsstring) : jsstring :=
  match ps with
  | [] => []
  | [p] => p
  | p :: rest => p ++ sep ++ glue sep rest
  end.

(** ** The action items text of the page *)

(** An action item whose three fields are strings. *)
Definition string_item (f : jsstring * jsstring * jsstring) : JsVal :=
  Server.action_item (JStr f.1.1) (JStr f.1.2) (JStr f.2).

(** The same item with its fields trimmed. *)
Definition trimmed_item (f : jsstring * jsstring * jsstring) : JsVal :=
  Server.action_item (JStr (trim f.1.1)) (JStr (trim f.1.2)) (JStr (trim f.2)).

(** A field that fits in a column of a line of the text area: no bar and
    no line feed in it. *)
Definition one_cell (s : jsstring) : Prop := (124%N ∉ s) ∧ (10%N ∉ s).

Definition cells (f : jsstring * jsstring * jsstring) : Prop :=
  one_cell f.1.1 ∧ one_cell f.1.2 ∧ one_cell f.2.

(** The line shown for an item. *)
Definition shown_line (f : jsstring * jsstring * jsstring) : jsstring :=
  f.1.1 ++ lit " | " ++ f.1.2 ++ lit " | " ++ f.2.

(** What the page shows after [sendSummary] on a non-empty recipient list,
    given the HTML the server renders and the outcome of the mail
    collaborator. *)
Definition shown_status (w : Collaborators) (to : list jsstring)
    (rendered : option jsstring) : Page.EmailStatus :=
  match rendered with
  | Some html =>
      match sendEmailHTML w (Server.str_array to) (lit "Meeting Summary") html with
      | Some previewUrl => Page.Success (js_or previewUrl (JStr []))
      | None => Page.Error
      end
  | None => Page.Error
  end.

(** ** Marked-up text *)

(** A text with tags in it, piece by piece: a run of text, or a tag
    [<name>]. *)
Inductive piece : Type :=
| Text (s : jsstring)
| Tag (name : jsstring).

Definition piece_source (p : piece) : jsstring :=
  match p with
  | Text s => s
  | Tag name => 60%N :: name ++ [62%N]
  end.

Definition piece_text (p : piece) : jsstring :=
  match p with
  | Text s => s
  | Tag _ => []
  end.

(** A run of text holds no [<]; the name of a tag is not empty and holds
    no [>]. *)
Definition piece_ok (p : piece) : Prop :=
  match p with
  | Text s => 60%N ∉ s
  | Tag name => name ≠ [] ∧ 62%N ∉ name
  end.

Definition markup (ps : list piece) : jsstring := concat (piece_source <$> ps).

Definition text_of (ps : list piece) : jsstring := concat (piece_text <$> ps).

(** The words that switch the mock flag on. *)
Definition mock_words : list jsstring := [lit "true"; lit "1"; lit "yes"].

(** The request the revision with explicit mock mode sends. *)
Definition strict_request (cfg : Config) (instruction transcript : jsstring) : GroqRequest :=
  {| model := StrictServer.model_name cfg;
     messages := [(lit "system", StrictServer.system_prompt);
                  (lit "user", StrictServer.user_prompt instruction transcript)];
     temperature := 0.2%Q |}.

(** * Properties *)

(** ** Reading the fields of the records the handlers build *)

Section Records.
Variables a b c : JsVal.

Lemma summary_record_points : (Server.summary_record a b c)?."points" = a.
Proof. reflexivity. Qed.

Lemma summary_record_decisions : (Server.summary_record a b c)?."decisions" = b.
Proof. reflexivity. Qed.

Lemma summary_record_action_items : (Server.summary_record a b c)?."action_items" = c.
Proof. reflexivity. Qed.

Lemma action_item_owner : (Server.action_item a b c)?."owner" = a.
Proof. reflexivity. Qed.

Lemma action_item_task : (Server.action_item a b c)?."task" = b.
Proof. reflexivity. Qed.

Lemma action_item_due : (Server.action_item a b c)?."due" = c.
Proof. reflexivity. Qed.

Lemma summary_record_dom :
  match Server.summary_record a b c with
  | JObj m => dom m = {[ lit "points"; lit "decisions"; lit "action_items" ]}
  | _ => False
  end.
Proof. unfold Server.summary_record. rewrite !dom_insert_L. set_solver. Qed.

Lemma action_item_is_record : Shape.is_item_record (Server.action_item a b c) = true.
Proof.
  unfold Shape.is_item_record, Server.action_item.
  apply bool_decide_eq_true. rewrite !dom_insert_L. set_solver.
Qed.
End Records.

(** ** The normalizer *)

Section Normalizer.
Import Server Shape.

Lemma js_or_idem (x d : JsVal) : js_or (js_or x d) d = js_or x d.
Proof.
  unfold js_or. destruct (truthy x) eqn:E; [now rewrite E|].
  now destruct (truthy d).
Qed.

Lemma ensure_item_idem (a : JsVal) : ensure_item (ensure_item a) = ensure_item a.
Proof.
  unfold ensure_item at 1.
  unfold ensure_item at 1 2 3.
  rewrite action_item_owner, action_item_task, action_item_due.
  now rewrite !js_or_idem.
Qed.

Lemma ensured_items_are_records (l : list JsVal) :
  forallb is_item_record (List.map ensure_item l) = true.
Proof.
  apply forallb_forall. intros x Hx. apply in_map_iff in Hx as (a & <- & _).
  apply action_item_is_record.
Qed.

Lemma kept_field_safeArr (x : JsVal) :
  (if isArray x then x else JArr []) = JArr (Frontend.safeArr x).
Proof. now destruct x. Qed.

Lemma kept_items_safeArr (x : JsVal) :
  match x with JArr items => JArr (List.map ensure_item items) | _ => JArr [] end
    = JArr (List.map ensure_item (Frontend.safeArr x)).
Proof. now destruct x. Qed.

(** The result of the normalizer, field by field. *)
Lemma ensureSummaryShape_record (v : JsVal) :
  ensureSummaryShape v =
    summary_record (JArr (Frontend.safeArr v?."points"))
                   (JArr (Frontend.safeArr v?."decisions"))
                   (JArr (List.map ensure_item (Frontend.safeArr v?."action_items"))).
Proof.
  unfold ensureSummaryShape. now rewrite !kept_field_safeArr, kept_items_safeArr.
Qed.

Lemma conflicted_ensureSummaryShape_record (v : JsVal) :
  ConflictedServer.ensureSummaryShape v =
    summary_record (JArr (Frontend.safeArr v?."points"))
                   (JArr (Frontend.safeArr v?."decisions"))
                   (JArr (Frontend.safeArr v?."action_items")).
Proof.
  unfold ConflictedServer.ensureSummaryShape. now rewrite !kept_field_safeArr.
Qed.

(** The shape test on a record of three sequences. *)
Lemma summary_shape_record (elt item : JsVal → bool) (p d a : list JsVal) :
  summary_shape elt item (summary_record (JArr p) (JArr d) (JArr a))
    = forallb elt p && forallb elt d && forallb item a.
Proof.
  pose proof (summary_record_dom (JArr p) (JArr d) (JArr a)) as Hdom.
  unfold summary_shape.
  destruct (summary_record (JArr p) (JArr d) (JArr a)) eqn:E; try contradiction.
  rewrite bool_decide_eq_true_2 by exact Hdom. rewrite <- E.
  now rewrite summary_record_points, summary_record_decisions, summary_record_action_items.
Qed.

Lemma strings_of_safeArr (x : JsVal) :
  forallb is_string (Frontend.safeArr x) = strings_if_sequence x.
Proof. now destruct x. Qed.

Lemma forallb_any_value (l : list JsVal) : forallb any_value l = true.
Proof. now induction l. Qed.
End Normalizer.

(** C6.  The normalizer is idempotent: normalizing the result of a
    normalization changes nothing, whatever the input value was. *)
Theorem ensureSummaryShape_idempotent (v : JsVal) :
  Server.ensureSummaryShape (Server.ensureSummaryShape v) = Server.ensureSummaryShape v.
Proof.
  rewrite (ensureSummaryShape_record v).
  rewrite ensureSummaryShape_record.
  rewrite summary_record_points, summary_record_decisions, summary_record_action_items.
  cbn [Frontend.safeArr]. f_equal. f_equal.
  rewrite List.map_map. apply List.map_ext. intros a. apply ensure_item_idem.
Qed.

(** C5 (as amended).  When the [action_items] field of the input is a
    sequence, the normalizer of the current revision maps each element to
    the record of its [owner] or ["Unassigned"], its [task] or the empty
    string and its [due] or the empty string, while the older copy kept in
    the conflicted [server.js] returns the sequence unchanged; when the
    field is not a sequence, both put the empty sequence. *)
Theorem ensureSummaryShape_action_items (v : JsVal) :
  (Server.ensureSummaryShape v)?."action_items" =
    match v?."action_items" with
    | JArr items =>
        JArr (List.map (fun element =>
                JObj (<[lit "owner" := js_or element?."owner" (JStr (lit "Unassigned"))]>
                     (<[lit "task" := js_or element?."task" (JStr [])]>
                     (<[lit "due" := js_or element?."due" (JStr [])]> ∅))))
              items)
    | _ => JArr []
    end
  ∧ (ConflictedServer.ensureSummaryShape v)?."action_items" =
    match v?."action_items" with
    | JArr items => JArr items
    | _ => JArr []
    end.
Proof.
  unfold Server.ensureSummaryShape, ConflictedServer.ensureSummaryShape.
  rewrite !summary_record_action_items.
  destruct (v?."action_items"); split; reflexivity.
Qed.

(** C5 (as stated) fails on the copy kept in the conflicted [server.js]: an
    item without fields stays as it is instead of becoming the record of the
    defaults. *)
Lemma conflicted_copy_keeps_items :
  let v := JObj {[ lit "action_items" := JArr [JObj ∅] ]} in
  (ConflictedServer.ensureSummaryShape v)?."action_items" = JArr [JObj ∅]
  ∧ (ConflictedServer.ensureSummaryShape v)?."action_items"
    ≠ JArr [Server.action_item (JStr (lit "Unassigned")) (JStr []) (JStr [])].
Proof.
  intros v. assert (E : (ConflictedServer.ensureSummaryShape v)?."action_items" = JArr [JObj ∅])
    by reflexivity.
  split; [exact E|]. rewrite E. intros H.
  apply (f_equal (fun x => match x with
                           | JArr [a] => a?."owner"
                           | _ => JUndefined
                           end)) in H.
  vm_compute in H. discriminate.
Qed.

(** C1 (as amended).  The normalizer is total and its result always has the
    three fields [points], [decisions] and [action_items], each a sequence.
    In the current revision every element of [action_items] is an
    [{owner, task, due}] record; the older copy kept in the conflicted
    [server.js] keeps the elements of [action_items] as they are.  The
    elements of [points] and [decisions] are those of the input: they are
    all strings exactly when the input's sequences held only strings. *)
Theorem ensureSummaryShape_shape (v : JsVal) :
  Shape.well_shaped (Server.ensureSummaryShape v) = true
  ∧ Shape.well_formed (Server.ensureSummaryShape v)
    = Shape.strings_if_sequence v?."points" && Shape.strings_if_sequence v?."decisions"
  ∧ Shape.summary_shape Shape.any_value Shape.any_value
      (ConflictedServer.ensureSummaryShape v) = true.
Proof.
  rewrite ensureSummaryShape_record, conflicted_ensureSummaryShape_record.
  unfold Shape.well_shaped, Shape.well_formed.
  rewrite !summary_shape_record, ensured_items_are_records, !strings_of_safeArr.
  rewrite !forallb_any_value. split; [reflexivity|]. split; [apply andb_true_r|reflexivity].
Qed.

(** C1 (as stated) fails: a [points] array holding a number is kept as it
    is, so the result is not a sequence of strings. *)
Lemma ensureSummaryShape_keeps_non_strings :
  Shape.well_formed
    (Server.ensureSummaryShape (JObj {[ lit "points" := JArr [JNum 1] ]})) = false.
Proof. vm_compute. reflexivity. Qed.

(** ** Trimming *)

Section Trim.
Implicit Types s W : jsstring.

Lemma blank_rev s : blank s → blank (rev s).
Proof.
  unfold blank. rewrite !forallb_forall. intros H x Hx. apply H. now apply in_rev.
Qed.

Lemma blank_cons c s : is_space c = true → blank s → blank (c :: s).
Proof. unfold blank. simpl. now intros -> ->. Qed.

Lemma trimStart_blank s : blank s → trimStart s = [].
Proof.
  unfold blank. induction s as [|c s IH]; simpl; [reflexivity|].
  destruct (is_space c); simpl; [exact IH | discriminate].
Qed.

Lemma trimStart_app_blank W s : blank W → trimStart (W ++ s) = trimStart s.
Proof.
  unfold blank. induction W as [|c W IH]; simpl; [reflexivity|].
  destruct (is_space c); simpl; [exact IH | discriminate].
Qed.

Lemma trimStart_app_solid s t : ¬ blank s → trimStart (s ++ t) = trimStart s ++ t.
Proof.
  unfold blank. induction s as [|c s IH]; simpl; [congruence|].
  destruct (is_space c); simpl; [exact IH | reflexivity].
Qed.

Lemma blank_dec s : {blank s} + {¬ blank s}.
Proof. unfold blank. destruct (forallb is_space s); [left|right]; congruence. Qed.

Lemma trim_app_blank_l W s : blank W → trim (W ++ s) = trim s.
Proof. intros H. unfold trim. now rewrite trimStart_app_blank. Qed.

Lemma trim_snoc_space s c : is_space c = true → trim (s ++ [c]) = trim s.
Proof.
  intros Hc. unfold trim. destruct (blank_dec s) as [Hs|Hs].
  - rewrite trimStart_app_blank by exact Hs. rewrite (trimStart_blank s Hs).
    simpl. now rewrite Hc.
  - rewrite trimStart_app_solid by exact Hs.
    unfold trimEnd. rewrite rev_app_distr. simpl. now rewrite Hc.
Qed.

Lemma trim_blank s : blank s → trim s = [].
Proof. intros H. unfold trim. now rewrite trimStart_blank. Qed.

Lemma trimStart_nil_blank s : trimStart s = [] → blank s.
Proof.
  unfold blank. induction s as [|c s IH]; simpl; [reflexivity|].
  destruct (is_space c); simpl; [exact IH | discriminate].
Qed.

Lemma trimStart_head_solid s c t : trimStart s = c :: t → is_space c = false.
Proof.
  induction s as [|x s IH]; simpl; [discriminate|].
  destruct (is_space x) eqn:Ex; [exact IH | congruence].
Qed.

Lemma trim_nil_blank s : trim s = [] → blank s.
Proof.
  unfold trim, trimEnd. intros H.
  assert (H' : trimStart (rev (trimStart s)) = []).
  { destruct (trimStart (rev (trimStart s))); [reflexivity|].
    simpl in H. now apply app_eq_nil in H as [_ ?]. }
  apply trimStart_nil_blank, blank_rev in H'. rewrite rev_involutive in H'.
  destruct (trimStart s) as [|c t] eqn:E; [now apply trimStart_nil_blank|].
  apply trimStart_head_solid in E. unfold blank in H'. simpl in H'.
  rewrite E in H'. discriminate.
Qed.

Lemma trim_and_drop_blank_cons s l :
  trim_and_drop_blank (s :: l) = trim_and_drop_blank [s] ++ trim_and_drop_blank l.
Proof. unfold trim_and_drop_blank. simpl. now destruct (nonempty (trim s)). Qed.

Lemma trim_and_drop_blank_blank s : blank s → trim_and_drop_blank [s] = [].
Proof. intros H. unfold trim_and_drop_blank. simpl. now rewrite trim_blank. Qed.

Lemma trim_and_drop_blank_same s t : trim s = trim t →
  trim_and_drop_blank [s] = trim_and_drop_blank [t].
Proof. intros H. unfold trim_and_drop_blank. simpl. now rewrite H. Qed.
End Trim.

(** ** The fragment separator *)

Section Separator.
Import Server.

Lemma step_if_cons p pos c (t : jsstring) :
  step_if p (pos, c :: t) = if p c then [(S pos, t)] else [].
Proof. reflexivity. Qed.

Lemma step_if_nil p pos : step_if p (pos, []) = [].
Proof. reflexivity. Qed.

Lemma iterate_spaces (t : jsstring) : ∀ fuel pos, length t < fuel →
  ∃ e, pos ≤ e ∧
    head (iterate (step_if is_space) fuel (pos, t)) = Some (e, trimStart t).
Proof.
  induction t as [|c t IH]; intros fuel pos Hf.
  - destruct fuel; [simpl in Hf; lia|]. exists pos. split; [lia|reflexivity].
  - destruct fuel as [|fuel]; [simpl in Hf; lia|].
    simpl in Hf. cbn [iterate trimStart].
    rewrite step_if_cons.
    destruct (is_space c) eqn:Ec.
    + cbn [flat_map]. unfold advanced. cbn [fst].
      replace (S pos =? pos)%nat with false by (symmetry; apply Nat.eqb_neq; lia).
      cbn [negb]. destruct (IH fuel (S pos)) as (e & He & Hh); [lia|].
      exists e. split; [lia|].
      destruct (iterate (step_if is_space) fuel (S pos, t)); [discriminate|].
      exact Hh.
    + exists pos. split; [lia|reflexivity].
Qed.

Lemma is_sentence_end_not_space c : is_sentence_end c = true → is_space c = false.
Proof.
  unfold is_sentence_end. rewrite !orb_true_iff, !N.eqb_eq.
  intros [[->| ->]| ->]; reflexivity.
Qed.

Lemma is_sentence_end_not_newline c : is_sentence_end c = true → (c =? 10)%N = false.
Proof.
  unfold is_sentence_end. rewrite !orb_true_iff, !N.eqb_eq.
  intros [[->| ->]| ->]; reflexivity.
Qed.

Lemma advanced_S q (t t' : jsstring) n : advanced (q, t) (S (n + q), t') = true.
Proof.
  unfold advanced. cbn [fst]. apply negb_true_iff, Nat.eqb_neq. lia.
Qed.

(** First alternative, [\r?\n]. *)
Lemma rmatch_newline (q : nat) (rest : jsstring) :
  rmatch (RSeq (ROpt (RChar 13)) (RChar 10)) (q, rest) =
    match rest with
    | c :: t =>
        if (c =? 10)%N then [(S q, t)]
        else
          match t with
          | w :: t' => if (c =? 13)%N && (w =? 10)%N then [(S (S q), t')] else []
          | [] => []
          end
    | [] => []
    end.
Proof.
  destruct rest as [|c t]; [reflexivity|].
  cbn [rmatch]. rewrite step_if_cons.
  destruct (N.eqb_spec 13 c) as [<-|Hc].
  - cbn [List.filter]. rewrite (advanced_S q _ _ 0).
    cbn [app flat_map]. rewrite !step_if_cons.
    change (10 =? 13)%N with false. change (13 =? 10)%N with false.
    change (13 =? 13)%N with true. cbn [app andb].
    destruct t as [|w t']; [reflexivity|].
    rewrite step_if_cons, N.eqb_sym. now destruct (w =? 10)%N.
  - cbn [List.filter app flat_map]. rewrite step_if_cons, N.eqb_sym.
    destruct (c =? 10)%N; [reflexivity|].
    replace (c =? 13)%N with false by (symmetry; apply N.eqb_neq; congruence).
    now destruct t.
Qed.

(** Second alternative, [[.?!]\s+]. *)
Lemma rmatch_sentence_end (q : nat) (rest : jsstring) :
  match rest with
  | c :: w :: t' =>
      if is_sentence_end c && is_space w then
        ∃ e, q < e ∧
          head (rmatch (RSeq (RSet is_sentence_end) (RPlus (RSet is_space))) (q, rest))
            = Some (e, trimStart t')
      else rmatch (RSeq (RSet is_sentence_end) (RPlus (RSet is_space))) (q, rest) = []
  | _ => rmatch (RSeq (RSet is_sentence_end) (RPlus (RSet is_space))) (q, rest) = []
  end.
Proof.
  destruct rest as [|c [|w t']]; [reflexivity| |].
  - cbn [rmatch]. rewrite step_if_cons. now destruct (is_sentence_end c).
  - cbn [rmatch]. rewrite step_if_cons.
    destruct (is_sentence_end c); [|reflexivity].
    cbn [flat_map andb]. rewrite step_if_cons.
    destruct (is_space w); [|reflexivity].
    cbn [flat_map app snd]. rewrite !app_nil_r.
    change (λ st : cursor, step_if is_space st) with (step_if is_space).
    destruct (iterate_spaces t' (S (length (w :: t'))) (S (S q))) as (e & He & Hh);
      [simpl; lia|].
    exists e. split; [lia|exact Hh].
Qed.

(** [exec] of the separator at a cursor finds what [separator_at]
    describes, and a match always consumes something. *)
Lemma exec_separator (q : nat) (rest : jsstring) :
  match separator_at rest with
  | Some rest' => ∃ e, q < e ∧ regex_exec fragment_separator (q, rest) = Some (e, rest')
  | None => regex_exec fragment_separator (q, rest) = None
  end.
Proof.
  unfold regex_exec, fragment_separator.
  change (rmatch (RAlt ?a ?b) ?st) with (rmatch a st ++ rmatch b st).
  rewrite rmatch_newline.
  pose proof (rmatch_sentence_end q rest) as H2.
  destruct rest as [|c t]; [cbn [separator_at app]; now rewrite H2|].
  cbn [separator_at].
  destruct (c =? 10)%N eqn:Ec.
  - exists (S q). split; [lia|reflexivity].
  - destruct t as [|w t']; [cbn [app]; now rewrite H2|].
    destruct ((c =? 13)%N && (w =? 10)%N) eqn:Ecr.
    + exists (S (S q)). split; [lia|reflexivity].
    + cbn [app]. destruct (is_sentence_end c && is_space w).
      * destruct H2 as (e & He & Hh). exists e. split; [lia|exact Hh].
      * now rewrite H2.
Qed.
End Separator.

(** ** The mock summarizer against its specification *)

Section MockRefinement.
Import Server MockSpec.

Lemma sentence_punctuation_agree c : is_sentence_punctuation c = is_sentence_end c.
Proof.
  unfold is_sentence_punctuation, is_sentence_end.
  destruct (N.eqb_spec c 46) as [->|H1]; [reflexivity|].
  destruct (N.eqb_spec c 63) as [->|H2]; [reflexivity|].
  destruct (N.eqb_spec c 33) as [->|H3]; [reflexivity|].
  apply bool_decide_eq_false. change (lit ".?!") with [46; 63; 33]%N.
  rewrite !elem_of_cons, elem_of_nil. tauto.
Qed.

Lemma fragments_from_cons cur c t :
  fragments_from cur (c :: t) =
    if is_newline c then rev cur :: fragments_from [] t
    else if is_sentence_end c && match t with w :: _ => is_space w | [] => false end
         then rev cur :: fragments_from [] (tl t)
         else fragments_from (c :: cur) t.
Proof.
  cbn [fragments_from]. rewrite sentence_punctuation_agree.
  destruct (is_newline c); [reflexivity|].
  destruct t as [|w t']; [now rewrite andb_false_r|reflexivity].
Qed.

(** Reading white space only produces blank fragments. *)
Lemma fragments_skip_spaces (t : jsstring) : ∀ W, blank W →
  ∃ W', blank W' ∧
    trim_and_drop_blank (fragments_from W t)
      = trim_and_drop_blank (fragments_from W' (trimStart t)).
Proof.
  induction t as [|c t IH]; intros W HW; [now exists W|].
  cbn [trimStart]. destruct (is_space c) eqn:Ec; [|now exists W].
  rewrite fragments_from_cons.
  destruct (is_newline c).
  - destruct (IH [] eq_refl) as (W' & HW' & E). exists W'. split; [exact HW'|].
    rewrite trim_and_drop_blank_cons, trim_and_drop_blank_blank by now apply blank_rev.
    exact E.
  - destruct (is_sentence_end c) eqn:Ep.
    + apply is_sentence_end_not_space in Ep. congruence.
    + cbn [andb]. apply IH. now apply blank_cons.
Qed.

Lemma trim_rev_blank_tail (cur W : jsstring) : blank W →
  trim (rev (cur ++ W)) = trim (rev cur).
Proof.
  intros HW. rewrite rev_app_distr. apply trim_app_blank_l. now apply blank_rev.
Qed.

(** The scan of [split] and the scan of the specification agree once the
    fragments are trimmed and the blank ones dropped; the specification may
    be ahead by some white space [W] at the start of its fragment. *)
Lemma split_go_refines (n : nat) : ∀ rest, length rest ≤ n →
  ∀ fuel p q cur W, p ≤ q → length rest < fuel → blank W →
    trim_and_drop_blank (split_regex_go fragment_separator fuel p q cur rest)
      = trim_and_drop_blank (fragments_from (cur ++ W) rest).
Proof.
  induction n as [|n IH]; intros rest Hn fuel p q cur W Hpq Hf HW.
  - destruct rest; [|simpl in Hn; lia].
    destruct fuel; [simpl in Hf; lia|]. cbn [split_regex_go fragments_from].
    apply trim_and_drop_blank_same. symmetry. now apply trim_rev_blank_tail.
  - destruct fuel as [|fuel]; [lia|].
    destruct rest as [|c t].
    { cbn [split_regex_go fragments_from].
      apply trim_and_drop_blank_same. symmetry. now apply trim_rev_blank_tail. }
    cbn [length] in Hn, Hf.
    cbn [split_regex_go]. rewrite fragments_from_cons.
    pose proof (exec_separator q (c :: t)) as Hx. cbn [separator_at] in Hx.
    unfold is_newline.
    destruct (c =? 10)%N eqn:Ec10.
    + destruct Hx as (e & He & ->).
      replace (e =? p)%nat with false by (symmetry; apply Nat.eqb_neq; lia).
      rewrite trim_and_drop_blank_cons, (trim_and_drop_blank_cons (rev (cur ++ W))).
      f_equal.
      * apply trim_and_drop_blank_same. symmetry. now apply trim_rev_blank_tail.
      * apply (IH t ltac:(lia) fuel e e [] []); [lia|lia|reflexivity].
    + destruct t as [|w t'].
      { rewrite Hx, andb_false_r.
        apply (IH [] ltac:(simpl; lia) fuel p (S q) (c :: cur) W); [lia|simpl; lia|exact HW]. }
      cbn [length] in Hn, Hf. cbn [tl].
      destruct ((c =? 13)%N && (w =? 10)%N) eqn:Ecr.
      * apply andb_true_iff in Ecr as [Ec Ew].
        apply N.eqb_eq in Ec, Ew. subst c w.
        destruct Hx as (e & He & ->).
        replace (e =? p)%nat with false by (symmetry; apply Nat.eqb_neq; lia).
        change (is_sentence_end 13) with false. cbn [andb].
        rewrite fragments_from_cons. change (is_newline 10) with true. cbv iota.
        rewrite trim_and_drop_blank_cons,
          (trim_and_drop_blank_cons (rev ((13%N :: cur) ++ W))).
        f_equal.
        -- apply trim_and_drop_blank_same. symmetry.
           rewrite trim_rev_blank_tail by exact HW.
           cbn [rev]. now apply trim_snoc_space.
        -- apply (IH t' ltac:(lia) fuel e e [] []); [lia|lia|reflexivity].
      * destruct (is_sentence_end c && is_space w) eqn:Esep.
        -- destruct Hx as (e & He & ->).
           replace (e =? p)%nat with false by (symmetry; apply Nat.eqb_neq; lia).
           rewrite trim_and_drop_blank_cons, (trim_and_drop_blank_cons (rev (cur ++ W))).
           f_equal.
           ++ apply trim_and_drop_blank_same. symmetry. now apply trim_rev_blank_tail.
           ++ destruct (fragments_skip_spaces t' [] eq_refl) as (W' & HW' & ->).
              assert (Hlen : length (trimStart t') ≤ length t').
              { clear. induction t' as [|x t' IHt]; simpl; [lia|].
                destruct (is_space x); simpl; lia. }
              apply (IH (trimStart t') ltac:(lia) fuel e e [] W'); [lia|lia|exact HW'].
        -- rewrite Hx.
           apply (IH (w :: t') ltac:(simpl; lia) fuel p (S q) (c :: cur) W);
             [lia|simpl; lia|exact HW].
Qed.

(** The lines of the mock path are the trimmed, non-blank fragments of the
    specification. *)
Lemma mock_lines_refines (transcript : jsstring) :
  mock_lines transcript = trim_and_drop_blank (fragments transcript).
Proof.
  unfold mock_lines, fragments, split_regex.
  destruct transcript as [|c t]; [reflexivity|].
  apply (split_go_refines (length (c :: t)) (c :: t) (le_n _) _ 0 0 [] []);
    [lia|simpl; lia|reflexivity].
Qed.
End MockRefinement.

(** C4.  For every transcript the mock summarizer's points are obtained by
    splitting the transcript on newline boundaries or on sentence-ending
    punctuation followed by white space, trimming each fragment, discarding
    the empty ones and taking the first [N] of them, for a fixed [N] between
    4 and 8: here 6, in the current revision and in the copy kept in the
    conflicted [server.js] alike. *)
Theorem mock_points_refines_spec :
  ∃ N, 4 ≤ N ≤ 8 ∧ ∀ transcript,
    Server.mock_points transcript = MockSpec.points N transcript
    ∧ ConflictedServer.mock_points transcript = MockSpec.points N transcript.
Proof.
  exists 6. split; [lia|]. intros transcript.
  unfold Server.mock_points, ConflictedServer.mock_points, MockSpec.points.
  change (ConflictedServer.mock_lines transcript) with (Server.mock_lines transcript).
  now rewrite mock_lines_refines.
Qed.

(** ** Computations *)

Section Effects.
Context {A B : Type}.
Implicit Types (m : Eff A) (f : A → Eff B).

Lemma bind_pure_some (a : A) f : (try_pure (Some a) ≫= f) = f a.
Proof. unfold mbind, Eff_bind, try_pure. cbn. now destruct (f a). Qed.

Lemma bind_pure_none f : (try_pure None ≫= f) = ([], None).
Proof. reflexivity. Qed.

Lemma bind_mret (a : A) f : (mret a ≫= f) = f a.
Proof. unfold mbind, Eff_bind, mret, Eff_ret. cbn. now destruct (f a). Qed.

Lemma bind_trace m f :
  (m ≫= f).1 = m.1 ++ match m.2 with Some a => (f a).1 | None => [] end.
Proof.
  unfold mbind, Eff_bind. destruct m as [tr [a|]]; cbn; [reflexivity|].
  now rewrite app_nil_r.
Qed.

Lemma try_catch_trace (m h : Eff A) :
  (try_catch m h).1 = m.1 ++ match m.2 with Some _ => [] | None => h.1 end.
Proof.
  unfold try_catch. destruct m as [tr [a|]]; cbn; [|reflexivity].
  now rewrite app_nil_r.
Qed.

Lemma try_catch_returns (m h : Eff A) tr a : m = (tr, Some a) → try_catch m h = (tr, Some a).
Proof. now intros ->. Qed.
End Effects.

Lemma bind_emit {B} (e : Event) (f : unit → Eff B) :
  (emit e ≫= f) = (e :: (f tt).1, (f tt).2).
Proof. reflexivity. Qed.

(** ** Validation of a generate-summary request *)

Section Validation.
(** Destructuring [req.body || {}] reads the fields of the body itself. *)
Lemma body_or_empty_transcript (b : JsVal) :
  (js_or b (JObj ∅))?."transcript" = b?."transcript".
Proof.
  unfold js_or. destruct b as [| |[]|n|[]| |]; try reflexivity.
  simpl. now destruct (n =? 0)%Z.
Qed.

Lemma body_or_empty_instruction (b : JsVal) :
  (js_or b (JObj ∅))?."instruction" = b?."instruction".
Proof.
  unfold js_or. destruct b as [| |[]|n|[]| |]; try reflexivity.
  simpl. now destruct (n =? 0)%Z.
Qed.

Lemma missing_or_empty_falsy (v : JsVal) : missing_or_empty v → truthy v = false.
Proof. now intros [->| ->]. Qed.
End Validation.

(** C3.  A generate-summary request whose transcript or instruction is
    missing or the empty string is answered with status 400 and the message
    "Transcript and instruction are required"; nothing else happens: neither
    the mock path nor the completion service runs. *)
Theorem generate_summary_requires_fields
    (cfg : Config) (w : Collaborators) (req_body : JsVal) :
  missing_or_empty req_body?."transcript" ∨ missing_or_empty req_body?."instruction" →
  Server.generate_summary cfg w req_body
    = answers [] 400 (error_body "Transcript and instruction are required").
Proof.
  intros H. unfold Server.generate_summary.
  cbv zeta. rewrite body_or_empty_transcript, body_or_empty_instruction.
  assert (Hv : negb (truthy req_body?."transcript") || negb (truthy req_body?."instruction")
               = true).
  { destruct H as [H|H]; apply missing_or_empty_falsy in H; rewrite H;
      [reflexivity | apply orb_true_r]. }
  rewrite Hv. reflexivity.
Qed.

Lemma generate_summary_requires_fields_witness :
  missing_or_empty (generate_request EmptyString "x")?."transcript"
  ∧ Server.generate_summary (Server.config bare_env) working_mail
        (generate_request EmptyString "x")
      = answers [] 400 (error_body "Transcript and instruction are required").
Proof.
  assert (H : missing_or_empty (generate_request EmptyString "x")?."transcript")
    by (right; reflexivity).
  split; [exact H|].
  apply generate_summary_requires_fields. left. exact H.
Defined.

(** ** Sending a summary *)

Section Send.
Import Server.

Lemma length_of_array (l : list JsVal) :
  dot (JArr l) (lit "length") = Some (JNum (Z.of_nat (length l))).
Proof. reflexivity. Qed.

Lemma bind_silent {A B} (m : Eff A) (f : A → Eff B) :
  m.1 = [] → (∀ a, (f a).1 = []) → (m ≫= f).1 = [].
Proof.
  intros Hm Hf. rewrite bind_trace, Hm. destruct m.2; [apply Hf|reflexivity].
Qed.

Lemma map_eff_silent {A B} (f : A → Eff B) (l : list A) :
  (∀ x, (f x).1 = []) → (map_eff f l).1 = [].
Proof.
  intros Hf. induction l as [|x l IH]; [reflexivity|].
  cbn [map_eff]. apply bind_silent; [apply Hf|]. intros y.
  apply bind_silent; [exact IH|]. reflexivity.
Qed.

Ltac silent :=
  repeat first
    [ reflexivity
    | apply bind_silent; [|intros ?]
    | apply map_eff_silent; intros ? ].

Lemma render_point_silent p : (render_point p).1 = [].
Proof. unfold render_point. silent. Qed.

Lemma render_action_silent a : (render_action a).1 = [].
Proof. unfold render_action. silent. Qed.

Lemma array_elems_silent v : (array_elems v).1 = [].
Proof. now destruct v. Qed.

Lemma render_list_silent f arr : (∀ x, (f x).1 = []) → (render_list f arr).1 = [].
Proof.
  intros Hf. unfold render_list.
  apply bind_silent; [apply array_elems_silent|]. intros items.
  apply bind_silent; [now apply map_eff_silent|]. reflexivity.
Qed.

Lemma render_section_silent title f arr :
  (∀ x, (f x).1 = []) → (render_section title f arr).1 = [].
Proof.
  intros Hf. unfold render_section. apply bind_silent; [reflexivity|]. intros len.
  destruct (truthy len); [|reflexivity].
  apply bind_silent; [now apply render_list_silent|]. reflexivity.
Qed.

(** Rendering talks to nobody. *)
Lemma render_html_silent summary : (render_html summary).1 = [].
Proof.
  unfold render_html.
  apply bind_silent; [reflexivity|]. intros points.
  apply bind_silent; [apply render_list_silent, render_point_silent|]. intros bullets.
  apply bind_silent; [reflexivity|]. intros decisions.
  apply bind_silent; [apply render_section_silent, render_point_silent|]. intros dh.
  apply bind_silent; [reflexivity|]. intros items.
  apply bind_silent; [apply render_section_silent, render_action_silent|]. intros ah.
  reflexivity.
Qed.

(** What the handler does once the recipients are a non-empty sequence. *)
Lemma send_summary_with_recipients (w : Collaborators) (req_body r : JsVal)
    (rs : list JsVal) :
  req_body?."recipients" = JArr (r :: rs) →
  send_summary w req_body =
    match (render_html (ensureSummaryShape (js_or req_body?."summary" (JObj ∅)))).2 with
    | Some html =>
        match sendEmailHTML w (JArr (r :: rs)) (lit "Meeting Summary") html with
        | Some previewUrl =>
            answers [SendEmail (JArr (r :: rs)) (lit "Meeting Summary") html]
              200 (sent_body previewUrl)
        | None =>
            answers [SendEmail (JArr (r :: rs)) (lit "Meeting Summary") html;
                     ConsoleError (lit "send-summary error:")]
              500 (error_body "Failed to send summary")
        end
    | None =>
        answers [ConsoleError (lit "send-summary error:")]
          500 (error_body "Failed to send summary")
    end.
Proof.
  intros Hr. unfold send_summary. cbv zeta. rewrite Hr.
  change (js_or (JArr (r :: rs)) (JArr [])) with (JArr (r :: rs)).
  rewrite length_of_array, bind_pure_some.
  replace (truthy (JNum (Z.of_nat (length (r :: rs))))) with true
    by (cbn [truthy length]; symmetry; apply negb_true_iff, Z.eqb_neq; lia).
  cbn [negb].
  pose proof (render_html_silent
                (ensureSummaryShape (js_or req_body?."summary" (JObj ∅)))) as Hs.
  destruct (render_html _) as [tr [html|]]; cbn [fst snd] in *; subst tr.
  - change (([], Some html) : Eff jsstring) with (try_pure (Some html)).
    rewrite bind_pure_some, bind_emit.
    destruct (sendEmailHTML w (JArr (r :: rs)) (lit "Meeting Summary") html) as [url|];
      reflexivity.
  - reflexivity.
Qed.
End Send.

(** C7.  A send-summary request whose recipients sequence is empty is
    answered with status 400 and the mail collaborator is not invoked. *)
Theorem send_summary_requires_recipients (w : Collaborators) (req_body : JsVal) :
  req_body?."recipients" = JArr [] →
  Server.send_summary w req_body = answers [] 400 (error_body "Recipients array is required")
  ∧ invokes_mail (Server.send_summary w req_body) = false.
Proof.
  intros Hr.
  assert (E : Server.send_summary w req_body
              = answers [] 400 (error_body "Recipients array is required")).
  { unfold Server.send_summary. cbv zeta. rewrite Hr. reflexivity. }
  rewrite E. split; reflexivity.
Qed.

Lemma send_summary_requires_recipients_witness :
  let req_body := send_request (JObj {[ lit "points" := JArr [JStr (lit "A")] ]}) (JArr []) in
  req_body?."recipients" = JArr []
  ∧ Server.send_summary working_mail req_body
      = answers [] 400 (error_body "Recipients array is required").
Proof.
  intros req_body.
  assert (H : req_body?."recipients" = JArr []) by reflexivity.
  split; [exact H|].
  exact (proj1 (send_summary_requires_recipients working_mail req_body H)).
Defined.

(** ** Rendering succeeds on printable summaries *)

Section Rendering.
Import Server.

Lemma bind_returns {A B} (m : Eff A) (f : A → Eff B) a :
  m.2 = Some a → (m ≫= f).2 = (f a).2.
Proof. intros H. unfold mbind, Eff_bind. now rewrite H. Qed.

Lemma map_eff_returns {A B} (f : A → Eff B) (l : list A) :
  Forall (fun x => is_Some (f x).2) l → is_Some (map_eff f l).2.
Proof.
  induction 1 as [|x l [y Hy] _ [ys Hys]]; [now exists []|].
  exists (y :: ys). cbn [map_eff].
  rewrite (bind_returns _ _ y Hy), (bind_returns _ _ ys Hys). reflexivity.
Qed.

Lemma render_list_returns f (l : list JsVal) :
  Forall (fun x => is_Some (f x).2) l → is_Some (render_list f (JArr l)).2.
Proof.
  intros H. apply map_eff_returns in H as [parts Hp].
  exists (concat parts). unfold render_list. cbn [array_elems].
  rewrite bind_mret, (bind_returns _ _ parts Hp). reflexivity.
Qed.

Lemma render_section_returns title f (l : list JsVal) :
  Forall (fun x => is_Some (f x).2) l → is_Some (render_section title f (JArr l)).2.
Proof.
  intros H. unfold render_section. rewrite length_of_array, bind_pure_some.
  destruct (truthy _); [|now exists []].
  apply render_list_returns in H as [inner Hi].
  rewrite (bind_returns _ _ inner Hi). now eexists.
Qed.

Lemma render_point_returns p : printable p → is_Some (render_point p).2.
Proof.
  intros [s Hs]. exists (li s). unfold render_point. now rewrite Hs, bind_pure_some.
Qed.

Lemma printable_js_or (x d : JsVal) : printable x → printable d → printable (js_or x d).
Proof. unfold js_or. now destruct (truthy x). Qed.

Lemma printable_string s : printable (JStr s).
Proof. now exists s. Qed.

Lemma render_action_returns a :
  printable a?."owner" → printable a?."task" → printable a?."due" →
  is_Some (render_action (ensure_item a)).2.
Proof.
  intros Ho Ht Hd. unfold render_action, ensure_item.
  assert (Hdot : ∀ o t d k, dot (action_item o t d) k = Some (opt_get (action_item o t d) k))
    by reflexivity.
  rewrite !Hdot, action_item_owner, action_item_task, action_item_due.
  cbn [mbind option_bind].
  destruct (printable_js_or _ (JStr (lit "Unassigned")) Ho (printable_string _)) as [o ->].
  destruct (printable_js_or _ (JStr []) Ht (printable_string _)) as [t ->].
  destruct (printable_js_or _ (JStr []) Hd (printable_string _)) as [d ->].
  rewrite !bind_pure_some. now eexists.
Qed.

Lemma render_html_returns (raw : JsVal) :
  renderable raw → is_Some (render_html (ensureSummaryShape raw)).2.
Proof.
  intros (Hp & Hd & Ha). rewrite ensureSummaryShape_record.
  unfold render_html.
  assert (Hdot : ∀ p d a k, dot (summary_record p d a) k
                            = Some (opt_get (summary_record p d a) k)) by reflexivity.
  rewrite !Hdot, summary_record_points, summary_record_decisions,
    summary_record_action_items, !bind_pure_some.
  destruct (render_list_returns render_point (Frontend.safeArr raw?."points"))
    as [bullets Hb].
  { eapply Forall_impl; [exact Hp|]. intros x. apply render_point_returns. }
  rewrite (bind_returns _ _ bullets Hb), bind_pure_some.
  destruct (render_section_returns "Decisions" render_point
              (Frontend.safeArr raw?."decisions")) as [dh Hdh].
  { eapply Forall_impl; [exact Hd|]. intros x. apply render_point_returns. }
  rewrite (bind_returns _ _ dh Hdh), bind_pure_some.
  destruct (render_section_returns "Action Items" render_action
              (List.map ensure_item (Frontend.safeArr raw?."action_items")))
    as [ah Hah].
  { apply Forall_map. eapply Forall_impl; [exact Ha|].
    intros a (Ho & Ht & Hdu). now apply render_action_returns. }
  rewrite (bind_returns _ _ ah Hah). now eexists.
Qed.

Lemma no_sequence_field_normalized (raw : JsVal) :
  no_sequence_field raw →
  ensureSummaryShape raw = summary_record (JArr []) (JArr []) (JArr []).
Proof.
  intros (Hp & Hd & Ha). unfold ensureSummaryShape. rewrite Hp, Hd.
  now destruct (raw?."action_items").
Qed.

Lemma not_an_object_no_sequence_field (v : JsVal) :
  not_an_object v → no_sequence_field (js_or v (JObj ∅)).
Proof.
  unfold js_or.
  destruct v as [| |[]|n|[]| |]; try contradiction; intros _; try (repeat split; reflexivity).
  cbn [truthy]. destruct (n =? 0)%Z; repeat split; reflexivity.
Qed.

Lemma render_empty :
  render_html (summary_record (JArr []) (JArr []) (JArr [])) = ([], Some empty_html).
Proof. reflexivity. Qed.

(** The same facts for the send handler kept in the conflicted copy. *)
Lemma conflicted_render_html_silent summary :
  (ConflictedServer.render_html summary).1 = [].
Proof.
  unfold ConflictedServer.render_html.
  apply bind_silent; [reflexivity|]. intros points.
  apply bind_silent; [apply render_list_silent, render_point_silent|]. intros bullets.
  apply bind_silent; [reflexivity|]. intros decisions.
  apply bind_silent; [apply render_section_silent, render_point_silent|]. intros dh.
  apply bind_silent; [reflexivity|]. intros items.
  apply bind_silent; [|reflexivity].
  apply render_section_silent. intros a. unfold ConflictedServer.render_action.
  repeat (apply bind_silent; [reflexivity|intros ?]). reflexivity.
Qed.

Lemma conflicted_send_summary_with_recipients (w : Collaborators) (req_body r : JsVal)
    (rs : list JsVal) :
  req_body?."recipients" = JArr (r :: rs) →
  ConflictedServer.send_summary w req_body =
    match (ConflictedServer.render_html
             (ConflictedServer.ensureSummaryShape (js_or req_body?."summary" (JObj ∅)))).2
    with
    | Some html => mail_outcome ConflictedServer.sent_body w (JArr (r :: rs)) html
    | None =>
        answers [ConsoleError (lit "send-summary error:")]
          500 (error_body "Failed to send summary")
    end.
Proof.
  intros Hr. unfold ConflictedServer.send_summary. cbv zeta. rewrite Hr.
  change (js_or (JArr (r :: rs)) (JArr [])) with (JArr (r :: rs)).
  rewrite length_of_array, bind_pure_some.
  replace (truthy (JNum (Z.of_nat (length (r :: rs))))) with true
    by (cbn [truthy length]; symmetry; apply negb_true_iff, Z.eqb_neq; lia).
  cbn [negb].
  pose proof (conflicted_render_html_silent
                (ConflictedServer.ensureSummaryShape (js_or req_body?."summary" (JObj ∅))))
    as Hs.
  destruct (ConflictedServer.render_html _) as [tr [html|]]; cbn [fst snd] in *; subst tr.
  - change (([], Some html) : Eff jsstring) with (try_pure (Some html)).
    rewrite bind_pure_some, bind_emit. unfold mail_outcome.
    destruct (sendEmailHTML w (JArr (r :: rs)) (lit "Meeting Summary") html) as [url|];
      reflexivity.
  - reflexivity.
Qed.

Lemma conflicted_no_sequence_field_normalized (raw : JsVal) :
  no_sequence_field raw →
  ConflictedServer.ensureSummaryShape raw = summary_record (JArr []) (JArr []) (JArr []).
Proof.
  intros (Hp & Hd & Ha). unfold ConflictedServer.ensureSummaryShape.
  now rewrite Hp, Hd, Ha.
Qed.

Lemma conflicted_render_empty :
  ConflictedServer.render_html (summary_record (JArr []) (JArr []) (JArr []))
    = ([], Some empty_html).
Proof. reflexivity. Qed.
End Rendering.

(** C10 (as amended).  With a non-empty recipients sequence the send handler
    never answers 400, whatever the summary field holds.  A summary that is
    absent, [null], not an object, or none of whose fields is a sequence is
    normalized to the empty Summary, rendered and handed to the mail
    collaborator; so is every summary whose rendered parts convert to
    strings, from its normalized form.  The answer is 200 with the preview
    locator when the collaborator succeeds and 500 when it fails.  When
    rendering throws, the answer is 500 and the collaborator is not called.
    The handler kept in the conflicted [server.js] never answers 400 either
    and sends the empty Summary in the same cases. *)
Theorem send_summary_never_rejects_summary
    (w : Collaborators) (req_body r : JsVal) (rs : list JsVal) :
  req_body?."recipients" = JArr (r :: rs) →
  let raw := js_or req_body?."summary" (JObj ∅) in
  let recipients := JArr (r :: rs) in
  (∃ resp, (Server.send_summary w req_body).2 = Some resp ∧ status resp ≠ 400%Z)
  ∧ (not_an_object req_body?."summary" ∨ no_sequence_field raw →
     Server.send_summary w req_body
       = mail_outcome Server.sent_body w recipients empty_html)
  ∧ (renderable raw →
     ∃ html, (Server.render_html (Server.ensureSummaryShape raw)).2 = Some html
             ∧ Server.send_summary w req_body
                 = mail_outcome Server.sent_body w recipients html)
  ∧ ((Server.render_html (Server.ensureSummaryShape raw)).2 = None →
     Server.send_summary w req_body
       = answers [ConsoleError (lit "send-summary error:")] 500
           (error_body "Failed to send summary"))
  ∧ (∃ resp, (ConflictedServer.send_summary w req_body).2 = Some resp
             ∧ status resp ≠ 400%Z)
  ∧ (not_an_object req_body?."summary" ∨ no_sequence_field raw →
     ConflictedServer.send_summary w req_body
       = mail_outcome ConflictedServer.sent_body w recipients empty_html).
Proof.
  intros Hr raw recipients.
  pose proof (send_summary_with_recipients w req_body r rs Hr) as E.
  pose proof (conflicted_send_summary_with_recipients w req_body r rs Hr) as E'.
  fold raw recipients in E, E'. fold (mail_outcome Server.sent_body w recipients) in E.
  assert (Hnone : not_an_object req_body?."summary" ∨ no_sequence_field raw →
                  no_sequence_field raw).
  { intros [H|H]; [now apply not_an_object_no_sequence_field | exact H]. }
  split; [|split; [|split; [|split; [|split]]]].
  - rewrite E.
    destruct (Server.render_html (Server.ensureSummaryShape raw)).2 as [html|].
    + unfold mail_outcome.
      destruct (sendEmailHTML w recipients (lit "Meeting Summary") html);
        eexists; (split; [reflexivity|discriminate]).
    + eexists; (split; [reflexivity|discriminate]).
  - intros H. apply Hnone in H.
    rewrite E, (no_sequence_field_normalized raw H), render_empty. reflexivity.
  - intros H. destruct (render_html_returns raw H) as [html Hh].
    exists html. split; [exact Hh|]. rewrite E, Hh. reflexivity.
  - intros Hn. rewrite E, Hn. reflexivity.
  - rewrite E'.
    destruct (ConflictedServer.render_html (ConflictedServer.ensureSummaryShape raw)).2
      as [html|].
    + unfold mail_outcome.
      destruct (sendEmailHTML w recipients (lit "Meeting Summary") html);
        eexists; (split; [reflexivity|discriminate]).
    + eexists; (split; [reflexivity|discriminate]).
  - intros H. apply Hnone in H.
    rewrite E', (conflicted_no_sequence_field_normalized raw H), conflicted_render_empty.
    reflexivity.
Qed.

Lemma send_summary_never_rejects_summary_witness :
  let req_body := send_request JNull (JArr [JStr (lit "a@example.com")]) in
  req_body?."recipients" = JArr [JStr (lit "a@example.com")]
  ∧ Server.send_summary working_mail req_body
      = answers [SendEmail (JArr [JStr (lit "a@example.com")]) (lit "Meeting Summary")
                   empty_html]
          200 (Server.sent_body (JStr (lit "https://ethereal.email/message/1"))).
Proof.
  intros req_body.
  assert (H : req_body?."recipients" = JArr [JStr (lit "a@example.com")]) by reflexivity.
  split; [exact H|].
  exact (proj1 (proj2 (send_summary_never_rejects_summary working_mail req_body _ _ H))
           (or_introl I)).
Defined.

(** C10 (as stated) fails: a point that is an object carrying its own
    [toString] field cannot be rendered; with valid recipients and a working
    mail collaborator the handler answers 500 and sends nothing. *)
Lemma send_summary_unprintable_point :
  Server.send_summary working_mail
    (send_request (JObj {[ lit "points" := JArr [JObj {[ lit "toString" := JNum 1 ]}] ]})
                  (JArr [JStr (lit "a@example.com")]))
  = answers [ConsoleError (lit "send-summary error:")] 500
      (error_body "Failed to send summary").
Proof. vm_compute. reflexivity. Qed.

(** ** Choosing between the mock path and the completion service *)

Section Selection.
Variables (cfg : Config) (w : Collaborators) (req_body : JsVal).
Variables (transcript instruction : jsstring).
Hypothesis Hvalid : valid_request req_body transcript instruction.

Lemma valid_passes_validation :
  negb (truthy (js_or req_body (JObj ∅))?."transcript")
  || negb (truthy (js_or req_body (JObj ∅))?."instruction") = false.
Proof.
  destruct Hvalid as (Ht & Hi & Hnt & Hni).
  rewrite body_or_empty_transcript, body_or_empty_instruction, Ht, Hi.
  destruct transcript, instruction; try congruence. reflexivity.
Qed.

(** The mock path of the current revision. *)
Lemma generate_summary_mock :
  USE_MOCK cfg || negb (groq cfg) = true →
  Server.generate_summary cfg w req_body
    = answers [] 200 (Server.summary_body (Server.mock_summary transcript)).
Proof.
  intros Hm. unfold Server.generate_summary. cbv zeta.
  rewrite valid_passes_validation, Hm.
  destruct Hvalid as (Ht & _). rewrite body_or_empty_transcript, Ht.
  reflexivity.
Qed.

(** The completion service is called exactly on the other branch. *)
Lemma generate_summary_llm :
  invokes_llm (Server.generate_summary cfg w req_body) = negb (USE_MOCK cfg) && groq cfg.
Proof.
  destruct (USE_MOCK cfg || negb (groq cfg)) eqn:Hm.
  - rewrite generate_summary_mock by exact Hm.
    destruct (USE_MOCK cfg), (groq cfg); try discriminate; reflexivity.
  - unfold invokes_llm, Server.generate_summary. cbv zeta.
    rewrite valid_passes_validation, Hm.
    destruct Hvalid as (Ht & Hi & _).
    rewrite body_or_empty_transcript, body_or_empty_instruction, Ht, Hi.
    cbn [to_string]. rewrite !bind_pure_some, try_catch_trace, bind_emit.
    destruct (USE_MOCK cfg), (groq cfg); try discriminate; reflexivity.
Qed.

(** The revision with explicit mock mode. *)
Lemma strict_generate_summary_mock :
  USE_MOCK cfg = true →
  StrictServer.generate_summary cfg w req_body
    = answers [ConsoleLog (lit "[generate-summary] MODE=mock")] 200
        (Server.summary_body (StrictServer.mock_summary transcript)).
Proof.
  intros Hm. unfold StrictServer.generate_summary. cbv zeta.
  rewrite valid_passes_validation, Hm.
  destruct Hvalid as (Ht & _). rewrite body_or_empty_transcript, Ht.
  reflexivity.
Qed.

Lemma strict_generate_summary_no_credential :
  USE_MOCK cfg = false → groq cfg = false →
  StrictServer.generate_summary cfg w req_body
    = answers [] 500
        (error_body "GROQ_API_KEY not configured. Set USE_MOCK=true to test without LLM.").
Proof.
  intros Hm Hg. unfold StrictServer.generate_summary. cbv zeta.
  rewrite valid_passes_validation, Hm, Hg. reflexivity.
Qed.

Lemma strict_generate_summary_llm :
  invokes_llm (StrictServer.generate_summary cfg w req_body)
    = negb (USE_MOCK cfg) && groq cfg.
Proof.
  destruct (USE_MOCK cfg) eqn:Hm.
  - now rewrite strict_generate_summary_mock.
  - destruct (groq cfg) eqn:Hg.
    + unfold invokes_llm, StrictServer.generate_summary. cbv zeta.
      rewrite valid_passes_validation, Hm, Hg.
      destruct Hvalid as (Ht & Hi & _).
      rewrite body_or_empty_transcript, body_or_empty_instruction, Ht, Hi.
      cbn [to_string negb]. rewrite try_catch_trace, bind_emit.
      cbn [fst]. rewrite !bind_pure_some, bind_emit. reflexivity.
    + now rewrite strict_generate_summary_no_credential.
Qed.
End Selection.

(** C2 (as amended).  For a valid generate-summary request the completion
    service is invoked only when the mock flag is off and a credential is
    present, in both revisions of the handler.  The current revision uses the
    mock summarizer whenever the flag is on or no credential is configured.
    The revision with explicit mock mode uses it exactly when the flag is on;
    with the flag off and no credential it answers 500. *)
Theorem mock_or_llm_selection (cfg : Config) (w : Collaborators) (req_body : JsVal)
    (transcript instruction : jsstring) :
  valid_request req_body transcript instruction →
  (USE_MOCK cfg || negb (groq cfg) = true →
     Server.generate_summary cfg w req_body
       = answers [] 200 (Server.summary_body (Server.mock_summary transcript)))
  ∧ invokes_llm (Server.generate_summary cfg w req_body) = negb (USE_MOCK cfg) && groq cfg
  ∧ (USE_MOCK cfg = true →
     StrictServer.generate_summary cfg w req_body
       = answers [ConsoleLog (lit "[generate-summary] MODE=mock")] 200
           (Server.summary_body (StrictServer.mock_summary transcript)))
  ∧ (USE_MOCK cfg = false → groq cfg = false →
     StrictServer.generate_summary cfg w req_body
       = answers [] 500
           (error_body "GROQ_API_KEY not configured. Set USE_MOCK=true to test without LLM."))
  ∧ invokes_llm (StrictServer.generate_summary cfg w req_body)
      = negb (USE_MOCK cfg) && groq cfg.
Proof.
  intros Hvalid. split; [|split; [|split; [|split]]].
  - exact (generate_summary_mock cfg w _ _ _ Hvalid).
  - exact (generate_summary_llm cfg w _ _ _ Hvalid).
  - exact (strict_generate_summary_mock cfg w _ _ _ Hvalid).
  - exact (strict_generate_summary_no_credential cfg w _ _ _ Hvalid).
  - exact (strict_generate_summary_llm cfg w _ _ _ Hvalid).
Qed.

Lemma mock_or_llm_selection_witness :
  let req_body := generate_request "Line one. Line two." "summarize" in
  valid_request req_body (lit "Line one. Line two.") (lit "summarize")
  ∧ Server.generate_summary (Server.config bare_env) working_mail req_body
      = answers [] 200
          (Server.summary_body (Server.mock_summary (lit "Line one. Line two."))).
Proof.
  intros req_body.
  assert (H : valid_request req_body (lit "Line one. Line two.") (lit "summarize"))
    by (repeat split; discriminate).
  split; [exact H|].
  exact (proj1 (mock_or_llm_selection (Server.config bare_env) working_mail req_body _ _ H)
           eq_refl).
Defined.

(** C2 (as stated) fails on the revision with explicit mock mode: with
    nothing configured the mock flag is off and there is no credential, and a
    valid request is answered 500 instead of a mock summary. *)
Lemma strict_missing_credential_fails :
  let cfg := StrictServer.config bare_env in
  USE_MOCK cfg = false ∧ groq cfg = false
  ∧ StrictServer.generate_summary cfg working_mail
        (generate_request "Line one. Line two." "summarize")
      = answers [] 500
          (error_body "GROQ_API_KEY not configured. Set USE_MOCK=true to test without LLM.").
Proof. vm_compute. repeat split. Qed.

(** ** The mock summary *)

Section MockSummary.
Import Server MockSpec.

Lemma solid_rev_trim (cur : jsstring) : ¬ blank cur → trim (rev cur) ≠ [].
Proof.
  intros H E. apply H. apply trim_nil_blank, blank_rev in E.
  now rewrite rev_involutive in E.
Qed.

Lemma trim_and_drop_blank_solid_head (cur : jsstring) l :
  ¬ blank cur → trim_and_drop_blank (rev cur :: l) ≠ [].
Proof.
  intros H. apply solid_rev_trim in H.
  unfold trim_and_drop_blank. cbn [List.map List.filter].
  destruct (trim (rev cur)); [congruence|discriminate].
Qed.

Lemma solid_cons c (cur : jsstring) : ¬ blank cur ∨ is_space c = false → ¬ blank (c :: cur).
Proof.
  unfold blank. cbn [forallb]. intros [H| ->]; [|discriminate].
  intros E. apply H. now apply andb_true_iff in E as [_ ?].
Qed.

(** A code unit that is neither white space nor a sentence end survives in
    some fragment. *)
Lemma fragments_solid (n : nat) : ∀ (s cur : jsstring), length s ≤ n →
  ¬ blank cur ∨ (∃ c, c ∈ s ∧ is_space c = false ∧ is_sentence_end c = false) →
  trim_and_drop_blank (fragments_from cur s) ≠ [].
Proof.
  induction n as [|n IH]; intros s cur Hn H.
  - destruct s; [|simpl in Hn; lia]. destruct H as [H|(c & Hc & _)].
    + now apply trim_and_drop_blank_solid_head.
    + now apply elem_of_nil in Hc.
  - destruct s as [|x t].
    { destruct H as [H|(c & Hc & _)];
        [now apply trim_and_drop_blank_solid_head | now apply elem_of_nil in Hc]. }
    cbn [length] in Hn. rewrite fragments_from_cons. unfold is_newline.
    destruct (x =? 10)%N eqn:Ex.
    + destruct H as [H|(c & Hc & Hs & Hp)];
        [now apply trim_and_drop_blank_solid_head|].
      apply elem_of_cons in Hc as [->|Hc].
      { apply N.eqb_eq in Ex. subst x. discriminate. }
      rewrite trim_and_drop_blank_cons. intros E. apply app_eq_nil in E as [_ E].
      revert E. apply IH; [lia|]. right. now exists c.
    + destruct (is_sentence_end x && _) eqn:Esep.
      * destruct H as [H|(c & Hc & Hs & Hp)];
          [now apply trim_and_drop_blank_solid_head|].
        apply andb_true_iff in Esep as [Epx Ew].
        apply elem_of_cons in Hc as [->|Hc]; [congruence|].
        destruct t as [|w t']; [discriminate|].
        apply elem_of_cons in Hc as [->|Hc]; [congruence|].
        rewrite trim_and_drop_blank_cons. intros E. apply app_eq_nil in E as [_ E].
        revert E. cbn [tl]. apply IH; [simpl in Hn; lia|]. right. now exists c.
      * apply IH; [lia|].
        destruct H as [H|(c & Hc & Hs & Hp)].
        -- left. apply solid_cons. now left.
        -- apply elem_of_cons in Hc as [->|Hc].
           ++ left. apply solid_cons. now right.
           ++ right. now exists c.
Qed.

Lemma mock_points_nonempty (transcript : jsstring) :
  (∃ c, c ∈ transcript ∧ is_space c = false ∧ is_sentence_end c = false) →
  mock_points transcript ≠ [].
Proof.
  intros H. unfold mock_points. rewrite mock_lines_refines.
  pose proof (fragments_solid (length transcript) transcript [] (le_n _) (or_intror H)) as Hne.
  unfold fragments. destruct (trim_and_drop_blank _); [congruence|discriminate].
Qed.

Lemma mock_points_blank (transcript : jsstring) :
  blank transcript → mock_points transcript = [].
Proof.
  intros H. unfold mock_points. rewrite mock_lines_refines. unfold fragments.
  destruct (fragments_skip_spaces transcript [] eq_refl) as (W & HW & ->).
  rewrite trimStart_blank by exact H. cbn [fragments_from].
  rewrite trim_and_drop_blank_blank by now apply blank_rev. reflexivity.
Qed.

Lemma mock_summary_points (transcript : jsstring) :
  (mock_summary transcript)?."points" = str_array (mock_points transcript).
Proof. reflexivity. Qed.

Lemma str_array_strings (l : list jsstring) : forallb Shape.is_string (JStr <$> l) = true.
Proof. now induction l. Qed.

Lemma mock_summary_well_formed (transcript : jsstring) :
  Shape.well_formed (mock_summary transcript) = true.
Proof.
  unfold mock_summary. rewrite ensureSummaryShape_record.
  unfold Shape.well_formed.
  rewrite summary_shape_record, ensured_items_are_records, !strings_of_safeArr.
  unfold mock_candidate. rewrite summary_record_points, summary_record_decisions.
  unfold str_array. cbn [Shape.strings_if_sequence]. now rewrite str_array_strings.
Qed.
End MockSummary.

(** C8 (as amended).  In mock mode a request with non-empty transcript and
    instruction strings is always answered 200, with no call to any
    collaborator, by a summary that depends on the transcript only, is
    normalized and well formed (so decisions and action items are present),
    and whose points are the first six trimmed non-blank fragments of the
    transcript.  The points are non-empty whenever the transcript holds a
    code unit that is neither white space nor a sentence end, and empty when
    the transcript is white space only. *)
Theorem mock_mode_summary (cfg : Config) (w : Collaborators) (req_body : JsVal)
    (transcript instruction : jsstring) :
  valid_request req_body transcript instruction →
  USE_MOCK cfg || negb (groq cfg) = true →
  let summary := Server.mock_summary transcript in
  Server.generate_summary cfg w req_body = answers [] 200 (Server.summary_body summary)
  ∧ Server.ensureSummaryShape summary = summary
  ∧ Shape.well_formed summary = true
  ∧ summary?."points" = Server.str_array (MockSpec.points 6 transcript)
  ∧ ((∃ c, c ∈ transcript ∧ is_space c = false ∧ Server.is_sentence_end c = false) →
     summary?."points" ≠ JArr [])
  ∧ (blank transcript → summary?."points" = JArr []).
Proof.
  intros Hvalid Hmock summary. subst summary.
  split; [|split; [|split; [|split; [|split]]]].
  - exact (generate_summary_mock cfg w _ _ _ Hvalid Hmock).
  - reflexivity.
  - apply mock_summary_well_formed.
  - rewrite mock_summary_points. unfold Server.mock_points, MockSpec.points.
    now rewrite mock_lines_refines.
  - intros H. rewrite mock_summary_points. apply mock_points_nonempty in H.
    unfold Server.str_array. destruct (Server.mock_points transcript); [congruence|discriminate].
  - intros H. rewrite mock_summary_points. now rewrite mock_points_blank.
Qed.

Lemma mock_mode_summary_witness :
  let req_body := generate_request "Line one. Line two." "summarize" in
  let summary := Server.mock_summary (lit "Line one. Line two.") in
  valid_request req_body (lit "Line one. Line two.") (lit "summarize")
  ∧ Server.generate_summary (Server.config bare_env) working_mail req_body
      = answers [] 200 (Server.summary_body summary)
  ∧ summary?."points" = Server.str_array [lit "Line one"; lit "Line two."].
Proof.
  intros req_body summary.
  assert (H : valid_request req_body (lit "Line one. Line two.") (lit "summarize"))
    by (repeat split; discriminate).
  split; [exact H|].
  split; [|reflexivity].
  exact (proj1 (mock_mode_summary (Server.config bare_env) working_mail req_body _ _ H
                  eq_refl)).
Defined.

(** C8 (as stated) fails: a transcript of white space is a non-empty string,
    and in mock mode it is answered 200 with an empty points sequence. *)
Lemma mock_points_can_be_empty :
  let summary := Server.mock_summary (lit " ") in
  Server.generate_summary (Server.config bare_env) working_mail (generate_request " " "x")
    = answers [] 200 (Server.summary_body summary)
  ∧ summary?."points" = JArr [].
Proof. vm_compute. split; reflexivity. Qed.

(** ** The edit cycle *)

Section EditCycle.
Import Frontend.

Lemma join_by_cons2 {A} (f : A → option jsstring) sep x y l :
  join_by f sep (x :: y :: l) =
    match f x, join_by f sep (y :: l) with
    | Some s, Some r => Some (s ++ sep ++ r)
    | _, _ => None
    end.
Proof. reflexivity. Qed.

Lemma join_str_array (ps : list jsstring) :
  join [10%N] (JStr <$> ps) = Some (join_lines ps).
Proof.
  unfold join. induction ps as [|p ps IH]; [reflexivity|].
  destruct ps as [|q ps]; [reflexivity|].
  change (JStr <$> p :: q :: ps) with (JStr p :: JStr q :: (JStr <$> ps)).
  change (JStr <$> q :: ps) with (JStr q :: (JStr <$> ps)) in IH.
  rewrite join_by_cons2, IH. reflexivity.
Qed.

Lemma split_unit_go_line (p : jsstring) : ∀ cur rest, one_line p →
  split_unit_go 10 cur (p ++ rest) = split_unit_go 10 (rev p ++ cur) rest.
Proof.
  unfold one_line. induction p as [|c p IH]; intros cur rest Hp; [reflexivity|].
  apply not_elem_of_cons in Hp as [Hc Hp].
  cbn [app split_unit_go rev].
  replace (c =? 10)%N with false by (symmetry; apply N.eqb_neq; congruence).
  rewrite IH by exact Hp. now rewrite <- app_assoc.
Qed.

Lemma split_join_lines (ps : list jsstring) :
  ps ≠ [] → Forall one_line ps → split_unit 10 (join_lines ps) = ps.
Proof.
  unfold split_unit. induction ps as [|p [|q ps] IH]; intros Hne Hall; [congruence| |].
  - apply Forall_cons in Hall as [Hp _].
    cbn [join_lines]. rewrite <- (app_nil_r p) at 1.
    rewrite split_unit_go_line by exact Hp. cbn [split_unit_go].
    now rewrite app_nil_r, rev_involutive.
  - apply Forall_cons in Hall as [Hp Hall].
    cbn [join_lines]. rewrite split_unit_go_line by exact Hp.
    cbn [app split_unit_go]. change (10 =? 10)%N with true. cbv iota.
    rewrite app_nil_r, rev_involutive. f_equal. now apply IH.
Qed.

Lemma edit_cycle_lines (ps : list jsstring) :
  Forall one_line ps → edit_cycle (Server.str_array ps) = Some (trim_and_drop_blank ps).
Proof.
  intros Hall. unfold edit_cycle, toLines, Server.str_array. cbn [safeArr].
  rewrite join_str_array. cbn [fmap option_fmap option_map]. f_equal.
  unfold edited_points. destruct ps as [|p ps]; [reflexivity|].
  now rewrite split_join_lines.
Qed.
End EditCycle.

(** C9 (as amended).  For a summary whose points are strings without line
    feeds, joining the points with line feeds and splitting the text again on
    line feeds, trimming each line and dropping the blank ones, gives back
    the original points trimmed and without their blank entries. *)
Theorem edit_cycle_roundtrip (summary : JsVal) (ps : list jsstring) :
  summary?."points" = Server.str_array ps → Forall one_line ps → roundtrip summary ps.
Proof.
  intros Hp Hall. split; [exact Hp|]. rewrite Hp. now apply edit_cycle_lines.
Qed.

Lemma edit_cycle_roundtrip_witness :
  let summary := Server.mock_summary (lit "Line one. Line two.") in
  Forall one_line [lit "Line one"; lit "Line two."]
  ∧ roundtrip summary [lit "Line one"; lit "Line two."].
Proof.
  intros summary.
  assert (H : Forall one_line [lit "Line one"; lit "Line two."]).
  { repeat apply Forall_cons_2; try apply Forall_nil_2;
      unfold one_line; apply (bool_decide_unpack _); vm_compute; exact I. }
  split; [exact H|].
  exact (edit_cycle_roundtrip summary _ eq_refl H).
Defined.

(** C9 (as stated) fails: a normalized, well-formed summary may hold a point
    with a line feed in it; the text area splits it into two points. *)
Lemma edit_cycle_splits_multiline_point :
  let ps := [lit "a" ++ [10%N] ++ lit "b"] in
  let summary := Server.ensureSummaryShape (JObj {[ lit "points" := Server.str_array ps ]}) in
  Server.ensureSummaryShape summary = summary
  ∧ Shape.well_formed summary = true
  ∧ Frontend.edit_cycle summary?."points" = Some [lit "a"; lit "b"]
  ∧ ¬ roundtrip summary ps.
Proof.
  intros ps summary.
  assert (E : Frontend.edit_cycle summary?."points" = Some [lit "a"; lit "b"])
    by (vm_compute; reflexivity).
  split; [vm_compute; reflexivity|].
  split; [vm_compute; reflexivity|].
  split; [exact E|].
  intros [_ H]. rewrite E in H. vm_compute in H. discriminate.
Qed.

(** ** Summaries of the mock path survive the edit cycle *)

Section MockRoundtrip.
Import Server MockSpec.

Lemma one_line_rev (s : jsstring) : one_line s → one_line (rev s).
Proof.
  unfold one_line. intros H Hin. apply H.
  apply list_elem_of_In, in_rev. now apply list_elem_of_In.
Qed.

Lemma trimStart_one_line (s : jsstring) : one_line s → one_line (trimStart s).
Proof.
  unfold one_line. induction s as [|c s IH]; intros H; [exact H|].
  cbn [trimStart]. destruct (is_space c); [|exact H].
  apply IH. intros Hin. apply H. now right.
Qed.

Lemma trim_one_line (s : jsstring) : one_line s → one_line (trim s).
Proof.
  intros H. unfold trim, trimEnd.
  now apply one_line_rev, trimStart_one_line, one_line_rev, trimStart_one_line.
Qed.

Lemma trim_and_drop_blank_one_line (l : list jsstring) :
  Forall one_line l → Forall one_line (trim_and_drop_blank l).
Proof.
  unfold trim_and_drop_blank. induction 1 as [|s l Hs _ IH]; [constructor|].
  cbn [List.map List.filter]. destruct (nonempty (trim s)); [|exact IH].
  constructor; [now apply trim_one_line|exact IH].
Qed.

(** No fragment holds a line feed: every line feed ends a fragment or is
    part of the white space after a sentence end. *)
Lemma fragments_one_line (n : nat) : ∀ (s cur : jsstring), length s ≤ n →
  one_line cur → Forall one_line (fragments_from cur s).
Proof.
  induction n as [|n IH]; intros s cur Hn Hcur.
  - destruct s; [|simpl in Hn; lia]. repeat constructor. now apply one_line_rev.
  - destruct s as [|c t]; [repeat constructor; now apply one_line_rev|].
    cbn [length] in Hn. rewrite fragments_from_cons. unfold is_newline.
    destruct (c =? 10)%N eqn:Ec.
    + constructor; [now apply one_line_rev|].
      apply IH; [lia|]. unfold one_line. apply not_elem_of_nil.
    + destruct (is_sentence_end c && _).
      * constructor; [now apply one_line_rev|].
        apply IH; [destruct t; simpl in *; lia|]. unfold one_line. apply not_elem_of_nil.
      * apply IH; [lia|]. unfold one_line in *. apply not_elem_of_cons. split; [|exact Hcur].
        apply N.eqb_neq in Ec. congruence.
Qed.

Lemma mock_points_one_line (transcript : jsstring) :
  Forall one_line (mock_points transcript).
Proof.
  unfold mock_points. rewrite mock_lines_refines. apply Forall_take.
  apply trim_and_drop_blank_one_line.
  apply (fragments_one_line (length transcript)); [lia|].
  unfold one_line. apply not_elem_of_nil.
Qed.

Lemma trimStart_idem (s : jsstring) : trimStart (trimStart s) = trimStart s.
Proof.
  induction s as [|c s IH]; [reflexivity|]. cbn [trimStart].
  destruct (is_space c) eqn:E; [exact IH|]. cbn [trimStart]. now rewrite E.
Qed.

Lemma trimStart_snoc_solid (x : jsstring) (c : N) : is_space c = false →
  ∃ v : jsstring, trimStart (x ++ [c]) = v ++ [c].
Proof.
  intros Hc. induction x as [|a x IH]; [exists []; cbn; now rewrite Hc|].
  cbn [app trimStart]. destruct (is_space a); [exact IH|]. now exists (a :: x).
Qed.

Lemma trim_trim (s : jsstring) : trim (trim s) = trim s.
Proof.
  unfold trim, trimEnd.
  destruct (trimStart s) as [|c t] eqn:E; [reflexivity|].
  apply trimStart_head_solid in E as Hc.
  cbn [rev]. destruct (trimStart_snoc_solid (rev t) c Hc) as [v Hv].
  rewrite Hv at 1. rewrite rev_app_distr. cbn [rev app trimStart]. rewrite Hc.
  cbn [rev]. rewrite rev_involutive, <- Hv. now rewrite trimStart_idem.
Qed.

(** The lines kept by [.map(trim).filter(Boolean)] are already trimmed and
    not blank, so doing it again changes nothing. *)
Lemma trim_and_drop_blank_clean (l : list jsstring) :
  Forall (fun s => trim s = s ∧ nonempty s = true) (trim_and_drop_blank l).
Proof.
  unfold trim_and_drop_blank. induction l as [|s l IH]; [constructor|].
  cbn [List.map List.filter]. destruct (nonempty (trim s)) eqn:E; [|exact IH].
  constructor; [|exact IH]. split; [apply trim_trim|exact E].
Qed.

Lemma trim_and_drop_blank_of_clean (l : list jsstring) :
  Forall (fun s => trim s = s ∧ nonempty s = true) l → trim_and_drop_blank l = l.
Proof.
  unfold trim_and_drop_blank. induction 1 as [|s l [Ht Hn] _ IH]; [reflexivity|].
  cbn [List.map List.filter]. now rewrite Ht, Hn, IH.
Qed.

Lemma mock_points_clean (transcript : jsstring) :
  trim_and_drop_blank (mock_points transcript) = mock_points transcript.
Proof.
  apply trim_and_drop_blank_of_clean. unfold mock_points, mock_lines.
  apply Forall_take, trim_and_drop_blank_clean.
Qed.

(** The points of a mock summary come back unchanged from the text area. *)
Lemma mock_summary_survives_edit (transcript : jsstring) :
  Frontend.edit_cycle (mock_summary transcript)?."points" = Some (mock_points transcript).
Proof.
  rewrite mock_summary_points, edit_cycle_lines by apply mock_points_one_line.
  now rewrite mock_points_clean.
Qed.
End MockRoundtrip.

(** ** Reading the configuration *)

Section Configuration.
Variable e : Env.

(** No credential, or an empty one, leaves [groq] null in both revisions. *)
Lemma config_without_credential :
  env_GROQ_API_KEY e = None ∨ env_GROQ_API_KEY e = Some [] →
  groq (Server.config e) = false ∧ groq (StrictServer.config e) = false.
Proof.
  unfold Server.config, StrictServer.config, HAS_GROQ. cbn [groq].
  now intros [->| ->].
Qed.

(** The three words that switch the mock flag on, in any letter case. *)
Lemma mock_flag_words (s : jsstring) :
  toLowerCase s ∈ [lit "true"; lit "1"; lit "yes"] →
  env_USE_MOCK e = Some s →
  USE_MOCK (Server.config e) = true ∧ USE_MOCK (StrictServer.config e) = true.
Proof.
  intros Hin Hs. unfold Server.config, StrictServer.config. cbn [USE_MOCK].
  rewrite Hs. unfold Server.parseBool, StrictServer.parseBool.
  assert (Hinc : includes [lit "true"; lit "1"; lit "yes"] (toLowerCase s) = true).
  { unfold includes. apply existsb_exists. exists (toLowerCase s).
    split; [now apply list_elem_of_In|now apply bool_decide_eq_true]. }
  rewrite Hinc. destruct s; [|now split].
  exfalso. cbn in Hin. rewrite !elem_of_cons, elem_of_nil in Hin.
  destruct Hin as [H|[H|[H|[]]]]; discriminate.
Qed.

(** Unset, the flag is on in the current revision and off in the revision
    with explicit mock mode. *)
Lemma mock_flag_default :
  env_USE_MOCK e = None →
  USE_MOCK (Server.config e) = true ∧ USE_MOCK (StrictServer.config e) = false.
Proof.
  intros Hs. unfold Server.config, StrictServer.config. cbn [USE_MOCK].
  now rewrite Hs.
Qed.
End Configuration.

(** * Further properties of the code *)

(** ** The completion path of the generate handler *)

Section CompletionPath.
Import Server.
Variables (cfg : Config) (w : Collaborators) (req_body : JsVal).

Lemma completion_text_silent (completion : JsVal) : (completion_text completion).1 = [].
Proof.
  unfold completion_text. apply bind_silent; [reflexivity|]. intros choices.
  destruct ((opt_first choices)?."message"?."content"); reflexivity.
Qed.

Lemma llm_outcome_run (req : GroqRequest) :
  try_catch
    (_ ← emit (GroqCreate req);
     completion ← try_pure (groq_create w req);
     text ← completion_text completion;
     match JSON_parse w (remove_all code_fence text) with
     | Some parsed => json 200 (summary_body (ensureSummaryShape parsed))
     | None =>
         _ ← emit (ConsoleError (lit "Invalid JSON from Groq:"));
         json 500 (error_body "Groq returned invalid JSON")
     end)
    (_ ← emit (ConsoleError (lit "generate-summary error:"));
     json 500 (error_body "Failed to generate summary (server error)"))
  = llm_outcome w req.
Proof.
  unfold llm_outcome. rewrite bind_emit.
  destruct (groq_create w req) as [completion|]; [|reflexivity].
  rewrite bind_pure_some.
  pose proof (completion_text_silent completion) as Hs.
  destruct (completion_text completion) as [tr [text|]]; cbn [fst snd] in *; subst tr;
    [|reflexivity].
  change (([], Some text) : Eff jsstring) with (try_pure (Some text)).
  rewrite bind_pure_some.
  destruct (JSON_parse w (remove_all code_fence text)); reflexivity.
Qed.

(** The generate handler of the current revision, case by case. *)
Lemma generate_summary_cases :
  let transcript := req_body?."transcript" in
  let instruction := req_body?."instruction" in
  generate_summary cfg w req_body =
    if negb (truthy transcript) || negb (truthy instruction) then
      answers [] 400 (error_body "Transcript and instruction are required")
    else if USE_MOCK cfg || negb (groq cfg) then
      match to_string transcript with
      | Some t => answers [] 200 (summary_body (mock_summary t))
      | None => generate_failed []
      end
    else
      match to_string instruction, to_string transcript with
      | Some i, Some t => llm_outcome w (llm_request i t)
      | _, _ => generate_failed []
      end.
Proof.
  intros transcript instruction. unfold generate_summary. cbv zeta.
  rewrite body_or_empty_transcript, body_or_empty_instruction.
  fold transcript instruction.
  destruct (negb (truthy transcript) || negb (truthy instruction)); [reflexivity|].
  destruct (USE_MOCK cfg || negb (groq cfg)).
  - destruct (to_string transcript); reflexivity.
  - destruct (to_string instruction) as [i|]; [|reflexivity].
    rewrite bind_pure_some.
    destruct (to_string transcript) as [t|]; [|reflexivity].
    rewrite bind_pure_some. apply llm_outcome_run.
Qed.
End CompletionPath.

Section GenerateAnswers.
Import Server.
Variables (cfg : Config) (w : Collaborators) (req_body : JsVal).

Lemma llm_outcome_answers (req : GroqRequest) :
  ∃ resp events, llm_outcome w req = (GroqCreate req :: events, Some resp)
    ∧ (status resp = 200 ∨ status resp = 500)%Z
    ∧ List.filter is_groq_call events = [] ∧ List.filter is_mail_call events = [].
Proof.
  unfold llm_outcome, generate_failed, answers.
  destruct (groq_create w req) as [completion|].
  - destruct (completion_text completion).2 as [text|].
    + destruct (JSON_parse w (remove_all code_fence text));
        eexists _, _; (split; [reflexivity|]); cbn; auto.
    + eexists _, _; (split; [reflexivity|]); cbn; auto.
  - eexists _, _; (split; [reflexivity|]); cbn; auto.
Qed.

(** X1.  The generate handler always answers: whatever the body, the
    configuration and the collaborators do, every exception ends in its
    catch-all, and the status is 200, 400 or 500.  It is 400 exactly when
    the transcript or the instruction is falsy: missing, [null], [false],
    zero or the empty string. *)
Theorem generate_summary_always_answers :
  ∃ resp, (generate_summary cfg w req_body).2 = Some resp
    ∧ (status resp = 200 ∨ status resp = 400 ∨ status resp = 500)%Z
    ∧ (status resp = 400%Z ↔
       truthy req_body?."transcript" = false ∨ truthy req_body?."instruction" = false).
Proof.
  rewrite generate_summary_cases. cbv zeta.
  destruct (truthy req_body?."transcript") eqn:Et, (truthy req_body?."instruction") eqn:Ei;
    cbn [negb orb];
    try (eexists; (split; [reflexivity|]); (split; [cbn; auto|]); cbn; tauto).
  assert (Hno : ∀ resp : Response, (status resp = 200 ∨ status resp = 500)%Z →
            (status resp = 200 ∨ status resp = 400 ∨ status resp = 500)%Z
            ∧ (status resp = 400%Z ↔ true = false ∨ true = false)).
  { intros resp [H|H]; rewrite H; (split; [auto|]);
      (split; [discriminate|intros [?|?]; discriminate]). }
  destruct (USE_MOCK cfg || negb (groq cfg)).
  - destruct (to_string req_body?."transcript");
      eexists; (split; [reflexivity|]); apply Hno; cbn; auto.
  - destruct (to_string req_body?."instruction") as [i|];
      [destruct (to_string req_body?."transcript") as [t|]|];
      try (eexists; (split; [reflexivity|]); apply Hno; cbn; auto).
    destruct (llm_outcome_answers (llm_request i t)) as (resp & events & -> & Hs & _).
    exists resp. split; [reflexivity|]. now apply Hno.
Qed.

(** X2.  No retries: the generate handler calls the completion service at
    most once per request, only when the mock flag is off and a credential
    is present, and it never calls the mail collaborator. *)
Theorem generate_summary_calls :
  groq_calls (generate_summary cfg w req_body) ≤ 1
  ∧ (USE_MOCK cfg || negb (groq cfg) = true → groq_calls (generate_summary cfg w req_body) = 0)
  ∧ mail_calls (generate_summary cfg w req_body) = 0.
Proof.
  rewrite generate_summary_cases. cbv zeta. unfold groq_calls, mail_calls.
  destruct (negb (truthy req_body?."transcript") || negb (truthy req_body?."instruction"));
    [cbn; auto|].
  destruct (USE_MOCK cfg || negb (groq cfg)).
  - destruct (to_string req_body?."transcript"); cbn; auto.
  - destruct (to_string req_body?."instruction") as [i|];
      [destruct (to_string req_body?."transcript") as [t|]|]; try (cbn; split; [lia|]; split; [discriminate|reflexivity]).
    destruct (llm_outcome_answers (llm_request i t)) as (resp & events & -> & _ & Hg & Hm).
    cbn [fst List.filter is_groq_call is_mail_call]. rewrite Hg, Hm.
    split; [cbn; lia|]. split; [discriminate|reflexivity].
Qed.
End GenerateAnswers.

Section CompletionOutcomes.
Import Server.
Variables (cfg : Config) (w : Collaborators) (req_body : JsVal).
Variables (transcript instruction : jsstring).
Hypothesis Hvalid : valid_request req_body transcript instruction.
Hypothesis Hflag : USE_MOCK cfg = false.
Hypothesis Hkey : groq cfg = true.

Lemma generate_summary_on_completion_path :
  generate_summary cfg w req_body = llm_outcome w (llm_request instruction transcript).
Proof.
  rewrite generate_summary_cases. cbv zeta.
  destruct Hvalid as (Ht & Hi & Hnt & Hni). rewrite Ht, Hi, Hflag, Hkey.
  destruct transcript, instruction; try congruence. reflexivity.
Qed.

Lemma completion_path_service_failure :
  groq_create w (llm_request instruction transcript) = None →
  generate_summary cfg w req_body
    = answers [GroqCreate (llm_request instruction transcript);
               ConsoleError (lit "generate-summary error:")] 500
        (error_body "Failed to generate summary (server error)").
Proof.
  intros H. rewrite generate_summary_on_completion_path. unfold llm_outcome. now rewrite H.
Qed.

Lemma completion_path_invalid_json (completion : JsVal) (text : jsstring) :
  groq_create w (llm_request instruction transcript) = Some completion →
  (completion_text completion).2 = Some text →
  JSON_parse w (remove_all code_fence text) = None →
  generate_summary cfg w req_body
    = answers [GroqCreate (llm_request instruction transcript);
               ConsoleError (lit "Invalid JSON from Groq:")] 500
        (error_body "Groq returned invalid JSON").
Proof.
  intros Hc Ht Hp. rewrite generate_summary_on_completion_path. unfold llm_outcome.
  now rewrite Hc, Ht, Hp.
Qed.

Lemma completion_path_parsed (completion parsed : JsVal) (text : jsstring) :
  groq_create w (llm_request instruction transcript) = Some completion →
  (completion_text completion).2 = Some text →
  JSON_parse w (remove_all code_fence text) = Some parsed →
  generate_summary cfg w req_body
    = answers [GroqCreate (llm_request instruction transcript)] 200
        (summary_body (ensureSummaryShape parsed)).
Proof.
  intros Hc Ht Hp. rewrite generate_summary_on_completion_path. unfold llm_outcome.
  now rewrite Hc, Ht, Hp.
Qed.

(** A completion without choices, or whose first choice has no content,
    reads as the text of the empty object. *)
Lemma completion_text_without_content (completion : JsVal) :
  nullish completion = false →
  nullish (opt_first completion?."choices")?."message"?."content" = true →
  completion_text completion = ([], Some (lit "{}")).
Proof.
  intros Hn Hc. unfold completion_text, dot. rewrite Hn, bind_pure_some.
  destruct ((opt_first completion?."choices")?."message"?."content"); try discriminate;
    reflexivity.
Qed.
End CompletionOutcomes.

(** X3.  On the completion path a failure of the service is answered 500
    with the generic message, and a completion whose text does not parse is
    answered 500 with "Groq returned invalid JSON"; in both cases the service
    was called exactly once, with the instruction and the transcript in the
    prompt, and the failure is logged. *)
Theorem completion_failures (cfg : Config) (w : Collaborators) (req_body : JsVal)
    (transcript instruction : jsstring) :
  valid_request req_body transcript instruction →
  USE_MOCK cfg = false → groq cfg = true →
  let req := llm_request instruction transcript in
  (groq_create w req = None →
   Server.generate_summary cfg w req_body
     = answers [GroqCreate req; ConsoleError (lit "generate-summary error:")] 500
         (error_body "Failed to generate summary (server error)"))
  ∧ (∀ completion text,
       groq_create w req = Some completion →
       (Server.completion_text completion).2 = Some text →
       JSON_parse w (remove_all Server.code_fence text) = None →
       Server.generate_summary cfg w req_body
         = answers [GroqCreate req; ConsoleError (lit "Invalid JSON from Groq:")] 500
             (error_body "Groq returned invalid JSON")).
Proof.
  intros Hv Hf Hk req. split.
  - now apply (completion_path_service_failure cfg w req_body transcript instruction).
  - intros completion text.
    now apply (completion_path_invalid_json cfg w req_body transcript instruction).
Qed.

Lemma completion_failures_witness :
  let cfg := {| USE_MOCK := false; groq := true; GROQ_MODEL := None |} in
  let req_body := generate_request "Line one. Line two." "summarize" in
  valid_request req_body (lit "Line one. Line two.") (lit "summarize")
  ∧ Server.generate_summary cfg working_mail req_body
      = answers [GroqCreate (llm_request (lit "summarize") (lit "Line one. Line two."));
                 ConsoleError (lit "generate-summary error:")] 500
          (error_body "Failed to generate summary (server error)").
Proof.
  intros cfg req_body.
  assert (H : valid_request req_body (lit "Line one. Line two.") (lit "summarize"))
    by (repeat split; discriminate).
  split; [exact H|].
  exact (proj1 (completion_failures cfg working_mail req_body _ _ H eq_refl eq_refl) eq_refl).
Defined.

(** X4.  On the completion path a completion whose text parses is answered
    200 with the parsed value normalized, whatever that value is: the
    summary of the answer always has the shape of a Summary and is a fixed
    point of the normalizer.  A completion without content is read as the
    empty object and, parsed as such, gives the empty Summary. *)
Theorem completion_success (cfg : Config) (w : Collaborators) (req_body : JsVal)
    (transcript instruction : jsstring) (completion parsed : JsVal) (text : jsstring) :
  valid_request req_body transcript instruction →
  USE_MOCK cfg = false → groq cfg = true →
  let req := llm_request instruction transcript in
  groq_create w req = Some completion →
  (Server.completion_text completion).2 = Some text →
  JSON_parse w (remove_all Server.code_fence text) = Some parsed →
  let summary := Server.ensureSummaryShape parsed in
  Server.generate_summary cfg w req_body
    = answers [GroqCreate req] 200 (Server.summary_body summary)
  ∧ Shape.well_shaped summary = true
  ∧ Server.ensureSummaryShape summary = summary
  ∧ (nullish completion = false →
     nullish (opt_first completion?."choices")?."message"?."content" = true →
     text = lit "{}"
     ∧ (parsed = JObj ∅ → summary = Page.DEFAULT_SUMMARY)).
Proof.
  intros Hv Hf Hk req Hc Ht Hp summary. split; [|split; [|split]].
  - now apply (completion_path_parsed cfg w req_body transcript instruction Hv Hf Hk
                 completion parsed text).
  - subst summary. rewrite ensureSummaryShape_record. unfold Shape.well_shaped.
    now rewrite summary_shape_record, ensured_items_are_records, !forallb_any_value.
  - subst summary. rewrite (ensureSummaryShape_record parsed), ensureSummaryShape_record.
    rewrite summary_record_points, summary_record_decisions, summary_record_action_items.
    cbn [Frontend.safeArr]. do 2 f_equal.
    rewrite List.map_map. apply List.map_ext. intros a. apply ensure_item_idem.
  - intros Hn Hcontent.
    rewrite (completion_text_without_content completion Hn Hcontent) in Ht.
    cbn [snd] in Ht. split; [now injection Ht|]. intros ->. reflexivity.
Qed.

Lemma completion_success_witness :
  let cfg := {| USE_MOCK := false; groq := true; GROQ_MODEL := None |} in
  let w := {| groq_create := fun _ => Some (JObj ∅);
              sendEmailHTML := fun _ _ _ => None;
              JSON_parse := fun _ => Some (JObj ∅) |} in
  let req_body := generate_request "Line one. Line two." "summarize" in
  valid_request req_body (lit "Line one. Line two.") (lit "summarize")
  ∧ Server.generate_summary cfg w req_body
      = answers [GroqCreate (llm_request (lit "summarize") (lit "Line one. Line two."))] 200
          (Server.summary_body Page.DEFAULT_SUMMARY).
Proof.
  intros cfg w req_body.
  assert (H : valid_request req_body (lit "Line one. Line two.") (lit "summarize"))
    by (repeat split; discriminate).
  split; [exact H|].
  exact (proj1 (completion_success cfg w req_body _ _ (JObj ∅) (JObj ∅) (lit "{}")
                  H eq_refl eq_refl eq_refl eq_refl eq_refl)).
Defined.

(** X5.  In the mock configuration the transcript need not be a string: any
    truthy value passes validation and is converted with [String] before it
    is split, the instruction is only tested for truthiness, and a
    transcript that cannot be converted is answered 500 by the catch-all. *)
Theorem mock_accepts_truthy_values (cfg : Config) (w : Collaborators) (req_body : JsVal) :
  truthy req_body?."transcript" = true → truthy req_body?."instruction" = true →
  USE_MOCK cfg || negb (groq cfg) = true →
  Server.generate_summary cfg w req_body =
    match to_string req_body?."transcript" with
    | Some t => answers [] 200 (Server.summary_body (Server.mock_summary t))
    | None =>
        answers [ConsoleError (lit "generate-summary error:")] 500
          (error_body "Failed to generate summary (server error)")
    end.
Proof.
  intros Ht Hi Hm. rewrite generate_summary_cases. cbv zeta. rewrite Ht, Hi, Hm.
  reflexivity.
Qed.

Lemma mock_accepts_truthy_values_witness :
  let req_body := JObj (<[lit "transcript" := JArr [JStr (lit "Budget. Hiring"); JNum 42]]>
                       (<[lit "instruction" := JBool true]> ∅)) in
  truthy req_body?."transcript" = true
  ∧ Server.generate_summary (Server.config bare_env) working_mail req_body
      = answers [] 200
          (Server.summary_body (Server.mock_summary (lit "Budget. Hiring,42"))).
Proof.
  intros req_body.
  assert (H : truthy req_body?."transcript" = true) by reflexivity.
  split; [exact H|].
  exact (mock_accepts_truthy_values (Server.config bare_env) working_mail req_body
           H eq_refl eq_refl).
Defined.

(** ** The send handler on every body *)

Section SendAnswers.
Import Server.
Variables (w : Collaborators) (req_body : JsVal).

Lemma recipients_length_defined :
  ∃ len, dot (js_or req_body?."recipients" (JArr [])) (lit "length") = Some len.
Proof.
  unfold js_or, dot.
  destruct (truthy req_body?."recipients") eqn:E; [|now eexists].
  destruct (req_body?."recipients"); try discriminate; now eexists.
Qed.

(** The send handler of the current revision, case by case. *)
Lemma send_summary_cases :
  let recipients := js_or req_body?."recipients" (JArr []) in
  send_summary w req_body =
    if truthy recipients?."length" then
      match (render_html (ensureSummaryShape (js_or req_body?."summary" (JObj ∅)))).2 with
      | Some html => mail_outcome sent_body w recipients html
      | None =>
          answers [ConsoleError (lit "send-summary error:")] 500
            (error_body "Failed to send summary")
      end
    else answers [] 400 (error_body "Recipients array is required").
Proof.
  intros recipients. unfold send_summary. cbv zeta. fold recipients.
  destruct recipients_length_defined as [len Hlen]. fold recipients in Hlen.
  rewrite Hlen, bind_pure_some.
  assert (Hl : recipients?."length" = len).
  { unfold dot in Hlen. destruct (nullish recipients); [discriminate|]. now injection Hlen. }
  rewrite Hl. destruct (truthy len); [|reflexivity]. cbn [negb].
  pose proof (render_html_silent
                (ensureSummaryShape (js_or req_body?."summary" (JObj ∅)))) as Hs.
  destruct (render_html _) as [tr [html|]]; cbn [fst snd] in *; subst tr; [|reflexivity].
  change (([], Some html) : Eff jsstring) with (try_pure (Some html)).
  rewrite bind_pure_some, bind_emit. unfold mail_outcome.
  destruct (sendEmailHTML w recipients (lit "Meeting Summary") html); reflexivity.
Qed.

(** X6.  The send handler always answers, with status 200, 400 or 500.  It
    is 400 exactly when the recipients, defaulted to the empty array when
    falsy, have no truthy [length]: absent or empty recipients, but also a
    number, [true] or an object without a length; a non-empty string is let
    through. *)
Theorem send_summary_always_answers :
  let recipients := js_or req_body?."recipients" (JArr []) in
  ∃ resp, (send_summary w req_body).2 = Some resp
    ∧ (status resp = 200 ∨ status resp = 400 ∨ status resp = 500)%Z
    ∧ (status resp = 400%Z ↔ truthy recipients?."length" = false).
Proof.
  intros recipients. rewrite send_summary_cases. cbv zeta. fold recipients.
  destruct (truthy recipients?."length").
  - destruct (render_html _).2 as [html|].
    + unfold mail_outcome.
      destruct (sendEmailHTML w recipients (lit "Meeting Summary") html);
        eexists; (split; [reflexivity|]); cbn; (split; [auto|]);
        (split; [discriminate|discriminate]).
    + eexists; (split; [reflexivity|]); cbn; (split; [auto|]);
        (split; [discriminate|discriminate]).
  - eexists; (split; [reflexivity|]); cbn; (split; [auto|]); split; reflexivity.
Qed.

(** X7.  No retries: the send handler calls the mail collaborator at most
    once per request, only after the summary has been rendered, never when
    it answers 400, and it never calls the completion service. *)
Theorem send_summary_calls :
  mail_calls (send_summary w req_body) ≤ 1
  ∧ groq_calls (send_summary w req_body) = 0
  ∧ (∀ resp, (send_summary w req_body).2 = Some resp → status resp = 400%Z →
     mail_calls (send_summary w req_body) = 0)
  ∧ ((render_html (ensureSummaryShape (js_or req_body?."summary" (JObj ∅)))).2 = None →
     mail_calls (send_summary w req_body) = 0).
Proof.
  rewrite send_summary_cases. cbv zeta. unfold mail_calls, groq_calls.
  destruct (truthy _).
  - destruct (render_html _).2 as [html|].
    + unfold mail_outcome.
      destruct (sendEmailHTML w _ (lit "Meeting Summary") html); cbn;
        (split; [lia|]); (split; [reflexivity|]);
        (split; [intros resp [= <-]; discriminate|discriminate]).
    + cbn. split; [lia|]. split; [reflexivity|]. split; [reflexivity|reflexivity].
  - cbn. split; [lia|]. split; [reflexivity|]. split; reflexivity.
Qed.
End SendAnswers.

(** ** The mail service behind the send handler *)

Section MailService.
Import EmailService.
Variable n : Nodemailer.


(** What [sendEmailHTML] resolves to, step by step. *)
Lemma sendEmailHTML_result (recipients : JsVal) (subject html textFallback : jsstring) :
  (sendEmailHTML n recipients subject html textFallback).2 =
    match createTestAccount n with
    | Some acct =>
        match join_recipients recipients with
        | Some to_header =>
            match sendMail n
                    {| host := lit "smtp.ethereal.email"; port := 587; secure := false;
                       auth := {| user := user acct; pass := pass acct |} |}
                    (message to_header subject html textFallback) with
            | Some info => if nullish info then None else Some (getTestMessageUrl n info)
            | None => None
            end
        | None => None
        end
    | None => None
    end.
Proof.
  unfold sendEmailHTML.
  destruct (createTestAccount n) as [acct|]; [|reflexivity]. rewrite bind_pure_some.
  destruct (join_recipients recipients) as [to_header|]; [|reflexivity].
  rewrite bind_pure_some.
  destruct (sendMail n _ _) as [info|]; [|reflexivity]. rewrite bind_pure_some.
  unfold dot. destruct (nullish info); reflexivity.
Qed.
End MailService.

(** X8.  With the mail service of [emailService.js] behind it, the send
    handler answers 500 whenever the recipients pass its validation without
    being an array, as a non-empty string does: the service cannot join
    them, whatever nodemailer would do. *)
Theorem send_summary_unjoinable_recipients
    (n : EmailService.Nodemailer) (w : Collaborators) (req_body : JsVal) :
  let recipients := js_or req_body?."recipients" (JArr []) in
  truthy recipients?."length" = true → isArray recipients = false →
  ∃ events, Server.send_summary (EmailService.wired n w) req_body
            = answers events 500 (error_body "Failed to send summary").
Proof.
  intros recipients Hlen Harr. rewrite send_summary_cases. cbv zeta. fold recipients.
  rewrite Hlen. destruct (Server.render_html _).2 as [html|]; [|now eexists].
  unfold mail_outcome, EmailService.wired. cbn [sendEmailHTML].
  rewrite sendEmailHTML_result.
  assert (Hj : EmailService.join_recipients recipients = None)
    by (destruct recipients; try reflexivity; discriminate).
  rewrite Hj. destruct (EmailService.createTestAccount n); now eexists.
Qed.

Lemma send_summary_unjoinable_recipients_witness :
  let n := {| EmailService.createTestAccount := None;
              EmailService.sendMail := fun _ _ => None;
              EmailService.getTestMessageUrl := fun _ => JUndefined |} in
  let req_body := send_request JNull (JStr (lit "a@example.com")) in
  truthy (js_or req_body?."recipients" (JArr []))?."length" = true
  ∧ ∃ events, Server.send_summary (EmailService.wired n working_mail) req_body
              = answers events 500 (error_body "Failed to send summary").
Proof.
  intros n req_body.
  assert (H : truthy (js_or req_body?."recipients" (JArr []))?."length" = true)
    by reflexivity.
  split; [exact H|].
  exact (send_summary_unjoinable_recipients n working_mail req_body H eq_refl).
Defined.



(** ** Splitting on one code unit *)

Section SplitUnit.
Variable sep : N.

Lemma split_unit_go_piece (p : jsstring) : ∀ cur rest, sep ∉ p →
  split_unit_go sep cur (p ++ rest) = split_unit_go sep (rev p ++ cur) rest.
Proof.
  induction p as [|c p IH]; intros cur rest Hp; [reflexivity|].
  apply not_elem_of_cons in Hp as [Hc Hp].
  cbn [app split_unit_go rev].
  replace (c =? sep)%N with false by (symmetry; apply N.eqb_neq; congruence).
  rewrite IH by exact Hp. now rewrite <- app_assoc.
Qed.

(** Splitting undoes gluing, as long as no piece holds the separator. *)
Lemma split_glue (ps : list jsstring) :
  ps ≠ [] → Forall (fun p => sep ∉ p) ps → split_unit sep (glue [sep] ps) = ps.
Proof.
  unfold split_unit. induction ps as [|p [|q ps] IH]; intros Hne Hall; [congruence| |].
  - apply Forall_cons in Hall as [Hp _].
    cbn [glue]. rewrite <- (app_nil_r p) at 1.
    rewrite split_unit_go_piece by exact Hp. cbn [split_unit_go].
    now rewrite app_nil_r, rev_involutive.
  - apply Forall_cons in Hall as [Hp Hall].
    cbn [glue]. rewrite split_unit_go_piece by exact Hp.
    cbn [app split_unit_go]. rewrite N.eqb_refl.
    rewrite app_nil_r, rev_involutive. f_equal. now apply IH.
Qed.

(** The pieces are made of the code units of the input. *)
Lemma split_unit_go_units (P : jschar → Prop) (s : jsstring) : ∀ cur,
  Forall P cur → Forall P s → Forall (Forall P) (split_unit_go sep cur s).
Proof.
  induction s as [|c s IH]; intros cur Hcur Hs.
  - repeat constructor. now apply Forall_rev.
  - apply Forall_cons in Hs as [Hc Hs]. cbn [split_unit_go].
    destruct (c =? sep)%N.
    + constructor; [now apply Forall_rev|]. now apply IH.
    + apply IH; [now constructor|exact Hs].
Qed.

(** No piece holds the separator. *)
Lemma split_unit_go_free (s : jsstring) : ∀ cur,
  sep ∉ cur → Forall (fun p => sep ∉ p) (split_unit_go sep cur s).
Proof.
  induction s as [|c s IH]; intros cur Hcur.
  - repeat constructor. intros Hin. apply Hcur.
    apply list_elem_of_In, in_rev. now apply list_elem_of_In.
  - cbn [split_unit_go]. destruct (N.eqb_spec c sep) as [->|Hc].
    + constructor.
      * intros Hin. apply Hcur. apply list_elem_of_In, in_rev. now apply list_elem_of_In.
      * apply IH. apply not_elem_of_nil.
    + apply IH. apply not_elem_of_cons. split; [congruence|exact Hcur].
Qed.
End SplitUnit.

(** ** The allow-list of origins *)

Section AllowList.
Import Cors.

Lemma blank_Forall (s : jsstring) : Forall (fun c => is_space c = true) s → blank s.
Proof. unfold blank. induction 1 as [|c s Hc _ IH]; [reflexivity|]. cbn. now rewrite Hc. Qed.

Lemma trim_and_drop_blank_all_blank (l : list jsstring) :
  Forall blank l → trim_and_drop_blank l = [].
Proof.
  induction 1 as [|s l Hs _ IH]; [reflexivity|].
  now rewrite trim_and_drop_blank_cons, trim_and_drop_blank_blank, IH.
Qed.

Lemma includes_elem_of (l : list jsstring) (o : jsstring) : includes l o = true ↔ o ∈ l.
Proof.
  unfold includes. rewrite existsb_exists. split.
  - intros (x & Hx & E). apply bool_decide_eq_true in E. subst. now apply list_elem_of_In.
  - intros H. exists o. split; [now apply list_elem_of_In|now apply bool_decide_eq_true].
Qed.
End AllowList.

(** X10.  The allow-list is the value of [FRONTEND_ORIGINS] cut at its
    commas, each entry trimmed and the blank entries dropped: for entries
    without commas, glued by commas, it is the entries trimmed without the
    blank ones.  Unset or empty, the list is empty; no entry of the list is
    ever empty or untrimmed. *)
Theorem allowlist_entries (entries : list jsstring) :
  Forall (fun e => 44%N ∉ e) entries →
  Cors.ALLOWLIST (Some (glue [44%N] entries)) = trim_and_drop_blank entries
  ∧ Cors.ALLOWLIST None = [] ∧ Cors.ALLOWLIST (Some []) = []
  ∧ ∀ v, Forall (fun e => trim e = e ∧ nonempty e = true) (Cors.ALLOWLIST v).
Proof.
  intros Hall. split; [|split; [reflexivity|split; [reflexivity|]]].
  - unfold Cors.ALLOWLIST, default, id. destruct entries as [|e es]; [reflexivity|].
    now rewrite split_glue.
  - intros v. apply trim_and_drop_blank_clean.
Qed.

Lemma allowlist_entries_witness :
  let entries := [lit " https://a.example "; []; lit "http://localhost:3000"] in
  Forall (fun e => 44%N ∉ e) entries
  ∧ Cors.ALLOWLIST (Some (glue [44%N] entries))
    = [lit "https://a.example"; lit "http://localhost:3000"].
Proof.
  intros entries.
  assert (H : Forall (fun e => 44%N ∉ e) entries).
  { repeat apply Forall_cons_2; try apply Forall_nil_2;
      apply (bool_decide_unpack _); vm_compute; exact I. }
  split; [exact H|].
  exact (proj1 (allowlist_entries entries H)).
Defined.

(** X11.  The origin callback lets a request through exactly when it has no
    (or an empty) [Origin] header, when the allow-list is empty, or when its
    origin is, unit for unit, an entry of the list.  A [FRONTEND_ORIGINS]
    made of commas and white space only gives an empty list and so lets
    every origin through. *)
Theorem origin_decision (env_FRONTEND_ORIGINS : option jsstring) (origin : option jsstring) :
  (Cors.origin_allowed (Cors.ALLOWLIST env_FRONTEND_ORIGINS) origin = true ↔
     origin = None ∨ origin = Some []
     ∨ Cors.ALLOWLIST env_FRONTEND_ORIGINS = []
     ∨ ∃ o, origin = Some o ∧ o ∈ Cors.ALLOWLIST env_FRONTEND_ORIGINS)
  ∧ (∀ s, env_FRONTEND_ORIGINS = Some s →
       Forall (fun c => c = 44%N ∨ is_space c = true) s →
       Cors.origin_allowed (Cors.ALLOWLIST env_FRONTEND_ORIGINS) origin = true).
Proof.
  assert (Hblank : ∀ s, Forall (fun c => c = 44%N ∨ is_space c = true) s →
                        Cors.ALLOWLIST (Some s) = []).
  { intros s Hs. unfold Cors.ALLOWLIST, default, id.
    apply trim_and_drop_blank_all_blank. unfold split_unit.
    pose proof (split_unit_go_units 44 _ s [] (Forall_nil_2 _) Hs) as Hu.
    pose proof (split_unit_go_free 44 s [] (not_elem_of_nil _)) as Hf.
    apply Forall_forall. intros p Hin.
    pose proof (proj1 (Forall_forall _ _) Hu p Hin) as Hp.
    pose proof (proj1 (Forall_forall _ _) Hf p Hin) as Hfp. cbv beta in Hfp.
    apply blank_Forall. clear -Hp Hfp. induction Hp as [|c p [->|Hc] _ IH].
    - constructor.
    - exfalso. apply Hfp. now left.
    - constructor; [exact Hc|]. apply IH. intros Hin. apply Hfp. now right. }
  split.
  - unfold Cors.origin_allowed.
    destruct origin as [[|c o]|]; [tauto| |tauto].
    destruct (Cors.ALLOWLIST env_FRONTEND_ORIGINS) as [|a l] eqn:E; [cbn; tauto|].
    cbn [length Nat.eqb]. rewrite <- E.
    destruct (includes (Cors.ALLOWLIST env_FRONTEND_ORIGINS) (c :: o)) eqn:Ei.
    + apply includes_elem_of in Ei. split; [|reflexivity]. intros _.
      right. right. right. now exists (c :: o).
    + split; [discriminate|]. intros [H|[H|[H|(o' & [= <-] & Hin)]]]; try discriminate.
      * rewrite E in H. discriminate.
      * apply includes_elem_of in Hin. congruence.
  - intros s -> Hs. rewrite (Hblank s Hs). now destruct origin as [[|]|].
Qed.

(** ** The mock path of the revision with explicit mock mode *)

Section StrictMock.
Import Server.

Lemma ensure_item_of_strings (o : JsVal) (p d : jsstring) :
  truthy o = true →
  ensure_item (action_item o (JStr p) (JStr d)) = action_item o (JStr p) (JStr d).
Proof.
  intros Ho. unfold ensure_item.
  rewrite action_item_owner, action_item_task, action_item_due.
  unfold js_or. rewrite Ho. now destruct p, d.
Qed.

Lemma owner_of_truthy (i : nat) : truthy (StrictServer.owner_of i) = true.
Proof.
  unfold StrictServer.owner_of, js_or.
  now destruct (truthy (nth i _ JUndefined)) eqn:E.
Qed.

Lemma imap_ensure_items {A} (f : nat → A → JsVal) (l : list A) :
  (∀ i p, ensure_item (f i p) = f i p) → List.map ensure_item (imap f l) = imap f l.
Proof.
  revert f. induction l as [|x l IH]; intros f Hf; [reflexivity|].
  cbn [imap List.map]. rewrite Hf. f_equal. apply IH. intros i p. apply Hf.
Qed.

Lemma imap_three {A B} (f : nat → A → B) (l : list A) :
  length l ≤ 3 →
  imap f l = zip_with (fun g p => g p) [f 0; f 1; f 2] l.
Proof.
  destruct l as [|a [|b [|c [|d l]]]]; cbn; intros H; try reflexivity. lia.
Qed.
End StrictMock.

(** X12.  The normalizer leaves the mock summary as the mock path built
    it, in the current revision and in the revision with explicit mock mode:
    the candidate is already a normalized Summary. *)
Theorem mock_candidate_normalized (transcript : jsstring) :
  Server.mock_summary transcript = Server.mock_candidate transcript
  ∧ StrictServer.mock_summary transcript = StrictServer.mock_candidate transcript.
Proof.
  split; [reflexivity|].
  unfold StrictServer.mock_summary. rewrite ensureSummaryShape_record.
  unfold StrictServer.mock_candidate. cbv zeta.
  rewrite summary_record_points, summary_record_decisions, summary_record_action_items.
  cbn [Frontend.safeArr Server.str_array].
  f_equal.
  - now destruct (existsb _ _).
  - f_equal. apply imap_ensure_items. intros i p.
    apply ensure_item_of_strings, owner_of_truthy.
Qed.

(** X13.  The points of the revision with explicit mock mode are at most
    eight lines of the transcript, in order, each trimmed and not blank, and
    none of them is an ellipsis line: the line ["..."] never becomes a
    point. *)
Theorem strict_mock_points (transcript : jsstring) :
  length (StrictServer.mock_points transcript) ≤ 8
  ∧ sublist (StrictServer.mock_points transcript) (Server.mock_lines transcript)
  ∧ Forall (fun p => trim p = p ∧ nonempty p = true
                     ∧ regex_test StrictServer.ellipsis_line p = false
                     ∧ p ≠ lit "...")
           (StrictServer.mock_points transcript).
Proof.
  unfold StrictServer.mock_points. split; [|split].
  - rewrite length_take. lia.
  - etransitivity; [apply sublist_take|].
    generalize (Server.mock_lines transcript) as l. intros l.
    induction l as [|x l IH]; [constructor|]. cbn [List.filter].
    destruct (negb _); now constructor.
  - apply Forall_take. unfold Server.mock_lines.
    pose proof (trim_and_drop_blank_clean
                  (split_regex Server.fragment_separator transcript)) as Hc.
    induction Hc as [|x l [Ht Hn] _ IH]; [constructor|]. cbn [List.filter].
    destruct (regex_test StrictServer.ellipsis_line x) eqn:E; cbn [negb]; [exact IH|].
    constructor; [|exact IH]. repeat split; try assumption.
    intros ->. vm_compute in E. discriminate.
Qed.

(** X14.  The action items of the revision with explicit mock mode are at
    most three; the first is owned by John, the second by Sarah and the third
    by Alex, so the fallback owner is never used; each task is a point that
    matches the action words, in the order of the points, and each due date
    is empty. *)
Theorem strict_mock_action_items (transcript : jsstring) :
  let tasks := take 3 (List.filter (regex_test StrictServer.action_words)
                         (StrictServer.mock_points transcript)) in
  (StrictServer.mock_summary transcript)?."action_items"
    = JArr (zip_with (fun owner task =>
                        Server.action_item (JStr (lit owner)) (JStr task) (JStr []))
              ["John"; "Sarah"; "Alex"]%string tasks)
  ∧ length tasks ≤ 3
  ∧ sublist tasks (StrictServer.mock_points transcript).
Proof.
  intros tasks. split; [|split].
  - unfold StrictServer.mock_summary.
    rewrite ensureSummaryShape_record, summary_record_action_items.
    unfold StrictServer.mock_candidate. cbv zeta. rewrite summary_record_action_items.
    cbn [Frontend.safeArr].
    rewrite imap_ensure_items
      by (intros i p; apply ensure_item_of_strings, owner_of_truthy).
    fold tasks. f_equal.
    assert (Hlen : length tasks ≤ 3) by (unfold tasks; rewrite length_take; lia).
    rewrite imap_three by exact Hlen.
    destruct tasks as [|a [|b [|c [|d l]]]]; reflexivity.
  - unfold tasks. rewrite length_take. lia.
  - unfold tasks. etransitivity; [apply sublist_take|].
    generalize (StrictServer.mock_points transcript) as l. intros l.
    induction l as [|x l IH]; [constructor|]. cbn [List.filter].
    destruct (regex_test _ x); now constructor.
Qed.

(** ** The page and the server together *)

Section PageAndServer.
Import Server.

Lemma ensure_item_payload (a : JsVal) : ensure_item (Page.payload_item a) = ensure_item a.
Proof.
  unfold ensure_item, Page.payload_item.
  rewrite action_item_owner, action_item_task, action_item_due.
  unfold js_or.
  destruct (truthy a?."owner") eqn:Eo, (truthy a?."task") eqn:Et,
    (truthy a?."due") eqn:Ed; cbn [truthy]; rewrite ?Eo, ?Et, ?Ed; reflexivity.
Qed.

Lemma ensureSummaryShape_or_empty (v : JsVal) :
  ensureSummaryShape (js_or v (JObj ∅)) = ensureSummaryShape v.
Proof.
  unfold js_or. destruct (truthy v) eqn:E; [reflexivity|].
  destruct v as [| | |n|s|l|m]; try discriminate; reflexivity.
Qed.

Lemma send_request_summary (summary recipients : JsVal) :
  (send_request summary recipients)?."summary" = summary.
Proof. unfold send_request, opt_get. now rewrite lookup_insert. Qed.

Lemma send_request_recipients (summary recipients : JsVal) :
  (send_request summary recipients)?."recipients" = recipients.
Proof.
  unfold send_request, opt_get.
  rewrite lookup_insert_ne by discriminate. now rewrite lookup_insert.
Qed.

Lemma payload_summary_normalized (summary payload : JsVal) :
  Page.payload_summary summary = Some payload →
  ensureSummaryShape payload = ensureSummaryShape summary.
Proof.
  unfold Page.payload_summary, dot. destruct (nullish summary); [discriminate|].
  cbn [mbind option_bind]. intros [= <-].
  rewrite !ensureSummaryShape_record.
  rewrite summary_record_points, summary_record_decisions, summary_record_action_items.
  cbn [Frontend.safeArr]. f_equal. f_equal.
  rewrite List.map_map. apply List.map_ext. intros a. apply ensure_item_payload.
Qed.
End PageAndServer.

Section PageGenerate.
Import Server.
Variables (cfg : Config) (w : Collaborators).

Lemma request_body_transcript (t i : jsstring) :
  (Page.request_body t i)?."transcript" = JStr t.
Proof. unfold Page.request_body, opt_get. now rewrite lookup_insert. Qed.

Lemma request_body_instruction (t i : jsstring) :
  (Page.request_body t i)?."instruction" = JStr i.
Proof.
  unfold Page.request_body, opt_get.
  rewrite lookup_insert_ne by discriminate. now rewrite lookup_insert.
Qed.

Lemma nonempty_trim (s : jsstring) : nonempty (trim s) = true → truthy (JStr s) = true.
Proof. now destruct s. Qed.

(** The page keeps a normalized summary as the server sent it. *)
Lemma page_reads_summary (backend : JsVal → Eff Response) (t i : jsstring)
    (events : list Event) (v : JsVal) :
  nonempty (trim t) = true → nonempty (trim i) = true →
  backend (Page.request_body t i) = answers events 200 (summary_body (ensureSummaryShape v)) →
  Page.generateSummary backend t i = Page.Done (ensureSummaryShape v).
Proof.
  intros Ht Hi Hb. unfold Page.generateSummary. rewrite Ht, Hi, Hb. cbn [negb orb].
  unfold Page.axios_post, answers. cbn [snd status body].
  change ((200 <=? 200)%Z && (200 <? 300)%Z) with true. cbv iota.
  replace ((JObj {[lit "data" := summary_body (ensureSummaryShape v)]})?."data"?."summary")
    with (ensureSummaryShape v)
    by (unfold summary_body, opt_get; now rewrite !lookup_singleton).
  rewrite ensureSummaryShape_record. unfold js_or.
  replace (truthy (summary_record _ _ _)) with true by reflexivity.
  now rewrite summary_record_points, summary_record_decisions, summary_record_action_items.
Qed.

Lemma page_reads_failure (backend : JsVal → Eff Response) (t i : jsstring)
    (events : list Event) (b : JsVal) :
  nonempty (trim t) = true → nonempty (trim i) = true →
  backend (Page.request_body t i) = answers events 500 b →
  Page.generateSummary backend t i = Page.Alert (lit "Failed to generate summary").
Proof.
  intros Ht Hi Hb. unfold Page.generateSummary. now rewrite Ht, Hi, Hb.
Qed.

Lemma page_request_answer (t i : jsstring) :
  nonempty (trim t) = true → nonempty (trim i) = true →
  generate_summary cfg w (Page.request_body t i) =
    if USE_MOCK cfg || negb (groq cfg) then answers [] 200 (summary_body (mock_summary t))
    else llm_outcome w (llm_request i t).
Proof.
  intros Ht Hi. rewrite generate_summary_cases. cbv zeta.
  rewrite request_body_transcript, request_body_instruction.
  rewrite (nonempty_trim _ Ht), (nonempty_trim _ Hi). reflexivity.
Qed.
End PageGenerate.

(** X15.  When neither the transcript nor the instruction is blank, the
    request the page posts is never answered 400 by the current server: it
    is answered 200 with a normalized summary, which becomes the state of the
    page unchanged, or 500, on which the page alerts.  In mock mode the
    state is the mock summary of the transcript. *)
Theorem page_generate_summary (cfg : Config) (w : Collaborators) (t i : jsstring) :
  nonempty (trim t) = true → nonempty (trim i) = true →
  let answer := Server.generate_summary cfg w (Page.request_body t i) in
  let shown := Page.generateSummary (Server.generate_summary cfg w) t i in
  ((∃ events v, answer = answers events 200 (Server.summary_body (Server.ensureSummaryShape v))
                ∧ shown = Page.Done (Server.ensureSummaryShape v))
   ∨ (∃ events b, answer = answers events 500 b
                  ∧ shown = Page.Alert (lit "Failed to generate summary")))
  ∧ (USE_MOCK cfg || negb (groq cfg) = true → shown = Page.Done (Server.mock_summary t)).
Proof.
  intros Ht Hi answer shown.
  pose proof (page_request_answer cfg w t i Ht Hi) as Ha. fold answer in Ha.
  assert (Hok : ∀ events v,
    answer = answers events 200 (Server.summary_body (Server.ensureSummaryShape v)) →
    shown = Page.Done (Server.ensureSummaryShape v))
    by (intros events v; apply page_reads_summary; assumption).
  assert (Hko : ∀ events b, answer = answers events 500 b →
    shown = Page.Alert (lit "Failed to generate summary"))
    by (intros events b; apply page_reads_failure; assumption).
  destruct (USE_MOCK cfg || negb (groq cfg)).
  - split.
    + left. exists [], (Server.mock_candidate t). split; [exact Ha|]. exact (Hok [] (Server.mock_candidate t) Ha).
    + intros _. exact (Hok [] (Server.mock_candidate t) Ha).
  - split; [|discriminate].
    unfold llm_outcome, generate_failed in Ha.
    destruct (groq_create w _) as [completion|]; [|right; eauto].
    destruct (Server.completion_text completion).2 as [text|]; [|right; eauto].
    destruct (JSON_parse w _) as [parsed|]; [left|right]; eauto.
Qed.

Lemma page_generate_summary_witness :
  let cfg := Server.config bare_env in
  let t := lit "Ship it. Demo on Friday." in
  let i := lit "Summarize" in
  nonempty (trim t) = true ∧ nonempty (trim i) = true
  ∧ Page.generateSummary (Server.generate_summary cfg working_mail) t i
    = Page.Done (Server.mock_summary t).
Proof.
  intros cfg t i.
  assert (Ht : nonempty (trim t) = true) by reflexivity.
  assert (Hi : nonempty (trim i) = true) by reflexivity.
  split; [exact Ht|]. split; [exact Hi|].
  exact (proj2 (page_generate_summary cfg working_mail t i Ht Hi) eq_refl).
Defined.

Section PageSend.
Import Server.

Lemma payload_summary_defined (summary : JsVal) :
  nullish summary = false → is_Some (Page.payload_summary summary).
Proof. intros H. unfold Page.payload_summary, dot. rewrite H. now eexists. Qed.

Lemma payload_summary_throws (summary : JsVal) :
  nullish summary = true → Page.payload_summary summary = None.
Proof. intros H. unfold Page.payload_summary, dot. now rewrite H. Qed.

Lemma sent_body_previewUrl (previewUrl : JsVal) :
  (sent_body previewUrl)?."previewUrl" = previewUrl.
Proof.
  unfold sent_body, opt_get.
  rewrite lookup_insert_ne by discriminate. now rewrite lookup_insert.
Qed.

Lemma axios_post_200 (events : list Event) (b : JsVal) :
  Page.axios_post (answers events 200 b) = Some (JObj {[ lit "data" := b ]}).
Proof. reflexivity. Qed.

Lemma axios_post_500 (events : list Event) (b : JsVal) :
  Page.axios_post (answers events 500 b) = None.
Proof. reflexivity. Qed.

Lemma response_data (b : JsVal) : (JObj {[ lit "data" := b ]})?."data" = b.
Proof. unfold opt_get. now rewrite lookup_singleton. Qed.
End PageSend.

(** X16.  What the page shows after [sendSummary] against the current
    server: nothing is posted without a recipient, so the server's 400 is
    never drawn; otherwise the mail carries the HTML of the normalized state
    of the page (the defaults the page puts on the action items change
    nothing), the preview locator of a delivered mail is shown, with the
    empty string for a falsy one, and every failure shows the error flag. *)
Theorem page_send_summary (w : Collaborators) (summary : JsVal) (recipients : jsstring) :
  Page.sendSummary (Server.send_summary w) summary recipients =
    match Page.recipientsArr recipients with
    | [] => Page.NotSent
    | to =>
        if nullish summary then Page.Error
        else shown_status w to (Server.render_html (Server.ensureSummaryShape summary)).2
    end.
Proof.
  unfold Page.sendSummary.
  destruct (Page.recipientsArr recipients) as [|r rs]; [reflexivity|].
  destruct (nullish summary) eqn:En; [now rewrite payload_summary_throws|].
  destruct (payload_summary_defined summary En) as [payload Hp]. rewrite Hp.
  rewrite (send_summary_with_recipients w _ (JStr r) (JStr <$> rs))
    by apply send_request_recipients.
  rewrite send_request_summary, ensureSummaryShape_or_empty.
  rewrite (payload_summary_normalized _ _ Hp).
  unfold shown_status.
  destruct (Server.render_html (Server.ensureSummaryShape summary)).2 as [html|];
    [|now rewrite axios_post_500].
  change (JArr (JStr r :: (JStr <$> rs))) with (Server.str_array (r :: rs)).
  destruct (sendEmailHTML w (Server.str_array (r :: rs)) (lit "Meeting Summary") html)
    as [previewUrl|]; [|now rewrite axios_post_500].
  now rewrite axios_post_200, response_data, sent_body_previewUrl.
Qed.

(** X17.  The summary the page puts in its payload is normalized by the
    current server to what the state of the page itself normalizes to: the
    server answers the request of the page as it would answer one carrying
    the state as it is. *)
Theorem page_payload_absorbed (w : Collaborators) (summary payload recipients : JsVal) :
  Page.payload_summary summary = Some payload →
  Server.ensureSummaryShape payload = Server.ensureSummaryShape summary
  ∧ Server.send_summary w (send_request payload recipients)
    = Server.send_summary w (send_request summary recipients).
Proof.
  intros Hp. pose proof (payload_summary_normalized _ _ Hp) as Hn. split; [exact Hn|].
  rewrite !send_summary_cases. cbv zeta.
  rewrite !send_request_summary, !send_request_recipients.
  now rewrite !ensureSummaryShape_or_empty, Hn.
Qed.

Lemma page_payload_absorbed_witness :
  let summary := JObj {[ lit "action_items" := JArr [JNull] ]} in
  let payload := Server.summary_record (JArr []) (JArr [])
                   (JArr [Server.action_item (JStr []) (JStr []) (JStr [])]) in
  Page.payload_summary summary = Some payload
  ∧ Server.ensureSummaryShape payload = Server.ensureSummaryShape summary.
Proof.
  intros summary payload.
  assert (H : Page.payload_summary summary = Some payload) by reflexivity.
  split; [exact H|].
  exact (proj1 (page_payload_absorbed working_mail summary payload JNull H)).
Defined.

(** ** The action items text area *)

Section ItemsText.

Lemma to_string_or_empty (s : jsstring) : to_string (js_or (JStr s) (JStr [])) = Some s.
Proof. now destruct s. Qed.

Lemma item_line_string (f : jsstring * jsstring * jsstring) :
  Page.item_line (string_item f) = Some (shown_line f).
Proof.
  unfold Page.item_line, string_item.
  rewrite action_item_owner, action_item_task, action_item_due.
  now rewrite !to_string_or_empty.
Qed.

Lemma items_text_strings (fs : list (jsstring * jsstring * jsstring)) :
  Page.items_text (JArr (string_item <$> fs)) = Some (join_lines (shown_line <$> fs)).
Proof.
  unfold Page.items_text. cbn [Frontend.safeArr].
  induction fs as [|f [|g fs] IH]; [reflexivity|apply item_line_string|].
  change (string_item <$> f :: g :: fs)
    with (string_item f :: string_item g :: (string_item <$> fs)).
  rewrite join_by_cons2, item_line_string.
  change (string_item g :: (string_item <$> fs)) with (string_item <$> g :: fs).
  now rewrite IH.
Qed.

Lemma shown_line_one_line (f : jsstring * jsstring * jsstring) :
  cells f → one_line (shown_line f).
Proof.
  intros ((_ & Ho) & (_ & Ht) & (_ & Hd)). unfold one_line, shown_line.
  rewrite !elem_of_app. intros [H|[H|[H|[H|H]]]]; try contradiction;
    apply list_elem_of_In in H; vm_compute in H; intuition discriminate.
Qed.

Lemma trim_padded (s : jsstring) : trim (32%N :: s ++ [32%N]) = trim s.
Proof.
  change (32%N :: s ++ [32%N]) with (([32%N] ++ s) ++ [32%N]).
  rewrite trim_snoc_space by reflexivity.
  now rewrite trim_app_blank_l.
Qed.

Lemma parse_shown_line (f : jsstring * jsstring * jsstring) :
  cells f → Page.parse_line (shown_line f) = trimmed_item f.
Proof.
  destruct f as [[o t] d]. intros ((Ho & _) & (Ht & _) & (Hd & _)). cbn [fst snd] in *.
  unfold Page.parse_line, shown_line, trimmed_item. cbn [fst snd].
  replace (o ++ lit " | " ++ t ++ lit " | " ++ d)
    with (glue [124%N] [o ++ [32%N]; 32%N :: t ++ [32%N]; 32%N :: d]).
  2:{ cbn [glue]. change (lit " | ") with [32%N; 124%N; 32%N].
      rewrite <- !app_assoc. cbn [app]. now rewrite <- !app_assoc. }
  rewrite split_glue; [|discriminate|].
  - cbn [List.map nth]. rewrite trim_snoc_space by reflexivity.
    rewrite trim_padded. change (32%N :: d) with ([32%N] ++ d).
    now rewrite trim_app_blank_l.
  - repeat apply Forall_cons_2; [| | |apply Forall_nil_2].
    + rewrite elem_of_app, elem_of_cons, elem_of_nil.
      intros [H|[H|[]]]; [tauto|discriminate].
    + rewrite elem_of_cons, elem_of_app, elem_of_cons, elem_of_nil.
      intros [H|[H|[H|[]]]]; [discriminate|tauto|discriminate].
    + rewrite elem_of_cons. intros [H|H]; [discriminate|tauto].
Qed.
End ItemsText.

(** X18.  Action items whose fields are strings without a bar or a line
    feed come back from the text area, when the displayed text is parsed
    unchanged, with each field trimmed and nothing else altered; an empty
    list of action items is displayed as the empty text, which is parsed as
    one item with three empty fields. *)
Theorem items_text_roundtrip (fs : list (jsstring * jsstring * jsstring)) :
  Forall cells fs →
  Page.edited_items <$> Page.items_text (JArr (string_item <$> fs))
    = Some (match fs with
            | [] => [string_item ([], [], [])]
            | _ => trimmed_item <$> fs
            end).
Proof.
  intros Hc. rewrite items_text_strings. cbn [fmap option_fmap option_map]. f_equal.
  unfold Page.edited_items. destruct fs as [|f fs]; [reflexivity|].
  rewrite split_join_lines.
  - rewrite <- list_fmap_compose. apply Forall_fmap_ext_1.
    eapply Forall_impl; [exact Hc|]. intros g Hg. now apply parse_shown_line.
  - discriminate.
  - apply Forall_fmap. eapply Forall_impl; [exact Hc|].
    intros g Hg. now apply shown_line_one_line.
Qed.

Lemma items_text_roundtrip_witness :
  let fs := [(lit " John", lit "Finish API integration ", lit "Friday");
             (lit "Sarah", [], lit "Wednesday")] in
  Forall cells fs
  ∧ Page.edited_items <$> Page.items_text (JArr (string_item <$> fs))
    = Some [string_item (lit "John", lit "Finish API integration", lit "Friday");
            string_item (lit "Sarah", [], lit "Wednesday")].
Proof.
  intros fs.
  assert (H : Forall cells fs).
  { repeat apply Forall_cons_2; [| |apply Forall_nil_2];
      repeat split; cbn [fst snd]; intros Hin; apply list_elem_of_In in Hin;
      vm_compute in Hin; intuition discriminate. }
  split; [exact H|]. exact (items_text_roundtrip fs H).
Defined.

(** ** The mock points in the text area *)

Section MockPointsEdited.
Import Server.

Lemma mock_lines_one_line (transcript : jsstring) : Forall one_line (mock_lines transcript).
Proof.
  rewrite mock_lines_refines. apply trim_and_drop_blank_one_line.
  apply (fragments_one_line (length transcript)); [lia|].
  unfold one_line. apply not_elem_of_nil.
Qed.

Lemma Forall_list_filter {A} (P : A → Prop) (f : A → bool) (l : list A) :
  Forall P l → Forall P (List.filter f l).
Proof.
  induction 1 as [|x l Hx _ IH]; [constructor|]. cbn [List.filter].
  destruct (f x); [now constructor|exact IH].
Qed.

Lemma strict_mock_summary_points (transcript : jsstring) :
  (StrictServer.mock_summary transcript)?."points"
    = str_array (StrictServer.mock_points transcript).
Proof.
  unfold StrictServer.mock_summary.
  rewrite ensureSummaryShape_record, summary_record_points.
  unfold StrictServer.mock_candidate. cbv zeta. now rewrite summary_record_points.
Qed.
End MockPointsEdited.

(** X19.  The points of a mock summary come back unchanged from the points
    text area, in the current revision (at most six points) and in the
    revision with explicit mock mode (at most eight): each point is one
    line, trimmed and not empty, which is all the text area asks for. *)
Theorem mock_points_survive_editing (transcript : jsstring) :
  Frontend.edit_cycle (Server.mock_summary transcript)?."points"
    = Some (Server.mock_points transcript)
  ∧ Frontend.edit_cycle (StrictServer.mock_summary transcript)?."points"
    = Some (StrictServer.mock_points transcript)
  ∧ length (Server.mock_points transcript) ≤ 6.
Proof.
  split; [apply mock_summary_survives_edit|]. split.
  - rewrite strict_mock_summary_points. unfold StrictServer.mock_points.
    rewrite edit_cycle_lines
      by apply Forall_take, Forall_list_filter, mock_lines_one_line.
    f_equal. apply trim_and_drop_blank_of_clean.
    apply Forall_take, Forall_list_filter. unfold Server.mock_lines.
    apply trim_and_drop_blank_clean.
  - unfold Server.mock_points. rewrite length_take. lia.
Qed.

(** ** The mock flag of the two revisions *)

(** X20.  The mock flag is on in the revision with explicit mock mode
    exactly when [USE_MOCK] is set to one of the words true, 1 and yes, in
    any letter case; the current revision has it on in these cases and also
    when [USE_MOCK] is unset or empty, and these are the only environments on
    which the two revisions disagree. *)
Theorem mock_flag_revisions (e : Env) :
  (USE_MOCK (StrictServer.config e) = true
     ↔ ∃ s, env_USE_MOCK e = Some s ∧ toLowerCase s ∈ mock_words)
  ∧ (USE_MOCK (Server.config e) = true
     ↔ env_USE_MOCK e = None ∨ env_USE_MOCK e = Some []
       ∨ USE_MOCK (StrictServer.config e) = true)
  ∧ (USE_MOCK (Server.config e) ≠ USE_MOCK (StrictServer.config e)
     ↔ env_USE_MOCK e = None ∨ env_USE_MOCK e = Some []).
Proof.
  unfold Server.config, StrictServer.config. cbn [USE_MOCK].
  unfold Server.parseBool, StrictServer.parseBool. fold mock_words.
  destruct (env_USE_MOCK e) as [[|c s]|].
  - split; [|split].
    + split; [discriminate|]. intros (s & [= <-] & Hin).
      apply includes_elem_of in Hin. discriminate.
    + split; auto.
    + split; auto; intros _; discriminate.
  - split; [|split].
    + rewrite includes_elem_of. split; [intros H; now exists (c :: s)|].
      now intros (s' & [= <-] & Hin).
    + split; [auto|]. now intros [H|[H|H]].
    + split; [congruence|]. now intros [H|H].
  - split; [|split].
    + split; [discriminate|]. now intros (s & H & _).
    + split; auto.
    + split; auto; intros _; discriminate.
Qed.

(** ** The text alternative of a mail *)

Section StripTags.
Import EmailService.

Lemma exec_tag_other (q : nat) (c : N) (rest : jsstring) :
  c ≠ 60%N → regex_exec tag (q, c :: rest) = None.
Proof.
  intros Hc. unfold regex_exec, tag. cbn [rmatch]. rewrite step_if_cons.
  destruct (N.eqb_spec 60 c) as [E|_]; [congruence|reflexivity].
Qed.

Lemma exec_tag_end (q : nat) : regex_exec tag (q, []) = None.
Proof. reflexivity. Qed.

(** The greedy run of [[^>]+] stops in front of the first [>]. *)
Lemma iterate_run (name : jsstring) : ∀ fuel pos (rest : jsstring),
  62%N ∉ name → length name < fuel →
  ∃ others,
    iterate (step_if is_not_gt) fuel (pos, name ++ 62%N :: rest)
      = (length name + pos, 62%N :: rest)%nat :: others.
Proof.
  induction name as [|x name IH]; intros fuel pos rest Hn Hf.
  - destruct fuel; [simpl in Hf; lia|]. cbn [iterate app]. rewrite step_if_cons.
    cbn [flat_map app length]. now eexists.
  - destruct fuel as [|fuel]; [simpl in Hf; lia|]. cbn [length] in Hf.
    apply not_elem_of_cons in Hn as [Hx Hn].
    cbn [iterate app]. rewrite step_if_cons.
    replace (is_not_gt x) with true
      by (symmetry; unfold is_not_gt; apply negb_true_iff, N.eqb_neq; congruence).
    cbn [flat_map]. rewrite (advanced_S pos _ _ 0).
    destruct (IH fuel (S pos) rest Hn) as [others Ho]; [lia|].
    rewrite Ho. cbn [length]. replace (S (length name) + pos)%nat
      with (length name + S pos)%nat by lia.
    now eexists.
Qed.

Lemma exec_tag (q : nat) (name rest : jsstring) :
  name ≠ [] → 62%N ∉ name →
  regex_exec tag (q, 60%N :: name ++ 62%N :: rest)
    = Some (S (S (length name + q)), rest).
Proof.
  intros Hne Hn. destruct name as [|x name]; [congruence|].
  apply not_elem_of_cons in Hn as [Hx Hn].
  unfold regex_exec, tag. cbn [rmatch]. rewrite step_if_cons.
  change (60 =? 60)%N with true. cbn [flat_map app]. rewrite step_if_cons.
  replace (is_not_gt x) with true
    by (symmetry; unfold is_not_gt; apply negb_true_iff, N.eqb_neq; congruence).
  cbn [flat_map snd]. rewrite !app_nil_r.
  change (λ st : cursor, step_if is_not_gt st) with (step_if is_not_gt).
  destruct (iterate_run name (S (length (x :: name ++ 62%N :: rest))) (S (S q)) rest Hn)
    as [others Ho]; [cbn [length]; rewrite length_app; lia|].
  rewrite Ho. cbn [flat_map]. rewrite step_if_cons.
  change (62 =? 62)%N with true. cbn [app head length]. do 2 f_equal. lia.
Qed.

Lemma remove_text (s : jsstring) : ∀ fuel q (rest : jsstring),
  60%N ∉ s →
  remove_all_go tag (length s + fuel) q (s ++ rest)
    = s ++ remove_all_go tag fuel (length s + q) rest.
Proof.
  induction s as [|c s IH]; intros fuel q rest Hs; [reflexivity|].
  apply not_elem_of_cons in Hs as [Hc Hs].
  cbn [length Nat.add app remove_all_go]. rewrite exec_tag_other by congruence.
  rewrite IH by exact Hs.
  now replace (length s + S q)%nat with (S (length s + q)) by lia.
Qed.

Lemma remove_markup (ps : list piece) : ∀ fuel q,
  Forall piece_ok ps → length (markup ps) < fuel →
  remove_all_go tag fuel q (markup ps) = text_of ps.
Proof.
  induction ps as [|p ps IH]; intros fuel q Hok Hf.
  - destruct fuel; [simpl in Hf; lia|]. reflexivity.
  - apply Forall_cons in Hok as [Hp Hok].
    unfold markup, text_of in *. cbn [fmap list_fmap concat] in *.
    rewrite length_app in Hf. destruct p as [s|name]; cbn [piece_source piece_text] in *.
    + replace fuel with (length s + (fuel - length s))%nat by lia.
      rewrite remove_text by exact Hp. f_equal. apply IH; [exact Hok|lia].
    + destruct Hp as [Hne Hn]. destruct fuel as [|fuel]; [lia|].
      cbn [length] in Hf. rewrite length_app in Hf. cbn [length] in Hf.
      cbn [app]. rewrite <- app_assoc. cbn [app remove_all_go].
      rewrite exec_tag by assumption.
      replace (S (S (length name + q)) =? q)%nat with false
        by (symmetry; apply Nat.eqb_neq; lia).
      apply IH; [exact Hok|lia].
Qed.
End StripTags.

(** X21.  The text alternative of a mail: from a marked-up text, whose
    runs of text hold no [<] and whose tags are a [<], a non-empty name
    without [>] and a [>], the replacement removes exactly the tags and
    leaves the runs of text as they are, joined with nothing between them. *)
Theorem strip_tags_markup (ps : list piece) :
  Forall piece_ok ps → EmailService.strip_tags (markup ps) = text_of ps.
Proof.
  intros Hok. unfold EmailService.strip_tags, remove_all.
  apply remove_markup; [exact Hok|lia].
Qed.

Lemma strip_tags_markup_witness :
  let ps := [Tag (lit "h4"); Text (lit "Key Points"); Tag (lit "/h4"); Tag (lit "ul");
             Tag (lit "li"); Text (lit "a > b"); Tag (lit "/li"); Tag (lit "/ul")] in
  Forall piece_ok ps
  ∧ EmailService.strip_tags (lit "<h4>Key Points</h4><ul><li>a > b</li></ul>")
    = lit "Key Pointsa > b".
Proof.
  intros ps.
  assert (H : Forall piece_ok ps).
  { repeat apply Forall_cons_2; try apply Forall_nil_2; cbn [piece_ok];
      try (split; [discriminate|]); intros Hin; apply list_elem_of_In in Hin;
      vm_compute in Hin; intuition discriminate. }
  split; [exact H|]. exact (strip_tags_markup ps H).
Defined.

(** ** Code fences around a completion *)

Section CodeFence.
Import Server.

Lemma flat_map_none {A B} (f : A → list B) (l : list A) :
  Forall (fun x => f x = []) l → flat_map f l = [].
Proof. induction 1 as [|x l Hx _ IH]; [reflexivity|]. cbn [flat_map]. now rewrite Hx, IH. Qed.

(** Every cursor of [\s*] has skipped white space only. *)
Lemma iterate_cursors (fuel : nat) : ∀ pos (s : jsstring),
  Forall (fun st' : cursor => ∃ W, blank W ∧ s = W ++ st'.2)
         (iterate (step_if is_space) fuel (pos, s)).
Proof.
  induction fuel as [|fuel IH]; intros pos s.
  - repeat constructor. now exists [].
  - cbn [iterate]. apply Forall_app. split; [|repeat constructor; now exists []].
    destruct s as [|c t]; [constructor|]. rewrite step_if_cons.
    destruct (is_space c) eqn:Ec; [|constructor].
    cbn [flat_map]. rewrite app_nil_r. destruct (advanced _ _); [|constructor].
    eapply Forall_impl; [apply IH|]. intros st' (W & HW & ->).
    exists (c :: W). split; [now apply blank_cons|reflexivity].
Qed.

Lemma fence_needs_backtick (q : nat) (s : jsstring) (r : regex) :
  (∀ t, s ≠ 96%N :: t) → rmatch (RSeq (RChar 96) r) (q, s) = [].
Proof.
  intros H. cbn [rmatch]. destruct s as [|c t]; [reflexivity|]. rewrite step_if_cons.
  destruct (N.eqb_spec 96 c) as [<-|_]; [now destruct (H t)|reflexivity].
Qed.

Lemma trimStart_backtick (t : jsstring) : trimStart (96%N :: t) = 96%N :: t.
Proof. reflexivity. Qed.

(** No match of the fence expression starts in front of text whose first
    code unit after the white space is not a backtick. *)
Lemma exec_fence_none (q : nat) (s : jsstring) :
  (∀ t, trimStart s ≠ 96%N :: t) → regex_exec code_fence (q, s) = None.
Proof.
  intros H. unfold regex_exec, code_fence.
  change (rmatch (RAlt ?a ?b) ?st) with (rmatch a st ++ rmatch b st).
  replace (rmatch (RSeq RBol _) (q, s)) with (@nil cursor).
  2:{ symmetry. change (rmatch (RSeq RBol ?r) ?st)
        with (flat_map (rmatch r) (rmatch RBol st)).
      cbn [rmatch fst]. destruct (q =? 0)%nat; [|reflexivity].
      cbn [flat_map]. rewrite app_nil_r.
      change (rstr "```json") with (RSeq (RChar 96) (rstr "``json")).
      change (rmatch (RSeq (RSeq ?a ?b) ?c) ?st)
        with (flat_map (rmatch c) (rmatch (RSeq a b) st)).
      rewrite fence_needs_backtick; [reflexivity|].
      intros t ->. now apply (H t). }
  cbn [app].
  change (rmatch (RSeq (RStar ?a) ?b) ?st)
    with (flat_map (rmatch b) (iterate (rmatch a) (S (length st.2)) st)).
  change (rmatch (RSet is_space)) with (step_if is_space).
  rewrite flat_map_none; [reflexivity|].
  eapply Forall_impl; [apply iterate_cursors|].
  intros [p' s'] (W & HW & Hs). cbn [snd] in Hs.
  change (rstr "```") with (RSeq (RChar 96) (rstr "``")).
  change (rmatch (RSeq (RSeq ?a ?b) ?c) ?st)
    with (flat_map (rmatch c) (rmatch (RSeq a b) st)).
  rewrite fence_needs_backtick; [reflexivity|].
  intros t ->. apply (H t). rewrite Hs. now rewrite trimStart_app_blank.
Qed.

Lemma trimStart_app_head (x tail : jsstring) (c : N) (t : jsstring) :
  trimStart (x ++ tail) = c :: t → c ∈ x ∨ (blank x ∧ trimStart tail = c :: t).
Proof.
  induction x as [|a x IH]; [intros H; right; now split|].
  cbn [app trimStart]. destruct (is_space a) eqn:Ea.
  - intros H. destruct (IH H) as [Hin|[Hb Ht]]; [left; now right|].
    right. split; [now apply blank_cons|exact Ht].
  - intros [= <- _]. left. now left.
Qed.

(** A text that does not end with white space. *)
Lemma ends_solid_tail (c : N) (x : jsstring) :
  x ≠ [] → (∀ l t, rev (c :: x) = l :: t → is_space l = false) →
  ∀ l t, rev x = l :: t → is_space l = false.
Proof.
  intros _ H l t Hr. apply (H l (t ++ [c])). cbn [rev]. now rewrite Hr.
Qed.

Lemma ends_solid_not_blank (x : jsstring) :
  x ≠ [] → (∀ l t, rev x = l :: t → is_space l = false) → ¬ blank x.
Proof.
  intros Hne H Hb. apply blank_rev in Hb.
  destruct (rev x) as [|l t] eqn:E.
  - apply (f_equal (@rev N)) in E. rewrite rev_involutive in E. now apply Hne.
  - unfold blank in Hb. cbn [forallb] in Hb. apply andb_true_iff in Hb as [Hl _].
    rewrite (H l t eq_refl) in Hl. discriminate.
Qed.

(** The replacement keeps text without backticks, as long as no closing
    fence can be reached through its trailing white space. *)
Lemma remove_keep (x : jsstring) : ∀ fuel q (tail : jsstring),
  96%N ∉ x →
  (∀ l t, rev x = l :: t → is_space l = false) ∨ tail = [] →
  remove_all_go code_fence (length x + fuel) q (x ++ tail)
    = x ++ remove_all_go code_fence fuel (length x + q) tail.
Proof.
  induction x as [|c x IH]; intros fuel q tail Hx Hend; [reflexivity|].
  apply not_elem_of_cons in Hx as Hx'. destruct Hx' as [Hc Hx'].
  cbn [length Nat.add app remove_all_go].
  rewrite exec_fence_none.
  - rewrite IH.
    + now replace (length x + S q)%nat with (S (length x + q)) by lia.
    + exact Hx'.
    + destruct Hend as [Hend|Hend]; [|now right].
      destruct x as [|a x]; [left; intros l t; discriminate|].
      left. now apply (ends_solid_tail c).
  - intros t Ht.
    destruct (trimStart_app_head (c :: x) tail 96 t Ht) as [Hin|[Hb Htail]];
      [contradiction|].
    destruct Hend as [Hend| ->]; [|discriminate].
    now apply (ends_solid_not_blank (c :: x)).
Qed.

Lemma remove_done (fuel q : nat) : remove_all_go code_fence fuel q [] = [].
Proof.
  destruct fuel; [reflexivity|]. cbn [remove_all_go].
  now rewrite exec_fence_none.
Qed.

(** The opening fence with the white space after it, at the start. *)
Lemma exec_opening (ws rest : jsstring) :
  blank ws → (∀ c t, rest = c :: t → is_space c = false) →
  ∃ e, 0 < e ∧
    regex_exec code_fence (0, lit "```json" ++ ws ++ rest)%nat = Some (e, rest).
Proof.
  intros Hws Hrest. unfold regex_exec, code_fence.
  change (lit "```json") with [96; 96; 96; 106; 115; 111; 110]%N.
  change (rstr "```json")
    with (RSeq (RChar 96) (RSeq (RChar 96) (RSeq (RChar 96) (RSeq (RChar 106)
           (RSeq (RChar 115) (RSeq (RChar 111) (RSeq (RChar 110) REps))))))).
  change (rmatch (RAlt ?a ?b) ?st) with (rmatch a st ++ rmatch b st).
  change (rmatch (RSeq RBol ?r) ?st) with (flat_map (rmatch r) (rmatch RBol st)).
  cbn [rmatch fst Nat.eqb flat_map app].
  repeat (rewrite step_if_cons; cbn [N.eqb Pos.eqb flat_map app]).
  cbn [snd]. rewrite !app_nil_r.
  change (λ st : cursor, step_if is_space st) with (step_if is_space).
  destruct (iterate_spaces (ws ++ rest) (S (length (ws ++ rest))) 7) as (e & He & Hh);
    [lia|].
  assert (Ht : trimStart (ws ++ rest) = rest).
  { rewrite trimStart_app_blank by exact Hws. destruct rest as [|c t]; [reflexivity|].
    cbn [trimStart]. now rewrite (Hrest c t eq_refl). }
  rewrite Ht in Hh. exists e. split; [lia|].
  destruct (iterate (step_if is_space) _ _) as [|st l]; [discriminate|].
  cbn [head] in Hh. injection Hh as ->. reflexivity.
Qed.

(** The closing fence with the white space in front of it, at the end. *)
Lemma exec_closing (q : nat) (ws : jsstring) :
  blank ws → q ≠ 0%nat →
  ∃ e, q < e ∧ regex_exec code_fence (q, ws ++ lit "```") = Some (e, []).
Proof.
  intros Hws Hq. unfold regex_exec, code_fence.
  change (rmatch (RAlt ?a ?b) ?st) with (rmatch a st ++ rmatch b st).
  change (rmatch (RSeq RBol ?r) ?st) with (flat_map (rmatch r) (rmatch RBol st)).
  cbn [rmatch fst]. replace (q =? 0)%nat with false by (symmetry; now apply Nat.eqb_neq).
  cbn [flat_map app snd].
  change (λ st : cursor, step_if is_space st) with (step_if is_space).
  destruct (iterate_spaces (ws ++ lit "```") (S (length (ws ++ lit "```"))) q)
    as (e & He & Hh); [lia|].
  rewrite trimStart_app_blank in Hh by exact Hws.
  destruct (iterate (step_if is_space) _ _) as [|st l]; [discriminate|].
  cbn [head] in Hh. injection Hh as ->. exists (S (S (S e))). split; [lia|].
  cbn [flat_map]. change (trimStart (lit "```")) with [96; 96; 96]%N.
  change (rstr "```") with (RSeq (RChar 96) (RSeq (RChar 96) (RSeq (RChar 96) REps))).
  cbn [rmatch flat_map app].
  repeat (rewrite step_if_cons; cbn [N.eqb Pos.eqb flat_map app]).
  reflexivity.
Qed.

Lemma length_trimStart (s : jsstring) : length (trimStart s) ≤ length s.
Proof.
  induction s as [|c s IH]; [reflexivity|]. cbn [trimStart].
  destruct (is_space c); cbn [length]; lia.
Qed.

Lemma trim_fixed_ends (s : jsstring) :
  trim s = s →
  (∀ c t, s = c :: t → is_space c = false)
  ∧ (∀ l t, rev s = l :: t → is_space l = false).
Proof.
  intros Hs. split.
  - intros c t ->. destruct (is_space c) eqn:Ec; [|reflexivity]. exfalso.
    apply (f_equal (@length N)) in Hs. unfold trim, trimEnd in Hs.
    rewrite length_rev in Hs. cbn [trimStart] in Hs. rewrite Ec in Hs.
    pose proof (length_trimStart (rev (trimStart t))) as H1.
    rewrite length_rev in H1. pose proof (length_trimStart t) as H2.
    cbn [length] in Hs. lia.
  - intros l t Hr. rewrite <- Hs in Hr. unfold trim, trimEnd in Hr.
    rewrite rev_involutive in Hr. now apply trimStart_head_solid in Hr.
Qed.
End CodeFence.

Lemma fence_opened_and_closed (ws body ws' : jsstring) :
  blank ws → blank ws' → 96%N ∉ body → body ≠ [] →
  (∀ c t, body = c :: t → is_space c = false) →
  (∀ l t, rev body = l :: t → is_space l = false) →
  remove_all Server.code_fence (lit "```json" ++ ws ++ body ++ ws' ++ lit "```") = body.
Proof.
  intros Hws Hws' Hfree Hne Hhead Hlast.
  unfold remove_all. cbn [remove_all_go].
  destruct (exec_opening ws (body ++ ws' ++ lit "```") Hws) as (e & He & Hx).
  { intros c t Hb. destruct body as [|b body']; [congruence|].
    cbn [app] in Hb. injection Hb as -> _. exact (Hhead c body' eq_refl). }
  rewrite Hx. replace (e =? 0)%nat with false by (symmetry; apply Nat.eqb_neq; lia).
  rewrite !length_app.
  replace (length (lit "```json") + (length ws + (length body + (length ws' + length (lit "```")))))%nat
    with (length body + S (length (lit "```json") + length ws + length ws' + 2))%nat
    by (cbn [length lit]; change (length (lit "```")) with 3%nat; lia).
  rewrite remove_keep by (try exact Hfree; now left).
  cbn [remove_all_go].
  destruct (exec_closing (length body + e) ws' Hws') as (e' & He' & Hx'); [lia|].
  rewrite Hx'.
  replace (e' =? length body + e)%nat with false by (symmetry; apply Nat.eqb_neq; lia).
  rewrite remove_done. apply app_nil_r.
Qed.

Lemma fence_free_kept (body : jsstring) :
  96%N ∉ body → remove_all Server.code_fence body = body.
Proof.
  intros Hfree. unfold remove_all.
  replace (S (length body)) with (length body + 1)%nat by lia.
  replace body with (body ++ []) at 2 by apply app_nil_r.
  rewrite remove_keep by (try exact Hfree; now right).
  rewrite remove_done. now rewrite app_nil_r.
Qed.

(** X22.  A completion wrapped in a JSON code fence is unwrapped: from the
    opening fence, white space, a trimmed non-empty text without backticks,
    white space and the closing fence, the replacement leaves exactly the
    text.  A text without backticks is left as it is. *)
Theorem code_fence_unwrapped (ws body ws' : jsstring) :
  blank ws → blank ws' → 96%N ∉ body → body ≠ [] → trim body = body →
  remove_all Server.code_fence (lit "```json" ++ ws ++ body ++ ws' ++ lit "```") = body
  ∧ remove_all Server.code_fence body = body.
Proof.
  intros Hws Hws' Hfree Hne Htrim.
  destruct (trim_fixed_ends body Htrim) as [Hhead Hlast]. split.
  - now apply fence_opened_and_closed.
  - now apply fence_free_kept.
Qed.

Lemma code_fence_unwrapped_witness :
  let body := lit "{'points':['Ship it'],'decisions':[]}" in
  blank [10%N] ∧ (96%N ∉ body) ∧ body ≠ [] ∧ trim body = body
  ∧ remove_all Server.code_fence (lit "```json" ++ [10%N] ++ body ++ [10%N] ++ lit "```")
    = body.
Proof.
  intros body.
  assert (Hb : blank [10%N]) by reflexivity.
  assert (Hf : 96%N ∉ body)
    by (intros Hin; apply list_elem_of_In in Hin; vm_compute in Hin; intuition discriminate).
  assert (Hn : body ≠ []) by discriminate.
  assert (Ht : trim body = body) by reflexivity.
  split; [exact Hb|]. split; [exact Hf|]. split; [exact Hn|]. split; [exact Ht|].
  exact (proj1 (code_fence_unwrapped [10%N] body [10%N] Hb Hb Hf Hn Ht)).
Defined.

(** X23.  End to end on the completion path: when the service returns a
    completion whose content, once trimmed, is a JSON code fence around a
    text that [JSON.parse] accepts, the handler parses exactly that text and
    answers 200 with the parsed value normalized. *)
Theorem fenced_completion_accepted (cfg : Config) (w : Collaborators) (req_body : JsVal)
    (transcript instruction : jsstring) (completion parsed : JsVal)
    (content ws body ws' : jsstring) :
  valid_request req_body transcript instruction →
  USE_MOCK cfg = false → groq cfg = true →
  groq_create w (llm_request instruction transcript) = Some completion →
  nullish completion = false →
  (opt_first completion?."choices")?."message"?."content" = JStr content →
  trim content = lit "```json" ++ ws ++ body ++ ws' ++ lit "```" →
  blank ws → blank ws' → 96%N ∉ body → body ≠ [] → trim body = body →
  JSON_parse w body = Some parsed →
  Server.generate_summary cfg w req_body
    = answers [GroqCreate (llm_request instruction transcript)] 200
        (Server.summary_body (Server.ensureSummaryShape parsed)).
Proof.
  intros Hv Hf Hk Hc Hn Hcontent Htrim Hws Hws' Hfree Hne Hbody Hparse.
  apply (completion_path_parsed cfg w req_body transcript instruction Hv Hf Hk
           completion parsed (trim content) Hc).
  - unfold Server.completion_text, dot. rewrite Hn, bind_pure_some, Hcontent.
    rewrite Htrim. reflexivity.
  - rewrite Htrim.
    destruct (trim_fixed_ends body Hbody) as [Hhead Hlast].
    now rewrite fence_opened_and_closed.
Qed.

Lemma fenced_completion_accepted_witness :
  let cfg := {| USE_MOCK := false; groq := true; GROQ_MODEL := None |} in
  let body := lit "{}" in
  let content := [10%N] ++ lit "```json" ++ [10%N] ++ body ++ [10%N] ++ lit "```" ++ [32%N] in
  let completion :=
    JObj {[ lit "choices" :=
              JArr [JObj {[ lit "message" := JObj {[ lit "content" := JStr content ]} ]}] ]} in
  let w := {| groq_create := fun _ => Some completion;
              sendEmailHTML := fun _ _ _ => None;
              JSON_parse := fun s => if bool_decide (s = body) then Some (JObj ∅) else None |} in
  let req_body := generate_request "Line one. Line two." "summarize" in
  valid_request req_body (lit "Line one. Line two.") (lit "summarize")
  ∧ Server.generate_summary cfg w req_body
      = answers [GroqCreate (llm_request (lit "summarize") (lit "Line one. Line two."))] 200
          (Server.summary_body (Server.ensureSummaryShape (JObj ∅))).
Proof.
  intros cfg body content completion w req_body.
  assert (H : valid_request req_body (lit "Line one. Line two.") (lit "summarize"))
    by (repeat split; discriminate).
  split; [exact H|].
  refine (fenced_completion_accepted cfg w req_body _ _ completion (JObj ∅)
            content [10%N] body [10%N] H eq_refl eq_refl eq_refl eq_refl eq_refl
            eq_refl eq_refl eq_refl _ _ eq_refl eq_refl).
  - intros Hin. apply list_elem_of_In in Hin. vm_compute in Hin. intuition discriminate.
  - discriminate.
Defined.

(** ** The completion path of the revision with explicit mock mode *)

(** X24.  On its completion path the revision with explicit mock mode
    logs the mode, calls the service once with the configured model (the
    default one when [GROQ_MODEL] is unset or empty) and answers 500 when the
    service fails, 502, not 500, when the text of the completion does not
    parse, and 200 with the parsed value normalized otherwise. *)
Theorem strict_completion_outcomes (cfg : Config) (w : Collaborators) (req_body : JsVal)
    (transcript instruction : jsstring) :
  valid_request req_body transcript instruction →
  USE_MOCK cfg = false → groq cfg = true →
  let req := strict_request cfg instruction transcript in
  let mode := ConsoleLog (lit "[generate-summary] MODE=groq") in
  StrictServer.generate_summary cfg w req_body =
    match groq_create w req with
    | None =>
        answers [mode; GroqCreate req; ConsoleError (lit "generate-summary error:")] 500
          (error_body "Failed to generate summary (server error)")
    | Some completion =>
        match (Server.completion_text completion).2 with
        | None =>
            answers [mode; GroqCreate req; ConsoleError (lit "generate-summary error:")] 500
              (error_body "Failed to generate summary (server error)")
        | Some text =>
            match JSON_parse w (remove_all Server.code_fence text) with
            | Some parsed =>
                answers [mode; GroqCreate req] 200
                  (Server.summary_body (Server.ensureSummaryShape parsed))
            | None =>
                answers [mode; GroqCreate req;
                         ConsoleError (lit "Groq returned invalid JSON:")] 502
                  (error_body "Groq returned invalid JSON")
            end
        end
    end
  ∧ (model req = lit "llama-3.1-8b-instant"
     ↔ GROQ_MODEL cfg = None ∨ GROQ_MODEL cfg = Some []
       ∨ GROQ_MODEL cfg = Some (lit "llama-3.1-8b-instant"))
  ∧ (∀ m, m ≠ [] → GROQ_MODEL cfg = Some m → model req = m).
Proof.
  intros Hv Hm Hg req mode. split; [|split].
  - unfold StrictServer.generate_summary. cbv zeta.
    rewrite (valid_passes_validation req_body transcript instruction Hv), Hm, Hg.
    destruct Hv as (Ht & Hi & _).
    rewrite body_or_empty_transcript, body_or_empty_instruction, Ht, Hi.
    cbn [to_string negb]. rewrite bind_emit, !bind_pure_some, bind_emit.
    fold (strict_request cfg instruction transcript). fold req.
    destruct (groq_create w req) as [completion|]; [|reflexivity].
    rewrite bind_pure_some.
    pose proof (completion_text_silent completion) as Hs.
    destruct (Server.completion_text completion) as [tr [text|]]; cbn [fst snd] in *;
      subst tr; [|reflexivity].
    change (([], Some text) : Eff jsstring) with (try_pure (Some text)).
    rewrite bind_pure_some.
    destruct (JSON_parse w (remove_all Server.code_fence text)); reflexivity.
  - unfold req, strict_request, StrictServer.model_name. cbn [model].
    destruct (GROQ_MODEL cfg) as [[|c m]|].
    + split; auto.
    + split; [intros H; right; right; now rewrite H|].
      intros [H|[H|H]]; try discriminate. congruence.
    + split; auto.
  - intros m Hne Hgm. unfold req, strict_request, StrictServer.model_name. cbn [model].
    rewrite Hgm. destruct m; [congruence|reflexivity].
Qed.

Lemma strict_completion_outcomes_witness :
  let cfg := {| USE_MOCK := false; groq := true; GROQ_MODEL := Some (lit "llama-3.3-70b") |} in
  let req_body := generate_request "Line one. Line two." "summarize" in
  let w := {| groq_create := fun _ => Some (JObj ∅);
              sendEmailHTML := fun _ _ _ => None;
              JSON_parse := fun _ => None |} in
  let req := strict_request cfg (lit "summarize") (lit "Line one. Line two.") in
  valid_request req_body (lit "Line one. Line two.") (lit "summarize")
  ∧ StrictServer.generate_summary cfg w req_body
      = answers [ConsoleLog (lit "[generate-summary] MODE=groq"); GroqCreate req;
                 ConsoleError (lit "Groq returned invalid JSON:")] 502
          (error_body "Groq returned invalid JSON")
  ∧ model req = lit "llama-3.3-70b".
Proof.
  intros cfg req_body w req.
  assert (H : valid_request req_body (lit "Line one. Line two.") (lit "summarize"))
    by (repeat split; discriminate).
  split; [exact H|].
  pose proof (strict_completion_outcomes cfg w req_body _ _ H eq_refl eq_refl) as (Ha & _ & Hm).
  split; [exact Ha|]. apply Hm; [discriminate|reflexivity].
Defined.
